(** * WeFriend: the denormalised social graph, messaging and feed engines

    A shallow embedding of the Firebase Realtime Database code of
    friends.js, chat.js, notifications.js, posts.js and database.js, and
    the properties of the mirrored friend edges, the unread counters and
    the post counters that the specification states about it.

    Modelling conventions.
    - The database is a record with one finite map per logical path of the
      persisted layout ([users/{id}], [friends/{id}/{otherId}], ...).  A
      two-level location [a/{x}/{y}] is a map keyed by the pair [(x, y)];
      a node exists when a value is stored under it, as in the Realtime
      Database, which keeps no empty objects and no [null].
    - User identifiers, usernames and chat identifiers are strings, each a
      single non-empty path segment.  The SDK refuses a path with a control
      character or one of [. # $ [ ]] in it before it reads or writes
      anything; [validKey] is the test, and a property about a name typed
      by a user that depends on it assumes it.
    - A key made by [push] is a natural number: the number that the
      identifier spells in the alphabet of [push], whose sixty-four
      characters are in character order, so that the order of the numbers
      is the order in which the database and JavaScript list the
      identifiers.  [push] makes its key from the clock of the writer and
      random bits.  The key is new at its location; nothing else is known
      of it.  [pushKey] is the key of a writer whose clock is ahead of
      every key present, [pushKeyLeast] that of a writer whose clock is
      behind, and [sendMessageWith] and [addNotificationWith] take the
      maker of keys as an argument.
    - The children of a node are enumerated in the order in which
      [snapshot.val()] lists them to [for ... in] and [Object.keys]:
      [keyLe] for string keys, the order of the numbers for push keys.
      The properties of the feed, where the enumeration orders the posts
      of equal time, are stated for every order of enumeration.
    - [getCurrentUserId()] is the argument [cur]; [serverTimestamp()] and
      [Date.now()] are the argument [now], one clock reading per call.
    - An [async] function is a state transformer returning the value it
      resolves to or the error it throws, together with the database after
      the writes it performed before that point: a write is never undone.
    - Counters are integers in [Z]; [x || 0] is [orZero]. *)

From Stdlib Require Import ZArith String Ascii.
From stdpp Require Import gmap strings list fin_maps sorting.
From stdpp Require Import pretty.

Set Default Proof Using "Type".

(** ** JavaScript values and helpers *)

(** [x || 0] for a numeric field that may be absent. *)
Definition orZero (x : option Z) : Z :=
  match x with
  | Some n => n
  | None => 0%Z
  end.

(** [`${x}`] for a string field that may be absent. *)
Definition interpolate (x : option string) : string :=
  match x with
  | Some s => s
  | None => "undefined"
  end.

(** [!currentUserId] is true for [null] and for the empty string. *)
Definition truthyId (cur : option string) : option string :=
  match cur with
  | Some u => if decide (u = "") then None else Some u
  | None => None
  end.

(** [String.prototype.trim] removes the white space and the line
    terminators of ECMAScript from both ends of a string.  A string of the
    model is the UTF-8 encoding of the string of the program; [whiteSpace]
    lists the encodings of the characters removed: U+0009 to U+000D,
    U+0020, U+00A0, U+1680, U+2000 to U+200A, U+2028, U+2029, U+202F,
    U+205F, U+3000 and U+FEFF. *)
Definition whiteSpace : list (list nat) :=
  [[9]; [10]; [11]; [12]; [13]; [32]; [194; 160]; [225; 154; 128]]
  ++ ((λ b, [226; 128; b]) <$> seq 128 11)
  ++ [[226; 128; 168]; [226; 128; 169]; [226; 128; 175]; [226; 129; 159];
      [227; 128; 128]; [239; 187; 191]].

(** What follows the bytes [code] at the head of [s], if [s] starts with
    them. *)
Fixpoint afterBytes (code : list nat) (s : list ascii) : option (list ascii) :=
  match code, s with
  | [], _ => Some s
  | b :: code', c :: s' =>
      if Nat.eqb (nat_of_ascii c) b then afterBytes code' s' else None
  | _ :: _, [] => None
  end.

(** What follows a first character that is white space, read forwards and,
    for the end of a string, on the reversed bytes. *)
Definition afterSpace (s : list ascii) : option (list ascii) :=
  head (omap (λ code, afterBytes code s) whiteSpace).

Definition beforeSpace (s : list ascii) : option (list ascii) :=
  head (omap (λ code, afterBytes (reverse code) s) whiteSpace).

(** Removing white space at the head for as long as there is some: at most
    [fuel] characters, which the length of the string bounds. *)
Fixpoint dropWhile (strip : list ascii → option (list ascii)) (fuel : nat)
    (s : list ascii) : list ascii :=
  match fuel with
  | 0 => s
  | S fuel' =>
      match strip s with
      | Some s' => dropWhile strip fuel' s'
      | None => s
      end
  end.

Definition trimStart (s : string) : string :=
  string_of_list_ascii
    (dropWhile afterSpace (String.length s) (list_ascii_of_string s)).

Definition trimEnd (s : string) : string :=
  string_of_list_ascii
    (reverse (dropWhile beforeSpace (String.length s)
                (reverse (list_ascii_of_string s)))).

Definition trim (s : string) : string := trimEnd (trimStart s).

(** [s.length]: the number of UTF-16 code units of the string, read off
    its UTF-8 encoding: one for a character of one, two or three bytes, two
    for a character of four bytes, none for a continuation byte. *)
Definition utf16Length (s : string) : nat :=
  foldr (λ c n, let b := nat_of_ascii c in
                if b <? 128 then S n
                else if b <? 192 then n
                else if b <? 240 then S n
                else S (S n))
        0 (list_ascii_of_string s).

(** [array.slice(0, limit)] for an integer [limit]: a negative end counts
    from the end of the array. *)
Definition sliceFromZero {A} (l : list A) (limit : Z) : list A :=
  if (limit <? 0)%Z
  then take (Z.to_nat (Z.max (Z.of_nat (length l) + limit) 0)) l
  else take (Z.to_nat limit) l.

(** [Array.prototype.sort] with a comparator that subtracts two numeric
    keys: the sort is stable, so the result is the one stable ordering of
    the array by that key, computed here by insertion from the right. *)
Section JsSort.
Context {A : Type} (key : A → Z).

Fixpoint sortInsert (x : A) (l : list A) : list A :=
  match l with
  | [] => [x]
  | y :: l' =>
      if (key x <=? key y)%Z then x :: y :: l' else y :: sortInsert x l'
  end.

Fixpoint sortBy (l : list A) : list A :=
  match l with
  | [] => []
  | x :: l' => sortInsert x (sortBy l')
  end.
End JsSort.

(** ** Key order and the children of a node *)

(** The order in which [Object.keys] and [for ... in] list the children of
    a snapshot's value.  The database hands the children of a node over in
    the order of its [nameCompare]: the keys that read as 32-bit integers
    first, by value and then by length, the other keys after them, compared
    as strings, here by the bytes of their encoding, which is the order of
    their code points.  JavaScript then lists the properties of the object made of
    them: the array indices first, by value, the other properties in the
    order in which they were made. *)

Definition digitOf (c : ascii) : option N :=
  let n := N_of_ascii c in
  if ((48 <=? n) && (n <=? 57))%N then Some (n - 48)%N else None.

Fixpoint decimalFrom (acc : N) (s : string) : option N :=
  match s with
  | EmptyString => Some acc
  | String c s' =>
      match digitOf c with
      | Some d => decimalFrom (10 * acc + d)%N s'
      | None => None
      end
  end.

(** The number spelled by a non-empty string of decimal digits. *)
Definition decimal (s : string) : option N :=
  match s with
  | EmptyString => None
  | _ => decimalFrom 0%N s
  end.

Fixpoint dropZeros (s : string) : string :=
  match s with
  | String c s' => if Ascii.eqb c "0" then dropZeros s' else s
  | EmptyString => s
  end.

(** An array index of JavaScript: the canonical numeral of a number below
    [2^32 - 1]. *)
Definition arrayIndex (s : string) : option N :=
  match decimal s with
  | Some n =>
      if (String.eqb s "0" || negb (String.prefix "0" s))
         && (n <? 4294967295)%N
      then Some n else None
  | None => None
  end.

(** [tryParseInt] of the database: an optional minus sign, any number of
    zeros and one to ten digits, within the range of the 32-bit
    integers. *)
Definition tryParseInt (s : string) : option Z :=
  let '(negative, digits) :=
    match s with
    | String c s' => if Ascii.eqb c "-" then (true, s') else (false, s)
    | EmptyString => (false, s)
    end in
  match decimal digits with
  | Some n =>
      let v := if negative : bool then (- Z.of_N n)%Z else Z.of_N n in
      if (String.length (dropZeros digits) <=? 10)
         && (-2147483648 <=? v)%Z && (v <=? 2147483647)%Z
      then Some v else None
  | None => None
  end.

(** [nameCompare(a, b) <= 0]. *)
Definition nameLe (a b : string) : bool :=
  match tryParseInt a, tryParseInt b with
  | Some x, Some y =>
      if (x =? y)%Z then String.length a <=? String.length b else (x <? y)%Z
  | Some _, None => true
  | None, Some _ => false
  | None, None => String.leb a b
  end.

(** [a] is listed no later than [b] among the keys of one object. *)
Definition keyLe (a b : string) : bool :=
  match arrayIndex a, arrayIndex b with
  | Some x, Some y => (x <=? y)%N
  | Some _, None => true
  | None, Some _ => false
  | None, None => nameLe a b
  end.

Definition strLe (a b : string) : Prop := keyLe a b = true.

#[global] Instance strLe_dec : RelDecision strLe.
Proof. intros a b. unfold strLe. apply _. Defined.

Definition byStrKey {V} (a b : string * V) : Prop := strLe a.1 b.1.
Definition byNatKey {V} (a b : nat * V) : Prop := a.1 ≤ b.1.

#[global] Instance byStrKey_dec {V} : RelDecision (@byStrKey V).
Proof. intros a b. unfold byStrKey. apply _. Defined.

#[global] Instance byNatKey_dec {V} : RelDecision (@byNatKey V).
Proof. intros a b. unfold byNatKey. apply _. Defined.

Section Children.
Context `{Countable K1} `{Countable K2} {V : Type}.

(** The entries stored under [a/{p}/...], in no particular order. *)
Definition childEntries (p : K1) (m : gmap (K1 * K2) V) : list (K2 * V) :=
  omap (λ kv, if decide (kv.1.1 = p) then Some (kv.1.2, kv.2) else None)
       (map_to_list m).

End Children.

(** Children in the order of enumeration: [keyLe] for string keys; for
    push keys the order of the numbers they spell, which is the order of
    the identifiers as strings. *)
Definition childrenStr `{Countable K1} {V} (p : K1) (m : gmap (K1 * string) V)
  : list (string * V) := merge_sort byStrKey (childEntries p m).

Definition childrenNat `{Countable K1} {V} (p : K1) (m : gmap (K1 * nat) V)
  : list (nat * V) := merge_sort byNatKey (childEntries p m).

Definition entriesStr {V} (m : gmap string V) : list (string * V) :=
  merge_sort byStrKey (map_to_list m).

Definition entriesNat {V} (m : gmap nat V) : list (nat * V) :=
  merge_sort byNatKey (map_to_list m).

(** [push(ref).key].  The SDK makes the key of a new child from the clock
    of the client and random bits: the key is new at its location, and
    where it falls among the keys already there depends on the clocks of
    the clients that wrote them.  [pushKey] is the key made by a client
    whose clock is ahead of every key present; the operations that say
    nothing else push with it. *)
Definition pushKey (keys : list nat) : nat := S (max_list keys).

(** The key made by a client whose clock is behind: the least key that is
    new at the location. *)
Definition pushKeyLeast (keys : list nat) : nat :=
  default (S (max_list keys))
          (head (filter (λ k, k ∉ keys) (seq 0 (S (length keys))))).


(** ** Data model *)

(** [users/{id}]: the fields of a profile that the engines read.  A field
    stored as [null] is absent and reads back as [undefined]. *)
Record Profile := mkProfile {
  displayName : option string;
  photoURL : option string;
  username : option string
}.

(** [friends/{id}/{otherId}] *)
Record FriendEdge := mkFriendEdge {
  addedAt : Z;
  edgeStatus : string
}.

(** [friendRequests/{toId}/{fromId}] *)
Record FriendRequest := mkFriendRequest {
  reqFrom : string;
  reqTo : string;
  reqTimestamp : Z;
  reqStatus : string
}.

(** [NOTIFICATION_TYPES] *)
Inductive NotificationType :=
| FRIEND_REQUEST
| FRIEND_REQUEST_ACCEPTED
| NEW_MESSAGE
| POST_LIKE
| POST_COMMENT
| MENTION.

Definition notificationTypeString (t : NotificationType) : string :=
  match t with
  | FRIEND_REQUEST => "friend_request"
  | FRIEND_REQUEST_ACCEPTED => "friend_request_accepted"
  | NEW_MESSAGE => "new_message"
  | POST_LIKE => "post_like"
  | POST_COMMENT => "post_comment"
  | MENTION => "mention"
  end.

(** The object a caller hands to [addNotification]. *)
Record NotificationData := mkNotificationData {
  ntype : NotificationType;
  nfrom : string;
  nmessage : string;
  ntimestamp : Z;
  nchatId : option string;
  npostId : option nat
}.

(** [notifications/{ownerId}/{notifId}] *)
Record Notification := mkNotification {
  ndata : NotificationData;
  nid : nat;
  nread : bool;
  ncreatedAt : Z
}.

(** [messages/{threadId}/{msgId}] *)
Record Message := mkMessage {
  senderId : string;
  recipientId : string;
  text : string;
  timestamp : Z;
  read : bool
}.

(** [chats/{threadId}] *)
Record ChatMeta := mkChatMeta {
  participants : list string;
  lastMessageText : option string;
  lastMessageSender : option string;
  lastMessageTimestamp : option Z;
  chatCreatedAt : option Z;
  updatedAt : Z
}.

(** [userChats/{id}/{threadId}]: every field is written by [update], so
    each may be absent. *)
Record UserChat := mkUserChat {
  lastMessage : option string;
  lastMessageTime : option Z;
  otherUserId : option string;
  unreadCount : option Z
}.

Definition emptyUserChat : UserChat := mkUserChat None None None None.

(** [posts/{id}/comments/{commentId}] *)
Record Comment := mkComment {
  commentAuthorId : string;
  commentAuthorName : string;
  commentAuthorPhoto : string;
  commentText : string;
  commentTimestamp : Z;
  commentCreatedAt : Z
}.

(** [posts/{id}].  [likes/{uid}] only ever holds [true], so [likes] is the
    set of its keys.  A post node can hold comments or counters alone, when
    they were written under an identifier that [createPost] never made. *)
Record Post := mkPost {
  authorId : option string;
  authorName : option string;
  authorPhoto : option string;
  content : option string;
  image : option string;
  postTimestamp : option Z;
  likes : gset string;
  likesCount : option Z;
  comments : gmap nat Comment;
  commentsCount : option Z;
  createdAt : option Z
}.

Definition emptyPost : Post :=
  mkPost None None None None None None ∅ None ∅ None None.

(** [snapshot.exists()] on a post node is false when nothing is stored
    under it. *)
Definition postIsNull (p : Post) : bool :=
  bool_decide (authorId p = None ∧ authorName p = None ∧ authorPhoto p = None
               ∧ content p = None ∧ image p = None ∧ postTimestamp p = None
               ∧ likes p = ∅ ∧ likesCount p = None ∧ comments p = ∅
               ∧ commentsCount p = None ∧ createdAt p = None).

(** The database. *)
Record Store := mkStore {
  users : gmap string Profile;
  usernames : gmap string string;
  friends : gmap (string * string) FriendEdge;
  friendRequests : gmap (string * string) FriendRequest;
  chats : gmap string ChatMeta;
  messages : gmap (string * nat) Message;
  userChats : gmap (string * string) UserChat;
  posts : gmap nat Post;
  userPosts : gmap (string * nat) bool;
  notifications : gmap (string * nat) Notification
}.

Definition emptyStore : Store := mkStore ∅ ∅ ∅ ∅ ∅ ∅ ∅ ∅ ∅ ∅.

Definition withFriends (f : gmap (string * string) FriendEdge) (st : Store) :=
  mkStore (users st) (usernames st) f (friendRequests st) (chats st)
          (messages st) (userChats st) (posts st) (userPosts st)
          (notifications st).

Definition withFriendRequests (f : gmap (string * string) FriendRequest)
    (st : Store) :=
  mkStore (users st) (usernames st) (friends st) f (chats st)
          (messages st) (userChats st) (posts st) (userPosts st)
          (notifications st).

Definition withChats (f : gmap string ChatMeta) (st : Store) :=
  mkStore (users st) (usernames st) (friends st) (friendRequests st) f
          (messages st) (userChats st) (posts st) (userPosts st)
          (notifications st).

Definition withMessages (f : gmap (string * nat) Message) (st : Store) :=
  mkStore (users st) (usernames st) (friends st) (friendRequests st)
          (chats st) f (userChats st) (posts st) (userPosts st)
          (notifications st).

Definition withUserChats (f : gmap (string * string) UserChat) (st : Store) :=
  mkStore (users st) (usernames st) (friends st) (friendRequests st)
          (chats st) (messages st) f (posts st) (userPosts st)
          (notifications st).

Definition withPosts (f : gmap nat Post) (st : Store) :=
  mkStore (users st) (usernames st) (friends st) (friendRequests st)
          (chats st) (messages st) (userChats st) f (userPosts st)
          (notifications st).

Definition withUserPosts (f : gmap (string * nat) bool) (st : Store) :=
  mkStore (users st) (usernames st) (friends st) (friendRequests st)
          (chats st) (messages st) (userChats st) (posts st) f
          (notifications st).

Definition withNotifications (f : gmap (string * nat) Notification)
    (st : Store) :=
  mkStore (users st) (usernames st) (friends st) (friendRequests st)
          (chats st) (messages st) (userChats st) (posts st) (userPosts st)
          f.

(** ** Errors and the monad of asynchronous operations *)

(** The errors thrown by the operations, named after their messages. *)
Inductive error :=
| NotAuthenticated      (* 'User not authenticated' *)
| UserNotFound          (* 'User not found' *)
| SelfRequest           (* 'Cannot send friend request to yourself' *)
| AlreadyFriends        (* 'Already friends with this user' *)
| RequestAlreadySent    (* 'Friend request already sent' *)
| ReverseRequestPending (* 'This user has already sent you a friend request' *)
| NotFriends            (* 'Can only send messages to friends' *)
| EmptyPost             (* 'Post must have content or an image' *)
| PostNotFound          (* 'Post not found' *)
| EmptyComment          (* 'Comment cannot be empty' *)
| CommentNotFound       (* 'Comment not found' *)
| NotCommentAuthor      (* 'Can only delete your own comments' *)
| NullProperty          (* TypeError: a property of null was read *)
| UndefinedValue.       (* set failed: the value contains undefined *)

Definition errorMessage (e : error) : string :=
  match e with
  | NotAuthenticated => "User not authenticated"
  | UserNotFound => "User not found"
  | SelfRequest => "Cannot send friend request to yourself"
  | AlreadyFriends => "Already friends with this user"
  | RequestAlreadySent => "Friend request already sent"
  | ReverseRequestPending => "This user has already sent you a friend request"
  | NotFriends => "Can only send messages to friends"
  | EmptyPost => "Post must have content or an image"
  | PostNotFound => "Post not found"
  | EmptyComment => "Comment cannot be empty"
  | CommentNotFound => "Comment not found"
  | NotCommentAuthor => "Can only delete your own comments"
  | NullProperty => "Cannot read properties of null"
  | UndefinedValue => "value argument contains undefined"
  end.

Inductive result (A : Type) :=
| Ok (a : A)
| Throw (e : error).

Arguments Ok {A} a.
Arguments Throw {A} e.

Definition Async (A : Type) : Type := Store → result A * Store.

Definition ret {A} (a : A) : Async A := λ st, (Ok a, st).
Definition throw {A} (e : error) : Async A := λ st, (Throw e, st).

Definition bind {A B} (c : Async A) (k : A → Async B) : Async B :=
  λ st, match c st with
        | (Ok a, st') => k a st'
        | (Throw e, st') => (Throw e, st')
        end.

Definition reads {A} (f : Store → A) : Async A := λ st, (Ok (f st), st).
Definition writes (f : Store → Store) : Async unit := λ st, (Ok tt, f st).

Notation "x <~ c ;; k" := (bind c (λ x, k))
  (at level 100, c at next level, right associativity).
Notation "c ;;; k" := (bind c (λ _, k))
  (at level 100, right associativity).

(** [const u = getCurrentUserId(); if (!u) throw ...] *)
Definition requireUser (cur : option string) : Async string :=
  match truthyId cur with
  | Some u => ret u
  | None => throw NotAuthenticated
  end.

(** [x.field] where [x] may be [null]. *)
Definition nonNull {A} (x : option A) : Async A :=
  match x with
  | Some a => ret a
  | None => throw NullProperty
  end.

(** A value handed to [set] that may be [undefined]. *)
Definition defined {A} (x : option A) : Async A :=
  match x with
  | Some a => ret a
  | None => throw UndefinedValue
  end.

(** ** notifications.js *)

(** [addNotification] on a client whose [push] makes the key [push keys]
    at a location that holds the keys [keys]. *)
Definition addNotificationWith (push : list nat → nat) (userId : string)
    (notificationData : NotificationData) (now : Z) : Async nat :=
  λ st,
    let key := push (childrenNat userId (notifications st)).*1 in
    let notification := mkNotification notificationData key false now in
    (Ok key,
     withNotifications (<[(userId, key) := notification]> (notifications st)) st).

Definition addNotification : string → NotificationData → Z → Async nat :=
  addNotificationWith pushKey.

(** ** database.js *)

Definition getUserProfile (uid : string) : Async (option Profile) :=
  reads (λ st, users st !! uid).

Definition getUserByUsername (name : string) : Async (option Profile) :=
  snapshot <~ reads (λ st, usernames st !! name) ;;
  match snapshot with
  | Some uid => getUserProfile uid
  | None => ret None
  end.

(** ** friends.js *)

(** The loop of [sendFriendRequest] over [users]: the first identifier, in
    the order of enumeration, whose profile carries the username. *)
Definition findUidByUsername (us : gmap string Profile) (targetUsername : string)
  : option string :=
  fst <$> List.find (λ kv, bool_decide (username kv.2 = Some targetUsername))
                    (entriesStr us).

(** Between the two resolutions of the username the source computes
    [targetUserId] from the keys of a snapshot object; that value is never
    used and the reads it makes change nothing, so it has no counterpart
    here. *)
Definition sendFriendRequest (cur : option string) (targetUsername : string)
    (now : Z) : Async bool :=
  currentUserId <~ requireUser cur ;;
  targetUser <~ getUserByUsername targetUsername ;;
  match targetUser with
  | None => throw UserNotFound
  | Some _ =>
      us <~ reads users ;;
      match findUidByUsername us targetUsername with
      | None => throw UserNotFound
      | Some targetUid =>
          if decide (targetUid = currentUserId) then throw SelfRequest else
          friendsSnapshot <~ reads (λ st, friends st !! (currentUserId, targetUid)) ;;
          match friendsSnapshot with
          | Some _ => throw AlreadyFriends
          | None =>
              requestSnapshot <~
                reads (λ st, friendRequests st !! (targetUid, currentUserId)) ;;
              match requestSnapshot with
              | Some _ => throw RequestAlreadySent
              | None =>
                  reverseRequestSnapshot <~
                    reads (λ st, friendRequests st !! (currentUserId, targetUid)) ;;
                  match reverseRequestSnapshot with
                  | Some _ => throw ReverseRequestPending
                  | None =>
                      let requestData :=
                        mkFriendRequest currentUserId targetUid now "pending" in
                      writes (λ st,
                        withFriendRequests
                          (<[(targetUid, currentUserId) := requestData]>
                             (friendRequests st)) st) ;;;
                      profile <~ getUserProfile currentUserId ;;
                      p <~ nonNull profile ;;
                      addNotification targetUid
                        (mkNotificationData FRIEND_REQUEST currentUserId
                           (interpolate (displayName p)
                              ++ " sent you a friend request")
                           now None None) now ;;;
                      ret true
                  end
              end
          end
      end
  end.

Definition acceptFriendRequest (cur : option string) (fromUserId : string)
    (now : Z) : Async bool :=
  currentUserId <~ requireUser cur ;;
  writes (λ st,
    withFriendRequests
      (delete (currentUserId, fromUserId) (friendRequests st)) st) ;;;
  writes (λ st,
    withFriends
      (<[(currentUserId, fromUserId) := mkFriendEdge now "accepted"]>
         (friends st)) st) ;;;
  writes (λ st,
    withFriends
      (<[(fromUserId, currentUserId) := mkFriendEdge now "accepted"]>
         (friends st)) st) ;;;
  profile <~ getUserProfile currentUserId ;;
  p <~ nonNull profile ;;
  addNotification fromUserId
    (mkNotificationData FRIEND_REQUEST_ACCEPTED currentUserId
       (interpolate (displayName p) ++ " accepted your friend request")
       now None None) now ;;;
  ret true.

Definition rejectFriendRequest (cur : option string) (fromUserId : string)
  : Async bool :=
  currentUserId <~ requireUser cur ;;
  writes (λ st,
    withFriendRequests
      (delete (currentUserId, fromUserId) (friendRequests st)) st) ;;;
  ret true.

Definition removeFriend (cur : option string) (friendUserId : string)
  : Async bool :=
  currentUserId <~ requireUser cur ;;
  writes (λ st,
    withFriends (delete (currentUserId, friendUserId) (friends st)) st) ;;;
  writes (λ st,
    withFriends (delete (friendUserId, currentUserId) (friends st)) st) ;;;
  ret true.

Definition areFriends (userId1 userId2 : string) : Async bool :=
  reads (λ st, bool_decide (is_Some (friends st !! (userId1, userId2)))).

(** The objects built by the read operations: [{uid, ...userProfile,
    friendshipData}], [{fromUserId, ...userProfile, requestData}] and
    [{uid, ...users[uid]}]. *)
Record FriendEntry := mkFriendEntry {
  friendUid : string;
  friendProfile : Profile;
  friendshipData : FriendEdge
}.

Record RequestEntry := mkRequestEntry {
  fromUserId : string;
  requestProfile : Profile;
  requestData : FriendRequest
}.

Record UserEntry := mkUserEntry {
  uid : string;
  userProfile : Profile
}.

Definition getFriendRequests (cur : option string) (st : Store)
  : list RequestEntry :=
  match truthyId cur with
  | None => []
  | Some currentUserId =>
      omap (λ kv, match users st !! kv.1 with
                  | Some p => Some (mkRequestEntry kv.1 p kv.2)
                  | None => None
                  end)
           (childrenStr currentUserId (friendRequests st))
  end.

Definition getFriendsList (cur : option string) (st : Store)
  : list FriendEntry :=
  match truthyId cur with
  | None => []
  | Some currentUserId =>
      omap (λ kv, match users st !! kv.1 with
                  | Some p => Some (mkFriendEntry kv.1 p kv.2)
                  | None => None
                  end)
           (childrenStr currentUserId (friends st))
  end.

Definition getAllUsers (st : Store) : list UserEntry :=
  (λ kv, mkUserEntry kv.1 kv.2) <$> entriesStr (users st).

Definition getFriendSuggestions (cur : option string) (limit : Z) (st : Store)
  : list UserEntry :=
  match truthyId cur with
  | None => []
  | Some currentUserId =>
      let allUsers := getAllUsers st in
      let currentFriends := getFriendsList cur st in
      let pendingRequests := getFriendRequests cur st in
      let friendIds := friendUid <$> currentFriends in
      let pendingRequestIds := fromUserId <$> pendingRequests in
      sliceFromZero
        (filter (λ user, (uid user ≠ currentUserId)
                         ∧ (uid user ∉ friendIds)
                         ∧ (uid user ∉ pendingRequestIds)) allUsers)
        limit
  end.

(** ** chat.js *)

(** [userId1 < userId2] compares the strings character by character. *)
Definition generateChatId (userId1 userId2 : string) : string :=
  if String.ltb userId1 userId2
  then userId1 ++ "_" ++ userId2
  else userId2 ++ "_" ++ userId1.

(** The value [getUnreadCount] computes from the snapshot of
    [userChats/{userId}/{chatId}]. *)
Definition unreadCountOf (userId chatId : string) (st : Store) : Z :=
  match userChats st !! (userId, chatId) with
  | Some c => orZero (unreadCount c)
  | None => 0%Z
  end.

Definition getUnreadCount (userId chatId : string) : Async Z :=
  reads (unreadCountOf userId chatId).

(** [update(ref(database, `userChats/${userId}/${chatId}`), fields)] *)
Definition updateUserChat (userId chatId : string) (f : UserChat → UserChat)
  : Async unit :=
  writes (λ st,
    withUserChats
      (<[(userId, chatId) :=
           f (default emptyUserChat (userChats st !! (userId, chatId)))]>
         (userChats st)) st).

(** [sendMessage] on a client whose [push] makes the key [push keys] at a
    location that holds the keys [keys]. *)
Definition sendMessageWith (push : list nat → nat) (cur : option string)
    (recipientId messageText : string) (now : Z) : Async nat :=
  currentUserId <~ requireUser cur ;;
  isFriend <~ areFriends currentUserId recipientId ;;
  if negb isFriend then throw NotFriends else
  let chatId := generateChatId currentUserId recipientId in
  let messageData := mkMessage currentUserId recipientId messageText now false in
  newMessageKey <~ reads (λ st, push (childrenNat chatId (messages st)).*1) ;;
  writes (λ st,
    withMessages (<[(chatId, newMessageKey) := messageData]> (messages st)) st) ;;;
  writes (λ st,
    withChats
      (<[chatId := mkChatMeta [currentUserId; recipientId] (Some messageText)
                     (Some currentUserId) (Some now) None now]> (chats st)) st) ;;;
  updateUserChat currentUserId chatId
    (λ c, mkUserChat (Some messageText) (Some now) (Some recipientId)
            (unreadCount c)) ;;;
  unread <~ getUnreadCount recipientId chatId ;;
  updateUserChat recipientId chatId
    (λ c, mkUserChat (Some messageText) (Some now) (Some currentUserId)
            (Some (unread + 1)%Z)) ;;;
  senderProfile <~ getUserProfile currentUserId ;;
  p <~ nonNull senderProfile ;;
  addNotificationWith push recipientId
    (mkNotificationData NEW_MESSAGE currentUserId
       (interpolate (displayName p) ++ " sent you a message")
       now (Some chatId) None) now ;;;
  ret newMessageKey.

Definition sendMessage : option string → string → string → Z → Async nat :=
  sendMessageWith pushKey.

(** [query(messagesRef, limitToLast(limit))]: the last [limit] children in
    key order; the SDK throws unless [limit] is a positive integer. *)
Definition limitToLast {A} (limit : Z) (l : list A) : option (list A) :=
  if (limit <=? 0)%Z then None
  else Some (drop (length l - Z.to_nat limit) l).

(** [a.timestamp || 0] of a list entry [{id, ...message}]. *)
Definition messageTime (e : nat * Message) : Z := orZero (Some (timestamp e.2)).

(** The list both read paths build from a snapshot of the query. *)
Definition messagesList (chatId : string) (limit : Z) (st : Store)
  : option (list (nat * Message)) :=
  sortBy messageTime <$> limitToLast limit (childrenNat chatId (messages st)).

(** The error of [limitToLast] is caught and turned into [[]]. *)
Definition getChatMessages (cur : option string) (otherUserId : string)
    (limit : Z) (st : Store) : list (nat * Message) :=
  match truthyId cur with
  | None => []
  | Some currentUserId =>
      default [] (messagesList (generateChatId currentUserId otherUserId) limit st)
  end.

(** What the callback of [listenToChatMessages] receives for the database
    [st]; [None] when no listener is registered. *)
Definition listenToChatMessages (cur : option string) (otherUserId : string)
    (limit : Z) (st : Store) : option (list (nat * Message)) :=
  match truthyId cur with
  | None => None
  | Some currentUserId =>
      messagesList (generateChatId currentUserId otherUserId) limit st
  end.

Definition markRead (m : Message) : Message :=
  mkMessage (senderId m) (recipientId m) (text m) (timestamp m) true.

(** The keys of the [updates] object of [markMessagesAsRead]. *)
Definition unreadKeys (currentUserId : string) (msgs : list (nat * Message))
  : list nat :=
  (filter (λ e : nat * Message, (recipientId e.2 = currentUserId)
                                ∧ (read e.2 = false)) msgs).*1.

(** Errors are logged, never thrown again. *)
Definition markMessagesAsRead (cur : option string) (otherId : string)
  : Async unit :=
  match truthyId cur with
  | None => ret tt
  | Some currentUserId =>
      let chatId := generateChatId currentUserId otherId in
      updateUserChat currentUserId chatId
        (λ c, mkUserChat (lastMessage c) (lastMessageTime c) (otherUserId c)
                (Some 0%Z)) ;;;
      msgs <~ reads (λ st, childrenNat chatId (messages st)) ;;
      let updates := unreadKeys currentUserId msgs in
      match updates with
      | [] => ret tt
      | _ :: _ =>
          writes (λ st,
            withMessages
              (foldr (λ k m, alter markRead (chatId, k) m) (messages st) updates)
              st)
      end
  end.

(** ** posts.js *)

(** [get(ref(database, `posts/${postId}`))]: [None] when the snapshot does
    not exist. *)
Definition getPost (postId : nat) : Async (option Post) :=
  reads (λ st, match posts st !! postId with
               | Some p => if postIsNull p then None else Some p
               | None => None
               end).

(** A write below [posts/{postId}]: the node is made if it is absent. *)
Definition updatePost (postId : nat) (f : Post → Post) : Async unit :=
  writes (λ st,
    withPosts
      (<[postId := f (default emptyPost (posts st !! postId))]> (posts st)) st).

Definition withLikes (l : gset string) (n : option Z) (p : Post) : Post :=
  mkPost (authorId p) (authorName p) (authorPhoto p) (content p) (image p)
         (postTimestamp p) l n (comments p) (commentsCount p) (createdAt p).

Definition withComments (c : gmap nat Comment) (p : Post) : Post :=
  mkPost (authorId p) (authorName p) (authorPhoto p) (content p) (image p)
         (postTimestamp p) (likes p) (likesCount p) c (commentsCount p)
         (createdAt p).

Definition withCommentsCount (n : option Z) (p : Post) : Post :=
  mkPost (authorId p) (authorName p) (authorPhoto p) (content p) (image p)
         (postTimestamp p) (likes p) (likesCount p) (comments p) n
         (createdAt p).

(** [imageFile] is the file handed to the storage collaborator, named by
    the reference that [uploadPostImage] returns for it. *)
Definition createPost (cur : option string) (postContent : string)
    (imageFile : option string) (now : Z) : Async nat :=
  currentUserId <~ requireUser cur ;;
  if bool_decide (trim postContent = "") && bool_decide (imageFile = None)
  then throw EmptyPost else
  profile <~ getUserProfile currentUserId ;;
  p <~ nonNull profile ;;
  name <~ defined (displayName p) ;;
  photo <~ defined (photoURL p) ;;
  newPostKey <~ reads (λ st, pushKey (entriesNat (posts st)).*1) ;;
  let postData :=
    mkPost (Some currentUserId) (Some name) (Some photo)
           (Some (trim postContent)) imageFile (Some now) ∅ (Some 0%Z) ∅
           (Some 0%Z) (Some now) in
  writes (λ st, withPosts (<[newPostKey := postData]> (posts st)) st) ;;;
  writes (λ st,
    withUserPosts (<[(currentUserId, newPostKey) := true]> (userPosts st)) st) ;;;
  ret newPostKey.

Definition togglePostLike (cur : option string) (postId : nat) (now : Z)
  : Async bool :=
  currentUserId <~ requireUser cur ;;
  postSnapshot <~ getPost postId ;;
  match postSnapshot with
  | None => throw PostNotFound
  | Some post =>
      let isLiked := bool_decide (currentUserId ∈ likes post) in
      if isLiked then
        updatePost postId
          (λ q, withLikes (likes q ∖ {[currentUserId]})
                  (Some (orZero (likesCount post) - 1)%Z) q) ;;;
        ret (negb isLiked)
      else
        updatePost postId
          (λ q, withLikes (likes q ∪ {[currentUserId]})
                  (Some (orZero (likesCount post) + 1)%Z) q) ;;;
        (if decide (authorId post = Some currentUserId) then ret tt else
           profile <~ getUserProfile currentUserId ;;
           p <~ nonNull profile ;;
           addNotification (interpolate (authorId post))
             (mkNotificationData POST_LIKE currentUserId
                (interpolate (displayName p) ++ " liked your post")
                now None (Some postId)) now ;;;
           ret tt) ;;;
        ret (negb isLiked)
  end.

Definition addComment (cur : option string) (postId : nat) (newText : string)
    (now : Z) : Async nat :=
  currentUserId <~ requireUser cur ;;
  if decide (trim newText = "") then throw EmptyComment else
  profile <~ getUserProfile currentUserId ;;
  p <~ nonNull profile ;;
  name <~ defined (displayName p) ;;
  photo <~ defined (photoURL p) ;;
  let commentData := mkComment currentUserId name photo (trim newText) now now in
  newCommentKey <~
    reads (λ st, pushKey
                   (entriesNat
                      (comments (default emptyPost (posts st !! postId)))).*1) ;;
  updatePost postId
    (λ q, withComments (<[newCommentKey := commentData]> (comments q)) q) ;;;
  postSnapshot <~ getPost postId ;;
  post <~ nonNull postSnapshot ;;
  updatePost postId
    (withCommentsCount (Some (orZero (commentsCount post) + 1)%Z)) ;;;
  (if decide (authorId post = Some currentUserId) then ret tt else
     addNotification (interpolate (authorId post))
       (mkNotificationData POST_COMMENT currentUserId
          (name ++ " commented on your post") now None (Some postId)) now ;;;
     ret tt) ;;;
  ret newCommentKey.

Definition deleteComment (cur : option string) (postId commentId : nat)
  : Async bool :=
  currentUserId <~ requireUser cur ;;
  commentSnapshot <~
    reads (λ st, comments (default emptyPost (posts st !! postId)) !! commentId) ;;
  match commentSnapshot with
  | None => throw CommentNotFound
  | Some comment =>
      if decide (commentAuthorId comment = currentUserId) then
        updatePost postId (λ q, withComments (delete commentId (comments q)) q) ;;;
        postSnapshot <~ getPost postId ;;
        post <~ nonNull postSnapshot ;;
        updatePost postId
          (withCommentsCount
             (Some (Z.max (orZero (commentsCount post) - 1) 0))) ;;;
        ret true
      else throw NotCommentAuthor
  end.

(** ** Invariants and derived notions *)

(** The mirrored friend-edge invariant: an edge at [friends/a/b] exists
    exactly when one exists at [friends/b/a]. *)
Definition mirrored (st : Store) : Prop :=
  ∀ a b, is_Some (friends st !! (a, b)) ↔ is_Some (friends st !! (b, a)).

(** The identifier that [sendFriendRequest] takes as its target: the
    username must be found in the index [usernames/{name}] with a stored
    profile behind it, and the target is then the identifier found by the
    loop over [users]. *)
Definition resolveUsername (st : Store) (name : string) : option string :=
  match usernames st !! name with
  | None => None
  | Some indexed =>
      match users st !! indexed with
      | None => None
      | Some _ => findUidByUsername (users st) name
      end
  end.

(** The profile stored for [uid] carries the username [name]. *)
Definition carries (st : Store) (name uid : string) : Prop :=
  ∃ p, users st !! uid = Some p ∧ username p = Some name.

(** A string that [ref] takes as one segment of a path: it is not empty
    and holds none of the characters the SDK refuses in a path, which are
    ['.'], ['#'], ['$'], ['['], [']'] and the control characters, nor the
    separator ['/']. *)
Definition isKeyChar (c : ascii) : bool :=
  let n := nat_of_ascii c in
  (Nat.leb 32 n && negb (Nat.eqb n 127)
   && negb (bool_decide (n ∈ [46; 35; 36; 91; 93; 47])))%bool.

Definition validKey (s : string) : bool :=
  (negb (bool_decide (s = "")) && forallb isKeyChar (list_ascii_of_string s))%bool.

(** What [sendFriendRequest] by [caller] does once its target is known:
    the checks in their order, each failing before any write, and then the
    request and the notification. *)
Definition requestOutcome (st : Store) (caller target : string) (now : Z)
    (sent : result bool * Store) : Prop :=
  if decide (target = caller) then sent = (Throw SelfRequest, st)
  else if decide (is_Some (friends st !! (caller, target)))
  then sent = (Throw AlreadyFriends, st)
  else if decide (is_Some (friendRequests st !! (target, caller)))
  then sent = (Throw RequestAlreadySent, st)
  else if decide (is_Some (friendRequests st !! (caller, target)))
  then sent = (Throw ReverseRequestPending, st)
  else
    friendRequests sent.2 !! (target, caller)
    = Some (mkFriendRequest caller target now "pending")
    ∧ (∀ p, users st !! caller = Some p →
         sent.1 = Ok true
         ∧ ∃ key,
             notifications st !! (target, key) = None
             ∧ notifications sent.2 !! (target, key)
               = Some (mkNotification
                         (mkNotificationData FRIEND_REQUEST caller
                            (interpolate (displayName p)
                               ++ " sent you a friend request")
                            now None None)
                         key false now)).

(** The order of the message lists: creation time, then push key. *)
Definition messageBefore (a b : nat * Message) : Prop :=
  (timestamp a.2 < timestamp b.2)%Z
  ∨ (timestamp a.2 = timestamp b.2 ∧ a.1 < b.1).

(** The counters of a post agree with what they count. *)
Definition postCounters (p : Post) : Prop :=
  likesCount p = Some (Z.of_nat (size (likes p)))
  ∧ commentsCount p = Some (Z.of_nat (size (comments p))).

(** The same agreement for the counters as the code reads them, with
    [|| 0]: it also holds of a node that [addComment] made under an
    identifier without a post, whose [likesCount] is absent. *)
Definition postCountersRead (p : Post) : Prop :=
  orZero (likesCount p) = Z.of_nat (size (likes p))
  ∧ orZero (commentsCount p) = Z.of_nat (size (comments p)).

(** Sequences of [togglePostLike] and [addComment] calls, by any users on
    any posts; a call that throws still leaves the writes it made. *)
Inductive FeedOp :=
| ToggleLike (cur : option string) (postId : nat) (now : Z)
| AddComment (cur : option string) (postId : nat) (newText : string) (now : Z).

Definition runFeedOp (st : Store) (op : FeedOp) : Store :=
  match op with
  | ToggleLike cur postId now => (togglePostLike cur postId now st).2
  | AddComment cur postId newText now => (addComment cur postId newText now st).2
  end.

Definition runFeedOps (ops : list FeedOp) (st : Store) : Store :=
  foldl runFeedOp st ops.

(** ** Example databases *)

Definition alice : Profile := mkProfile (Some "Alice") (Some "a.png") (Some "alice").
Definition bob : Profile := mkProfile (Some "Bob") (Some "b.png") (Some "bob").
Definition carol : Profile := mkProfile (Some "Carol") (Some "c.png") (Some "carol").

(** Three signed-up users [u1], [u2], [u3] and nothing else. *)
Definition threeUsers : Store :=
  mkStore (<["u1" := alice]> (<["u2" := bob]> (<["u3" := carol]> ∅)))
          (<["alice" := "u1"]> (<["bob" := "u2"]> (<["carol" := "u3"]> ∅)))
          ∅ ∅ ∅ ∅ ∅ ∅ ∅ ∅.

(** [u1] has asked [bob] to be friends. *)
Definition requestSent : Store :=
  (sendFriendRequest (Some "u1") "bob" 100 threeUsers).2.

(** [u2] has accepted. *)
Definition friendsMade : Store :=
  (acceptFriendRequest (Some "u2") "u1" 101 requestSent).2.

(** [u1] has accepted a request on its own behalf: [friends/u1/u1]. *)
Definition selfFriend : Store :=
  (acceptFriendRequest (Some "u1") "u1" 50 threeUsers).2.

(** [u1] has written "hi" to [u2]. *)
Definition hiSent : Store :=
  (sendMessage (Some "u1") "u2" "hi" 102 friendsMade).2.

(** [u2] has answered at the same server time; and at an earlier one. *)
Definition tiedMessages : Store :=
  (sendMessage (Some "u2") "u1" "yo" 102 hiSent).2.

Definition earlierMessage : Store :=
  (sendMessage (Some "u2") "u1" "yo" 50 hiSent).2.

(** [u1] has posted "hello". *)
Definition helloPosted : Store :=
  (createPost (Some "u1") "hello" None 200 friendsMade).2.

(** A post of [u1] whose comment by [u2] is stored while its
    [commentsCount] is still 0. *)
Definition staleCount : Store :=
  withPosts
    (<[1 := mkPost (Some "u1") (Some "Alice") (Some "a.png") (Some "hello")
              None (Some 200%Z) ∅ (Some 0%Z)
              (<[1 := mkComment "u2" "Bob" "b.png" "nice" 201 201]> ∅)
              (Some 0%Z) (Some 200%Z)]> ∅)
    threeUsers.

(** * Further operations *)

(** ** Operations whose errors have no name of their own

    The remaining throwing operations are modelled with the message of the
    [Error] they throw; an error of the operations above is carried over
    with its message. *)

Definition Task (A : Type) : Type := Store → (string + A) * Store.

Definition done_ {A} (a : A) : Task A := λ st, (inr a, st).
Definition fail_ {A} (message : string) : Task A := λ st, (inl message, st).

Definition andThen {A B} (c : Task A) (k : A → Task B) : Task B :=
  λ st, match c st with
        | (inr a, st') => k a st'
        | (inl message, st') => (inl message, st')
        end.

Definition fromAsync {A} (c : Async A) : Task A :=
  λ st, match c st with
        | (Ok a, st') => (inr a, st')
        | (Throw e, st') => (inl (errorMessage e), st')
        end.

Notation "x <<~ c ;; k" := (andThen c (λ x, k))
  (at level 100, c at next level, right associativity).

(** [`${x}`] for an identifier that may be [null]. *)
Definition interpolateNull (x : option string) : string :=
  match x with
  | Some s => s
  | None => "null"
  end.

(** ** friends.js, continued *)

Definition getFriendsListForUser (userId : string) (st : Store)
  : list FriendEntry :=
  omap (λ kv, match users st !! kv.1 with
              | Some p => Some (mkFriendEntry kv.1 p kv.2)
              | None => None
              end)
       (childrenStr userId (friends st)).

Definition getMutualFriends (cur : option string) (targetUserId : string)
    (st : Store) : list UserEntry :=
  match truthyId cur with
  | None => []
  | Some currentUserId =>
      let currentUserFriends := getFriendsList cur st in
      let targetUserFriends := getFriendsListForUser targetUserId st in
      let currentFriendIds := friendUid <$> currentUserFriends in
      let targetFriendIds := friendUid <$> targetUserFriends in
      let mutualFriendIds :=
        filter (λ id, id ∈ targetFriendIds) currentFriendIds in
      omap (λ friendId, match users st !! friendId with
                        | Some p => Some (mkUserEntry friendId p)
                        | None => None
                        end)
           mutualFriendIds
  end.

(** ** chat.js, continued *)

Definition deleteMessage (cur : option string) (otherUserId : string)
    (messageId : nat) : Task bool :=
  currentUserId <<~ fromAsync (requireUser cur) ;;
  let chatId := generateChatId currentUserId otherUserId in
  snapshot <<~ fromAsync (reads (λ st, messages st !! (chatId, messageId))) ;;
  match snapshot with
  | None => fail_ "Message not found"
  | Some message =>
      if decide (senderId message = currentUserId) then
        _ <<~ fromAsync (writes (λ st,
                withMessages (delete (chatId, messageId) (messages st)) st)) ;;
        done_ true
      else fail_ "Can only delete your own messages"
  end.

Definition startChatWithFriend (cur : option string) (friendId : string)
    (now : Z) : Task string :=
  currentUserId <<~ fromAsync (requireUser cur) ;;
  isFriend <<~ fromAsync (areFriends currentUserId friendId) ;;
  if negb isFriend then fail_ "Can only chat with friends" else
  let chatId := generateChatId currentUserId friendId in
  chatSnapshot <<~ fromAsync (reads (λ st, chats st !! chatId)) ;;
  _ <<~ fromAsync
          (match chatSnapshot with
           | Some _ => ret tt
           | None =>
               writes (λ st,
                 withChats
                   (<[chatId := mkChatMeta [currentUserId; friendId] None None
                                  None (Some now) now]> (chats st)) st)
           end) ;;
  _ <<~ fromAsync
          (updateUserChat currentUserId chatId
             (λ c, mkUserChat (lastMessage c) (lastMessageTime c)
                     (Some friendId) (Some 0%Z))) ;;
  _ <<~ fromAsync
          (updateUserChat friendId chatId
             (λ c, mkUserChat (lastMessage c) (lastMessageTime c)
                     (Some currentUserId) (Some 0%Z))) ;;
  done_ chatId.

(** An element of the list of [getUserChats]:
    [{chatId, otherUser: {uid, ...profile}, lastMessage, lastMessageTime,
    unreadCount}]. *)
Record ChatListEntry := mkChatListEntry {
  entryChatId : string;
  entryOtherUid : option string;
  entryOtherProfile : Profile;
  entryLastMessage : string;
  entryLastMessageTime : Z;
  entryUnreadCount : Z
}.

(** The comparator [timeB - timeA] sorts by descending time: the stable
    order by the negated time. *)
Definition getUserChats (cur : option string) (st : Store)
  : list ChatListEntry :=
  match truthyId cur with
  | None => []
  | Some currentUserId =>
      sortBy (λ e, (- entryLastMessageTime e)%Z)
        (omap (λ kv,
                 match users st !! interpolate (otherUserId kv.2) with
                 | Some p =>
                     Some (mkChatListEntry kv.1 (otherUserId kv.2) p
                             (default "" (lastMessage kv.2))
                             (orZero (lastMessageTime kv.2))
                             (orZero (unreadCount kv.2)))
                 | None => None
                 end)
              (childrenStr currentUserId (userChats st)))
  end.

Definition getTotalUnreadCount (cur : option string) (st : Store) : Z :=
  match truthyId cur with
  | None => 0%Z
  | Some currentUserId =>
      foldl (λ totalUnread kv, (totalUnread + orZero (unreadCount kv.2))%Z) 0%Z
            (childrenStr currentUserId (userChats st))
  end.

Record ChatStatistics := mkChatStatistics {
  totalMessages : nat;
  messagesSent : nat;
  messagesReceived : nat;
  firstMessageDate : option Z;
  lastMessageDate : option Z
}.

Definition getChatStatistics (cur : option string) (otherUserId : string)
    (st : Store) : ChatStatistics :=
  let msgs := getChatMessages cur otherUserId 1000 st in
  mkChatStatistics
    (length msgs)
    (length (filter (λ m : nat * Message, Some (senderId m.2) = cur) msgs))
    (length (filter (λ m : nat * Message, senderId m.2 = otherUserId) msgs))
    (timestamp ∘ snd <$> head msgs)
    (timestamp ∘ snd <$> last msgs).

(** ** The chat handlers of the application *)

(** [handleSendMessage]: [currentChatUser] is the identifier of the open
    chat, [inputValue] the content of the input field; the result is the
    alert shown, if any. *)
Definition handleSendMessage (cur currentChatUser : option string)
    (inputValue : string) (now : Z) (st : Store) : option string * Store :=
  match currentChatUser with
  | None => (None, st)
  | Some chatUid =>
      let message := trim inputValue in
      if decide (message = "") then (None, st) else
      match sendMessage cur chatUid message now st with
      | (Throw _, st') =>
          (Some "Failed to send message. Please try again.", st')
      | (Ok _, st') => (None, (markMessagesAsRead cur chatUid st').2)
      end
  end.

(** [openChat], as far as the database goes: [startChatWithFriend], then
    [markMessagesAsRead]. *)
Definition openChat (cur : option string) (userUid : string) (now : Z)
    (st : Store) : option string * Store :=
  match startChatWithFriend cur userUid now st with
  | (inl _, st') => (Some "Failed to open chat", st')
  | (inr _, st') => (None, (markMessagesAsRead cur userUid st').2)
  end.

(** ** notifications.js, continued *)

Definition getUnreadNotificationsCount (cur : option string) (st : Store)
  : nat :=
  match truthyId cur with
  | None => 0
  | Some currentUserId =>
      length (filter (λ kv : nat * Notification, nread kv.2 = false)
                     (childrenNat currentUserId (notifications st)))
  end.

(** An element of the list of [getUserNotifications]:
    [{id, ...notification}], with [senderProfile] set from the profile of
    [notification.from] when that identifier is not empty. *)
Record NotificationEntry := mkNotificationEntry {
  entryId : nat;
  entryNotification : Notification;
  senderProfile : option Profile
}.

Definition getUserNotifications (cur : option string) (limit : Z)
    (st : Store) : list NotificationEntry :=
  match truthyId cur with
  | None => []
  | Some currentUserId =>
      match limitToLast limit (childrenNat currentUserId (notifications st)) with
      | None => []
      | Some snapshot =>
          sortBy (λ e, (- orZero (Some (ncreatedAt (entryNotification e))))%Z)
            ((λ kv : nat * Notification,
                mkNotificationEntry kv.1 kv.2
                  (if decide (nfrom (ndata kv.2) = "") then None
                   else users st !! nfrom (ndata kv.2)))
               <$> snapshot)
      end
  end.

Definition deleteNotification (cur : option string) (notificationId : nat)
    (st : Store) : Store :=
  match truthyId cur with
  | None => st
  | Some currentUserId =>
      withNotifications
        (delete (currentUserId, notificationId) (notifications st)) st
  end.

(** [remove(ref(database, `notifications/${currentUserId}`))] *)
Definition clearAllNotifications (cur : option string) (st : Store) : Store :=
  match truthyId cur with
  | None => st
  | Some currentUserId =>
      withNotifications
        (filter (λ kv, kv.1.1 ≠ currentUserId) (notifications st)) st
  end.

(** [notification.senderProfile?.displayName || 'Someone'] and the
    [switch] over the notification types. *)
Definition formatNotificationMessage (e : NotificationEntry) : string :=
  let senderName :=
    match senderProfile e with
    | Some p =>
        match displayName p with
        | Some d => if decide (d = "") then "Someone" else d
        | None => "Someone"
        end
    | None => "Someone"
    end in
  match ntype (ndata (entryNotification e)) with
  | FRIEND_REQUEST => senderName ++ " sent you a friend request"
  | FRIEND_REQUEST_ACCEPTED => senderName ++ " accepted your friend request"
  | NEW_MESSAGE => senderName ++ " sent you a message"
  | POST_LIKE => senderName ++ " liked your post"
  | POST_COMMENT => senderName ++ " commented on your post"
  | MENTION => senderName ++ " mentioned you in a post"
  end.

(** [formatTimeAgo(timestamp)] at the clock reading [now], for integer
    times in milliseconds; [Math.floor(x / k)] is [x `div` k]. *)
Definition formatTimeAgo (timestamp now : Z) : string :=
  let diff := (now - timestamp)%Z in
  let seconds := (diff `div` 1000)%Z in
  let minutes := (seconds `div` 60)%Z in
  let hours := (minutes `div` 60)%Z in
  let days := (hours `div` 24)%Z in
  let weeks := (days `div` 7)%Z in
  let months := (days `div` 30)%Z in
  let years := (days `div` 365)%Z in
  let ago (n : Z) (unit : string) :=
    pretty n +:+ " " +:+ unit +:+ (if (1 <? n)%Z then "s" else "") +:+ " ago" in
  if (0 <? years)%Z then ago years "year"
  else if (0 <? months)%Z then ago months "month"
  else if (0 <? weeks)%Z then ago weeks "week"
  else if (0 <? days)%Z then ago days "day"
  else if (0 <? hours)%Z then ago hours "hour"
  else if (0 <? minutes)%Z then ago minutes "minute"
  else "Just now".

(** ** database.js, continued *)

(** The object [storeUserData] of auth.js hands to [storeUserProfile], with
    the fields that [Profile] keeps. *)
Record UserData := mkUserData {
  userDataUid : string;
  userDataDisplayName : option string;
  userDataPhotoURL : option string
}.

(** [existingData?.username || null] *)
Definition keptUsername (existingData : option Profile) : option string :=
  match existingData with
  | Some p =>
      match username p with
      | Some n => if decide (n = "") then None else Some n
      | None => None
      end
  | None => None
  end.

Definition storeUserProfile (userData : UserData) : Async Profile :=
  existingData <~ reads (λ st, users st !! userDataUid userData) ;;
  let profileData :=
    mkProfile (userDataDisplayName userData) (userDataPhotoURL userData)
              (keptUsername existingData) in
  writes (λ st,
    mkStore (<[userDataUid userData := profileData]> (users st)) (usernames st)
            (friends st) (friendRequests st) (chats st) (messages st)
            (userChats st) (posts st) (userPosts st) (notifications st)) ;;;
  ret profileData.

Definition checkUsernameAvailability (name : string) (st : Store) : bool :=
  bool_decide (usernames st !! name = None).

(** [setUsername(uid, username)].  [uid] is [null] when
    [handleSaveUsername] calls it with nobody signed in: the profile is
    then updated at the path [users/null], and the index entry is [set] to
    [null], which stores nothing. *)
Definition setUsername (uid : option string) (name : string) : Task bool :=
  isAvailable <<~ fromAsync (reads (checkUsernameAvailability name)) ;;
  if negb isAvailable then fail_ "Username is already taken" else
  _ <<~ fromAsync (writes (λ st,
          let userUid := interpolateNull uid in
          let existing := default (mkProfile None None None)
                            (users st !! userUid) in
          mkStore (<[userUid := mkProfile (displayName existing)
                                  (photoURL existing) (Some name)]> (users st))
                  (usernames st)
                  (friends st) (friendRequests st) (chats st) (messages st)
                  (userChats st) (posts st) (userPosts st) (notifications st))) ;;
  _ <<~ fromAsync (writes (λ st,
          mkStore (users st)
                  (match uid with
                   | Some userUid => <[name := userUid]> (usernames st)
                   | None => delete name (usernames st)
                   end)
                  (friends st) (friendRequests st) (chats st) (messages st)
                  (userChats st) (posts st) (userPosts st) (notifications st))) ;;
  done_ true.

(** [userProfile?.username || null] *)
Definition getCurrentUsername (userUid : string) (st : Store) : option string :=
  keptUsername (users st !! userUid).

(** [/^[a-zA-Z0-9_]+$/.test(username)] *)
Definition isWordChar (c : ascii) : bool :=
  let n := nat_of_ascii c in
  ((Nat.leb 97 n && Nat.leb n 122) || (Nat.leb 65 n && Nat.leb n 90)
   || (Nat.leb 48 n && Nat.leb n 57) || Nat.eqb n 95)%bool.

Definition isWord (s : string) : bool :=
  match s with
  | EmptyString => false
  | _ => forallb isWordChar (list_ascii_of_string s)
  end.

(** [handleSaveUsername]: the alert it shows and the database it leaves. *)
Definition handleSaveUsername (cur : option string) (inputValue : string)
    (st : Store) : string * Store :=
  let name := trim inputValue in
  if decide (name = "") then ("Please enter a username", st)
  else if utf16Length name <? 3
  then ("Username must be at least 3 characters long", st)
  else if negb (isWord name)
  then ("Username can only contain letters, numbers, and underscores", st)
  else if negb (checkUsernameAvailability name st)
  then ("Username is already taken", st)
  else
    match setUsername cur name st with
    | (inr _, st') => ("Username saved successfully!", st')
    | (inl _, st') => ("Failed to save username. Please try again.", st')
    end.

(** ** posts.js, continued *)

(** The children of [posts] that a snapshot lists, in key order. *)
Definition allPostsOf (st : Store) : list (nat * Post) :=
  filter (λ kv : nat * Post, postIsNull kv.2 = false) (entriesNat (posts st)).

Definition postTime (e : nat * Post) : Z := orZero (createdAt e.2).

(** [userIds.includes(post.authorId)], the author possibly absent. *)
Definition includesAuthor (userIds : list string) (p : Post) : bool :=
  match authorId p with
  | Some a => bool_decide (a ∈ userIds)
  | None => false
  end.

(** What [getFeedPosts] makes of the posts [allPosts] that the snapshot
    of [posts] holds, in the order in which [Object.keys] lists them: the
    filter, the sort with the comparator [timeB - timeA], and the slice. *)
Definition feedOf (userIds : list string) (allPosts : list (nat * Post))
    (limit : Z) : list (nat * Post) :=
  let feedPosts :=
    filter (λ kv : nat * Post, includesAuthor userIds kv.2 = true) allPosts in
  sliceFromZero (sortBy (λ e, (- postTime e)%Z) feedPosts) limit.

Definition getFeedPosts (cur : option string) (limit : Z) (st : Store)
  : list (nat * Post) :=
  match truthyId cur with
  | None => []
  | Some currentUserId =>
      let friendIds := friendUid <$> getFriendsList cur st in
      let userIds := currentUserId :: friendIds in
      feedOf userIds (allPostsOf st) limit
  end.

(** What [getUserPosts] makes of the identifiers [userPostIds] that the
    snapshot of [userPosts/{userId}] holds, in the order in which
    [Object.keys] lists them. *)
Definition userPostsOf (userPostIds : list nat) (limit : Z) (st : Store)
  : list (nat * Post) :=
  let found :=
    omap (λ postId, match posts st !! postId with
                    | Some p => if postIsNull p then None else Some (postId, p)
                    | None => None
                    end) userPostIds in
  sliceFromZero (sortBy (λ e, (- postTime e)%Z) found) limit.

Definition getUserPosts (userId : string) (limit : Z) (st : Store)
  : list (nat * Post) :=
  userPostsOf (childrenNat userId (userPosts st)).*1 limit st.

Definition getPostById (postId : nat) (st : Store) : option (nat * Post) :=
  match posts st !! postId with
  | Some p => if postIsNull p then None else Some (postId, p)
  | None => None
  end.

Definition getPostComments (postId : nat) (st : Store) : list (nat * Comment) :=
  sortBy (λ e : nat * Comment, orZero (Some (commentCreatedAt e.2)))
         (entriesNat (comments (default emptyPost (posts st !! postId)))).

Definition deletePost (cur : option string) (postId : nat) : Task bool :=
  currentUserId <<~ fromAsync (requireUser cur) ;;
  postSnapshot <<~ fromAsync (getPost postId) ;;
  match postSnapshot with
  | None => fail_ "Post not found"
  | Some post =>
      if decide (authorId post = Some currentUserId) then
        _ <<~ fromAsync (writes (λ st, withPosts (delete postId (posts st)) st)) ;;
        _ <<~ fromAsync (writes (λ st,
                withUserPosts (delete (currentUserId, postId) (userPosts st)) st)) ;;
        done_ true
      else fail_ "Can only delete your own posts"
  end.

(** [userId || getCurrentUserId()], then the value at
    [posts/{postId}/likes/{targetUserId}]. *)
Definition hasUserLikedPost (cur : option string) (postId : nat)
    (userId : option string) (st : Store) : bool :=
  match truthyId (match truthyId userId with
                  | Some u => Some u
                  | None => cur
                  end) with
  | None => false
  | Some targetUserId =>
      bool_decide (targetUserId ∈ likes (default emptyPost (posts st !! postId)))
  end.

Definition getPostLikes (postId : nat) (st : Store) : list UserEntry :=
  omap (λ userId, match users st !! userId with
                  | Some p => Some (mkUserEntry userId p)
                  | None => None
                  end)
       (merge_sort strLe
          (elements (likes (default emptyPost (posts st !! postId))))).

(** ** storage.js: validation *)

(** The fields of a [File] that [validateImageFile] reads. *)
Record ImageFile := mkImageFile {
  fileType : string;
  fileSize : Z
}.

Definition maxSize : Z := 5 * 1024 * 1024.

Definition supportedFormats : list string :=
  ["image/jpeg"; "image/jpg"; "image/png"; "image/gif"; "image/webp"].

(** The [errors] array of [validateImageFile]; [isValid] is its being
    empty. *)
Definition validateImageFile (file : ImageFile) : list string :=
  (if String.prefix "image/" (fileType file) then []
   else ["File must be an image"])
  ++ (if (maxSize <? fileSize file)%Z then ["File size must be less than 5MB"]
      else [])
  ++ (if bool_decide (fileType file ∈ supportedFormats) then []
      else ["Supported formats: JPEG, PNG, GIF, WebP"]).

Definition isValid (file : ImageFile) : bool :=
  bool_decide (validateImageFile file = []).

(** ** Further notions *)

(** The identifier contains the separator of [generateChatId]. *)
Fixpoint hasUnderscore (s : string) : bool :=
  match s with
  | EmptyString => false
  | String c s' => (Ascii.eqb c "_" || hasUnderscore s')%bool
  end.

(** The sum that the loop of [getTotalUnreadCount] accumulates. *)
Definition sumUnread (l : list (string * UserChat)) : Z :=
  foldr (λ kv acc, (orZero (unreadCount kv.2) + acc)%Z) 0%Z l.


(** Every stored profile has a display name that is not empty. *)
Definition displayNamesSet (st : Store) : Prop :=
  ∀ u p, users st !! u = Some p → ∃ d, displayName p = Some d ∧ d ≠ "".

(** The message stored with each notification that is in [st'] and not in
    [st] is the text [formatNotificationMessage] renders for the entry
    that [getUserNotifications] builds from it. *)
Definition newMessagesFormatted (st st' : Store) : Prop :=
  ∀ owner k n,
    notifications st' !! (owner, k) = Some n →
    notifications st !! (owner, k) = None →
    nmessage (ndata n)
    = formatNotificationMessage
        (mkNotificationEntry k n
           (if decide (nfrom (ndata n) = "") then None
            else users st' !! nfrom (ndata n))).

(** ** Example databases, continued *)

(** [u3], who was [carol], has taken the username [caz]. *)
Definition carolRenamed : Store :=
  (setUsername (Some "u3") "caz" threeUsers).2.

(** * Properties *)

(** ** Key order and children *)

Lemma nameLe_total a b : nameLe a b = true ∨ nameLe b a = true.
Proof.
  unfold nameLe.
  destruct (tryParseInt a) as [x|], (tryParseInt b) as [y|]; auto.
  - destruct (Z.eqb_spec x y) as [->|Hne].
    + rewrite Z.eqb_refl.
      destruct (Nat.leb_spec (String.length a) (String.length b));
        [by left|right]; apply Nat.leb_le; lia.
    + destruct (Z.eqb_spec y x); [congruence|].
      destruct (Z.ltb_spec x y); [by left|right]. apply Z.ltb_lt. lia.
  - apply String.leb_total.
Qed.

#[global] Instance strLe_total : Total strLe.
Proof.
  intros a b. unfold strLe, keyLe.
  destruct (arrayIndex a) as [x|], (arrayIndex b) as [y|]; auto.
  - destruct (N.leb_spec x y); [by left|right]. apply N.leb_le. lia.
  - apply nameLe_total.
Qed.

#[global] Instance byStrKey_total {V} : Total (@byStrKey V).
Proof. intros a b. apply strLe_total. Qed.

#[global] Instance byNatKey_total {V} : Total (@byNatKey V).
Proof. intros a b. unfold byNatKey. lia. Qed.

#[global] Instance byNatKey_trans {V} : Transitive (@byNatKey V).
Proof. intros a b c. unfold byNatKey. lia. Qed.

Section ChildrenFacts.
Context `{Countable K1} `{Countable K2} {V : Type}.
Implicit Types (m : gmap (K1 * K2) V).

Lemma elem_of_childEntries p m k v :
  (k, v) ∈ childEntries p m ↔ m !! (p, k) = Some v.
Proof.
  unfold childEntries. rewrite list_elem_of_omap. split.
  - intros [[[a b] w] [Hin Hf]]. simpl in Hf.
    destruct (decide (a = p)) as [->|]; [|done].
    injection Hf as -> ->. by apply elem_of_map_to_list.
  - intros Hm. exists ((p, k), v). split.
    + by apply elem_of_map_to_list.
    + simpl. by rewrite decide_True.
Qed.

Lemma NoDup_childEntries_keys p m : NoDup (childEntries p m).*1.
Proof.
  unfold childEntries.
  pose proof (NoDup_fst_map_to_list m) as Hnd.
  induction (map_to_list m) as [|[[a b] w] l IH]; simpl; [constructor|].
  apply NoDup_cons in Hnd as [Hnotin Hnd].
  destruct (decide (a = p)) as [->|]; simpl; [|by apply IH].
  constructor; [|by apply IH].
  intros Hin. apply Hnotin.
  apply list_elem_of_fmap in Hin as [[k v] [Hk Hin]]. simpl in Hk. subst k.
  apply list_elem_of_omap in Hin as [[[a' b'] w'] [Hin Hf]]. simpl in Hf.
  destruct (decide (a' = p)) as [->|]; [|done].
  injection Hf as -> ->.
  apply list_elem_of_fmap. by exists ((p, b), v).
Qed.
End ChildrenFacts.

Lemma pushKey_gt keys k : k ∈ keys → k < pushKey keys.
Proof. intros Hk. apply max_list_elem_of_le in Hk. unfold pushKey. lia. Qed.

Lemma elem_of_childrenStr `{Countable K1} {V} (p : K1)
    (m : gmap (K1 * string) V) k v :
  (k, v) ∈ childrenStr p m ↔ m !! (p, k) = Some v.
Proof.
  unfold childrenStr. rewrite merge_sort_Permutation.
  apply elem_of_childEntries.
Qed.

Lemma elem_of_childrenNat `{Countable K1} {V} (p : K1)
    (m : gmap (K1 * nat) V) k v :
  (k, v) ∈ childrenNat p m ↔ m !! (p, k) = Some v.
Proof.
  unfold childrenNat. rewrite merge_sort_Permutation.
  apply elem_of_childEntries.
Qed.

Lemma NoDup_childrenStr `{Countable K1} {V} (p : K1)
    (m : gmap (K1 * string) V) :
  NoDup (childrenStr p m).*1.
Proof.
  unfold childrenStr. rewrite merge_sort_Permutation.
  apply NoDup_childEntries_keys.
Qed.

Lemma elem_of_entriesStr {V} (m : gmap string V) k v :
  (k, v) ∈ entriesStr m ↔ m !! k = Some v.
Proof.
  unfold entriesStr. rewrite merge_sort_Permutation.
  apply elem_of_map_to_list.
Qed.

Lemma elem_of_entriesNat {V} (m : gmap nat V) k v :
  (k, v) ∈ entriesNat m ↔ m !! k = Some v.
Proof.
  unfold entriesNat. rewrite merge_sort_Permutation.
  apply elem_of_map_to_list.
Qed.

Lemma pushKey_childrenNat_fresh `{Countable K1} {V} (p : K1)
    (m : gmap (K1 * nat) V) :
  m !! (p, pushKey (childrenNat p m).*1) = None.
Proof.
  destruct (m !! (p, pushKey (childrenNat p m).*1)) as [v|] eqn:E; [|done].
  apply elem_of_childrenNat in E.
  assert (pushKey (childrenNat p m).*1 ∈ (childrenNat p m).*1) as Hin.
  { apply list_elem_of_fmap. by eexists (_, v). }
  apply pushKey_gt in Hin. lia.
Qed.

Lemma pushKey_entriesNat_fresh {V} (m : gmap nat V) :
  m !! pushKey (entriesNat m).*1 = None.
Proof.
  destruct (m !! pushKey (entriesNat m).*1) as [v|] eqn:E; [|done].
  apply elem_of_entriesNat in E.
  assert (pushKey (entriesNat m).*1 ∈ (entriesNat m).*1) as Hin.
  { apply list_elem_of_fmap. by eexists (_, v). }
  apply pushKey_gt in Hin. lia.
Qed.

(** ** Running the operations *)

Arguments truthyId : simpl never.

Lemma truthyId_Some u : u ≠ "" → truthyId (Some u) = Some u.
Proof. intros Hu. unfold truthyId. by rewrite decide_False. Qed.

Lemma truthyId_inv cur u : truthyId cur = Some u → cur = Some u ∧ u ≠ "".
Proof.
  unfold truthyId. destruct cur as [v|]; [|done].
  destruct (decide (v = "")); [done|]. by intros [= ->].
Qed.

Ltac async :=
  unfold requireUser, nonNull, defined, getUserByUsername, getUserProfile,
    areFriends, getUnreadCount, updateUserChat, getPost, updatePost,
    addNotification, addNotificationWith, bind, ret, throw, reads, writes in *;
  simpl in *.

(** ** The social graph engine *)

Lemma mirrored_insert_both st st' a b e1 e2 :
  friends st' = <[(b, a) := e2]> (<[(a, b) := e1]> (friends st)) →
  mirrored st → mirrored st'.
Proof.
  intros Hf Hm x y. rewrite Hf.
  rewrite !lookup_insert. specialize (Hm x y).
  repeat case_decide; simplify_eq; try done; by split; eauto.
Qed.

Lemma mirrored_delete_both st st' a b :
  friends st' = delete (b, a) (delete (a, b) (friends st)) →
  mirrored st → mirrored st'.
Proof.
  intros Hf Hm x y. rewrite Hf.
  rewrite !lookup_delete. specialize (Hm x y).
  repeat case_decide; simplify_eq; try done;
    split; intros [? ?]; done.
Qed.

(** C1.  A completed [acceptFriendRequest] by [cur] for [other] leaves
    [areFriends] true in both directions; [acceptFriendRequest] and
    [removeFriend] preserve the mirrored friend-edge invariant, whatever
    their outcome; and under that invariant [areFriends] is symmetric. *)
Theorem friend_edges_mirrored (st : Store) (cur : option string)
    (other : string) (now : Z) :
  let accepted := acceptFriendRequest cur other now st in
  let removed := removeFriend cur other st in
  (accepted.1 = Ok true →
     ∃ u, truthyId cur = Some u
          ∧ (areFriends u other accepted.2).1 = Ok true
          ∧ (areFriends other u accepted.2).1 = Ok true)
  ∧ (mirrored st → mirrored accepted.2)
  ∧ (mirrored st → mirrored removed.2)
  ∧ (mirrored st →
       ∀ a b, (areFriends a b st).1 = (areFriends b a st).1).
Proof.
  simpl. unfold acceptFriendRequest, removeFriend. async.
  destruct (truthyId cur) as [u|] eqn:Hu; simpl.
  - split; [|split; [|split]].
    + intros _. exists u. split; [done|].
      destruct (users st !! u); simpl;
        rewrite !bool_decide_eq_true_2; try done;
        rewrite !lookup_insert; repeat case_decide; try congruence; eauto.
    + intros Hm.
      destruct (users st !! u); simpl;
        by eapply mirrored_insert_both; [|exact Hm].
    + intros Hm. by eapply mirrored_delete_both; [|exact Hm].
    + intros Hm a b. f_equal. apply bool_decide_ext, Hm.
  - split; [done|]. split; [done|]. split; [done|].
    intros Hm a b. f_equal. apply bool_decide_ext, Hm.
Qed.

Lemma friend_edges_mirrored_witness :
  (areFriends "u2" "u1" friendsMade).1 = Ok true
  ∧ (areFriends "u1" "u2" friendsMade).1 = Ok true
  ∧ mirrored friendsMade
  ∧ mirrored (removeFriend (Some "u2") "u1" requestSent).2.
Proof.
  assert (mirrored requestSent) as Hm.
  { intros a b. change (friends requestSent) with (∅ : gmap (string * string) FriendEdge).
    by rewrite !lookup_empty. }
  destruct (friend_edges_mirrored requestSent (Some "u2") "u1" 101)
    as (Hacc & Hmir & Hrem & _).
  destruct (Hacc eq_refl) as (u & Hu & H1 & H2).
  injection Hu as <-.
  exact (conj H1 (conj H2 (conj (Hmir Hm) (Hrem Hm)))).
Defined.

(** C4, as the code has it.  [acceptFriendRequest] never looks for the
    pending request: for a signed-in owner with a stored profile it
    succeeds on every database, removes [friendRequests/owner/from] if it
    is there and leaves the other requests alone, writes both mirrored
    edges, and enqueues a [friend_request_accepted] notification from the
    owner under a new key of [notifications/from]. *)
Theorem accept_writes_unconditionally (st : Store) (owner from : string)
    (now : Z) (p : Profile) :
  owner ≠ "" →
  users st !! owner = Some p →
  let accepted := acceptFriendRequest (Some owner) from now st in
  let key := pushKey (childrenNat from (notifications st)).*1 in
  accepted.1 = Ok true
  ∧ friendRequests accepted.2 !! (owner, from) = None
  ∧ (∀ a b, (a, b) ≠ (owner, from) →
       friendRequests accepted.2 !! (a, b) = friendRequests st !! (a, b))
  ∧ friends accepted.2 !! (owner, from) = Some (mkFriendEdge now "accepted")
  ∧ friends accepted.2 !! (from, owner) = Some (mkFriendEdge now "accepted")
  ∧ notifications st !! (from, key) = None
  ∧ notifications accepted.2 !! (from, key)
    = Some (mkNotification
              (mkNotificationData FRIEND_REQUEST_ACCEPTED owner
                 (interpolate (displayName p) ++ " accepted your friend request")
                 now None None)
              key false now).
Proof.
  intros Howner Hp. simpl.
  unfold acceptFriendRequest. async.
  rewrite (truthyId_Some _ Howner). simpl. rewrite Hp. simpl.
  split; [done|].
  split; [by rewrite lookup_delete_eq|].
  split; [by intros a b Hab; rewrite lookup_delete_ne|].
  split.
  { rewrite lookup_insert. case_decide; [by simplify_eq|].
    by rewrite lookup_insert_eq. }
  split; [by rewrite lookup_insert_eq|].
  split; [apply pushKey_childrenNat_fresh|].
  by rewrite lookup_insert_eq.
Qed.

Lemma accept_writes_unconditionally_witness :
  (acceptFriendRequest (Some "u2") "u1" 101 requestSent).1 = Ok true
  ∧ friendRequests friendsMade !! ("u2", "u1") = None
  ∧ friends friendsMade !! ("u2", "u1") = Some (mkFriendEdge 101 "accepted")
  ∧ friends friendsMade !! ("u1", "u2") = Some (mkFriendEdge 101 "accepted").
Proof.
  assert ("u2" ≠ "") as Hne by done.
  assert (users requestSent !! "u2" = Some bob) as Hp by reflexivity.
  destruct (accept_writes_unconditionally requestSent "u2" "u1" 101 bob Hne Hp)
    as (H1 & H2 & _ & H3 & H4 & _).
  exact (conj H1 (conj H2 (conj H3 H4))).
Defined.

(** C4 fails as stated: with no pending request from [u1] to [u2],
    [acceptFriendRequest] by [u2] still succeeds, writes both edges and
    notifies [u1]. *)
Lemma accept_without_request_counterexample :
  friendRequests threeUsers !! ("u2", "u1") = None
  ∧ (acceptFriendRequest (Some "u2") "u1" 101 threeUsers).1 = Ok true
  ∧ friends (acceptFriendRequest (Some "u2") "u1" 101 threeUsers).2 !! ("u2", "u1")
    = Some (mkFriendEdge 101 "accepted")
  ∧ friends (acceptFriendRequest (Some "u2") "u1" 101 threeUsers).2 !! ("u1", "u2")
    = Some (mkFriendEdge 101 "accepted")
  ∧ notifications (acceptFriendRequest (Some "u2") "u1" 101 threeUsers).2 !! ("u1", 1)
    = Some (mkNotification
              (mkNotificationData FRIEND_REQUEST_ACCEPTED "u2"
                 "Bob accepted your friend request" 101 None None)
              1 false 101).
Proof. vm_compute. done. Qed.

(** On a database whose index and profiles agree on a username, the
    target of [sendFriendRequest] is the identifier the index holds. *)
Lemma resolveUsername_index st name target p :
  usernames st !! name = Some target →
  users st !! target = Some p →
  username p = Some name →
  (∀ other q, users st !! other = Some q → username q = Some name →
              other = target) →
  resolveUsername st name = Some target.
Proof.
  intros Hindex Hp Hname Hunique.
  unfold resolveUsername, findUidByUsername. rewrite Hindex, Hp.
  destruct (List.find _ _) as [[k q]|] eqn:Hfind; simpl.
  - apply List.find_some in Hfind as [Hin Hq].
    apply list_elem_of_In, elem_of_entriesStr in Hin.
    apply bool_decide_eq_true in Hq. simpl in Hq.
    f_equal. by eapply Hunique.
  - exfalso.
    assert (In (target, p) (entriesStr (users st))) as Hin.
    { by apply list_elem_of_In, elem_of_entriesStr. }
    apply (List.find_none _ _ Hfind) in Hin. simpl in Hin.
    apply bool_decide_eq_false in Hin. done.
Qed.

Lemma resolveUsername_unindexed st name :
  usernames st !! name = None → resolveUsername st name = None.
Proof. intros Hindex. unfold resolveUsername. by rewrite Hindex. Qed.

Lemma findUidByUsername_carries us name target :
  findUidByUsername us name = Some target →
  ∃ p, us !! target = Some p ∧ username p = Some name.
Proof.
  unfold findUidByUsername.
  destruct (List.find _ _) as [[k q]|] eqn:Hfind; simpl; [|done].
  intros [= <-]. apply List.find_some in Hfind as [Hin Hq].
  apply list_elem_of_In, elem_of_entriesStr in Hin.
  apply bool_decide_eq_true in Hq. by exists q.
Qed.

Lemma findUidByUsername_None us name :
  findUidByUsername us name = None →
  ∀ uid p, us !! uid = Some p → username p ≠ Some name.
Proof.
  unfold findUidByUsername.
  destruct (List.find _ _) as [[k q]|] eqn:Hfind; simpl; [done|].
  intros _ uid p Hp.
  assert (In (uid, p) (entriesStr us)) as Hin.
  { by apply list_elem_of_In, elem_of_entriesStr. }
  apply (List.find_none _ _ Hfind) in Hin. simpl in Hin.
  by apply bool_decide_eq_false in Hin.
Qed.

(** The outcome of [sendFriendRequest] in terms of the target its code
    finds. *)
Lemma sendFriendRequest_by_target st caller name now :
  caller ≠ "" →
  match resolveUsername st name with
  | None => sendFriendRequest (Some caller) name now st = (Throw UserNotFound, st)
  | Some target =>
      requestOutcome st caller target now
        (sendFriendRequest (Some caller) name now st)
  end.
Proof.
  intros Hcaller.
  unfold sendFriendRequest, resolveUsername, requestOutcome. async.
  rewrite (truthyId_Some _ Hcaller). simpl.
  destruct (usernames st !! name) as [indexed|]; simpl; [|done].
  destruct (users st !! indexed) as [q|]; simpl; [|done].
  destruct (findUidByUsername (users st) name) as [target|]; simpl; [|done].
  destruct (decide (target = caller)) as [->|Hne]; simpl; [done|].
  destruct (friends st !! (caller, target)) as [e|] eqn:He; simpl.
  { first [done | rewrite decide_True; [done|by eexists]]. }
  try (rewrite decide_False; [|by intros [? ?]]).
  destruct (friendRequests st !! (target, caller)) as [r|] eqn:Hr; simpl.
  { first [done | rewrite decide_True; [done|by eexists]]. }
  try (rewrite decide_False; [|by intros [? ?]]).
  destruct (friendRequests st !! (caller, target)) as [r'|] eqn:Hr'; simpl.
  { first [done | rewrite decide_True; [done|by eexists]]. }
  try (rewrite decide_False; [|by intros [? ?]]).
  split.
  - destruct (users st !! caller); simpl; by rewrite lookup_insert_eq.
  - intros p ->. simpl.
    split; [done|]. eexists. split; [apply pushKey_childrenNat_fresh|].
    by rewrite lookup_insert_eq.
Qed.

Lemma validKey_nonempty s : validKey s = true → s ≠ "".
Proof. unfold validKey. intros Hs ->. done. Qed.

(** C5, as the code has it.  For a signed-in caller and a username that
    are valid keys, [sendFriendRequest] fails with 'User not found',
    writing nothing, when the index [usernames] has no entry for the name,
    when the identifier it holds is a valid key without a stored profile,
    and also when no stored profile carries the name: an entry of the
    index does not resolve by itself.  Otherwise the target is a user
    whose profile carries the name; it is the identifier the index holds
    when that user is the one carrier of the name.  With the target the checks run in the order of the claim,
    'Cannot send friend request to yourself', 'Already friends with this
    user', 'Friend request already sent', 'This user has already sent you
    a friend request', each failing before any write; only when none
    holds is the request written, and then, the caller having a profile,
    the call succeeds with a [friend_request] notification under a new key
    of [notifications/target]. *)
Theorem sendFriendRequest_outcome (st : Store) (caller name : string) (now : Z) :
  validKey caller = true →
  validKey name = true →
  let sent := sendFriendRequest (Some caller) name now st in
  ((usernames st !! name = None
    ∨ (∃ indexed, usernames st !! name = Some indexed
                  ∧ validKey indexed = true
                  ∧ users st !! indexed = None)
    ∨ (∀ uid, ¬ carries st name uid)) →
   sent = (Throw UserNotFound, st))
  ∧ (∀ indexed,
       usernames st !! name = Some indexed →
       is_Some (users st !! indexed) →
       (∃ uid, carries st name uid) →
       ∃ target, carries st name target
                 ∧ requestOutcome st caller target now sent)
  ∧ (∀ target,
       usernames st !! name = Some target →
       carries st name target →
       (∀ other, carries st name other → other = target) →
       requestOutcome st caller target now sent).
Proof.
  intros Hcaller%validKey_nonempty _. simpl.
  pose proof (sendFriendRequest_by_target st caller name now Hcaller) as Hsent.
  split; [|split].
  - intros Hnone.
    assert (resolveUsername st name = None) as Hres; [|by rewrite Hres in Hsent].
    unfold resolveUsername.
    destruct Hnone as [->|[(indexed & -> & _ & ->)|Hnobody]]; [done..|].
    destruct (usernames st !! name) as [indexed|]; [|done].
    destruct (users st !! indexed); [|done].
    destruct (findUidByUsername (users st) name) as [target|] eqn:Hfind;
      [|done].
    apply findUidByUsername_carries in Hfind. by apply Hnobody in Hfind.
  - intros indexed Hindexed [q Hq] (uid & p & Hp & Hname).
    unfold resolveUsername in Hsent. rewrite Hindexed, Hq in Hsent.
    destruct (findUidByUsername (users st) name) as [target|] eqn:Hfind.
    + exists target. split; [|done].
      by apply findUidByUsername_carries in Hfind.
    + by apply (findUidByUsername_None _ _ Hfind) in Hp.
  - intros target Hindexed (p & Hp & Hname) Hunique.
    rewrite (resolveUsername_index st name target p) in Hsent; try done.
    intros other q Hq Hn. apply Hunique. by exists q.
Qed.

Lemma sendFriendRequest_outcome_witness :
  sendFriendRequest (Some "u1") "dave" 102 requestSent
  = (Throw UserNotFound, requestSent)
  ∧ sendFriendRequest (Some "u1") "bob" 102 requestSent
    = (Throw RequestAlreadySent, requestSent)
  ∧ sendFriendRequest (Some "u1") "alice" 102 requestSent
    = (Throw SelfRequest, requestSent)
  ∧ sendFriendRequest (Some "u1") "bob" 102 friendsMade
    = (Throw AlreadyFriends, friendsMade).
Proof.
  assert (∀ st name holder,
            users st = users threeUsers →
            usernames threeUsers !! name = Some holder →
            ∀ other, carries st name other → other = holder) as Hone.
  { intros st name holder Hst Hholder other (p & Hp & Hname).
    rewrite Hst in Hp. unfold threeUsers in Hp, Hholder. simpl in Hp, Hholder.
    rewrite !lookup_insert in Hp. rewrite !lookup_insert in Hholder.
    repeat case_decide; simplify_eq; simpl in *; simplify_eq; done. }
  assert (validKey "u1" = true) as Hu1 by reflexivity.
  assert (users requestSent = users threeUsers) as Hsent
    by (vm_compute; reflexivity).
  assert (users friendsMade = users threeUsers) as Hmade
    by (vm_compute; reflexivity).
  assert (usernames requestSent !! "dave" = None) as Hdave
    by (vm_compute; reflexivity).
  assert (usernames requestSent !! "bob" = Some "u2") as Hbob
    by (vm_compute; reflexivity).
  assert (usernames requestSent !! "alice" = Some "u1") as Halice
    by (vm_compute; reflexivity).
  assert (usernames friendsMade !! "bob" = Some "u2") as Hbob'
    by (vm_compute; reflexivity).
  assert (carries requestSent "bob" "u2") as Hcbob
    by (exists bob; split; vm_compute; reflexivity).
  assert (carries requestSent "alice" "u1") as Hcalice
    by (exists alice; split; vm_compute; reflexivity).
  assert (carries friendsMade "bob" "u2") as Hcbob'
    by (exists bob; split; vm_compute; reflexivity).
  destruct (sendFriendRequest_outcome requestSent "u1" "dave" 102 Hu1 eq_refl)
    as (H1 & _ & _).
  destruct (sendFriendRequest_outcome requestSent "u1" "bob" 102 Hu1 eq_refl)
    as (_ & _ & H2).
  destruct (sendFriendRequest_outcome requestSent "u1" "alice" 102 Hu1 eq_refl)
    as (_ & _ & H3).
  destruct (sendFriendRequest_outcome friendsMade "u1" "bob" 102 Hu1 eq_refl)
    as (_ & _ & H4).
  specialize (H1 (or_introl Hdave)).
  specialize (H2 "u2" Hbob Hcbob (Hone _ "bob" "u2" Hsent eq_refl)).
  specialize (H3 "u1" Halice Hcalice (Hone _ "alice" "u1" Hsent eq_refl)).
  specialize (H4 "u2" Hbob' Hcbob' (Hone _ "bob" "u2" Hmade eq_refl)).
  vm_compute in H2. vm_compute in H3. vm_compute in H4.
  split; [exact H1|].
  split; [vm_compute; exact H2|].
  split; [vm_compute; exact H3|].
  vm_compute; exact H4.
Defined.

(** C5 fails as stated.  [u3], whose username was [carol], has taken the
    username [caz], and [setUsername] has left the entry [usernames/carol]
    behind.  The index resolves [carol] to [u3], a user with a stored
    profile, no edge and no pending request; and [sendFriendRequest] to
    [carol] answers 'User not found', to [u1] and to [u3] itself. *)
Lemma stale_index_counterexample :
  usernames carolRenamed !! "carol" = Some "u3"
  ∧ is_Some (users carolRenamed !! "u3")
  ∧ friends carolRenamed = ∅
  ∧ friendRequests carolRenamed = ∅
  ∧ sendFriendRequest (Some "u1") "carol" 100 carolRenamed
    = (Throw UserNotFound, carolRenamed)
  ∧ sendFriendRequest (Some "u3") "carol" 100 carolRenamed
    = (Throw UserNotFound, carolRenamed).
Proof.
  split; [reflexivity|]. split; [by eexists|].
  split; [reflexivity|]. split; [reflexivity|].
  split; vm_compute; done.
Qed.

(** C9, as the code has it.  For a limit that is not negative,
    [getFriendSuggestions] returns at most [limit] stored users, none of
    them the owner, a user with an edge at [friends/owner/...], or a user
    with a pending request to the owner at [friendRequests/owner/...]. *)
Theorem suggestions_exclusions (st : Store) (owner : string) (limit : Z) :
  (0 ≤ limit)%Z →
  let suggestions := getFriendSuggestions (Some owner) limit st in
  (Z.of_nat (length suggestions) ≤ limit)%Z
  ∧ ∀ user, user ∈ suggestions →
      users st !! uid user = Some (userProfile user)
      ∧ uid user ≠ owner
      ∧ friends st !! (owner, uid user) = None
      ∧ friendRequests st !! (owner, uid user) = None.
Proof.
  intros Hlimit. simpl. unfold getFriendSuggestions.
  destruct (truthyId (Some owner)) as [u|] eqn:Hu; simpl;
    [|split; [lia|by intros ? ?%elem_of_nil]].
  apply truthyId_inv in Hu as [[= <-] Howner].
  unfold sliceFromZero.
  destruct (Z.ltb_spec limit 0) as [|_]; [lia|].
  split; [rewrite length_take; lia|].
  intros user Hin. apply subseteq_take, list_elem_of_filter in Hin.
  destruct Hin as [(Hself & Hfriend & Hpending) Hall].
  unfold getAllUsers in Hall.
  apply list_elem_of_fmap in Hall as [[k p] [-> Hkp]].
  apply elem_of_entriesStr in Hkp. simpl in *.
  split; [done|]. split; [done|].
  unfold getFriendsList, getFriendRequests in *.
  rewrite (truthyId_Some _ Howner) in Hfriend, Hpending.
  split.
  - destruct (friends st !! (owner, k)) as [e|] eqn:He; [|done].
    exfalso. apply Hfriend.
    apply list_elem_of_fmap. exists (mkFriendEntry k p e). split; [done|].
    apply list_elem_of_omap. exists (k, e). split.
    + by apply elem_of_childrenStr.
    + simpl. by rewrite Hkp.
  - destruct (friendRequests st !! (owner, k)) as [r|] eqn:Hr; [|done].
    exfalso. apply Hpending.
    apply list_elem_of_fmap. exists (mkRequestEntry k p r). split; [done|].
    apply list_elem_of_omap. exists (k, r). split.
    + by apply elem_of_childrenStr.
    + simpl. by rewrite Hkp.
Qed.

Lemma suggestions_exclusions_witness :
  (Z.of_nat (length (getFriendSuggestions (Some "u2") 10 requestSent)) ≤ 10)%Z
  ∧ ∀ user, user ∈ getFriendSuggestions (Some "u2") 10 requestSent →
      users requestSent !! uid user = Some (userProfile user)
      ∧ uid user ≠ "u2"
      ∧ friends requestSent !! ("u2", uid user) = None
      ∧ friendRequests requestSent !! ("u2", uid user) = None.
Proof.
  assert (0 ≤ 10)%Z as Hlimit by lia.
  exact (suggestions_exclusions requestSent "u2" 10 Hlimit).
Defined.

(** C9 fails as stated.  [u1] has a pending request to [u2], stored at
    [friendRequests/u2/u1], and [u2] is still suggested to [u1]; and with
    the negative limit [-1] the slice drops only the last candidate, so
    [u2] is offered one user. *)
Lemma suggestions_counterexample :
  friendRequests requestSent !! ("u2", "u1")
  = Some (mkFriendRequest "u1" "u2" 100 "pending")
  ∧ uid <$> getFriendSuggestions (Some "u1") 10 requestSent = ["u2"; "u3"]
  ∧ uid <$> getFriendSuggestions (Some "u2") (-1) threeUsers = ["u1"].
Proof. vm_compute. done. Qed.

(** ** The messaging engine *)

(** C3, as the code has it.  [sendMessage] by a signed-in sender fails
    with 'Can only send messages to friends', writing nothing, when there
    is no edge at [friends/sender/recipient]; when the edge exists the
    message is stored under a new key of the thread whatever its text, and
    the other messages stay as they were. *)
Theorem sendMessage_preconditions (st : Store) (sender recipient body : string)
    (now : Z) :
  sender ≠ "" →
  let sent := sendMessage (Some sender) recipient body now st in
  let chatId := generateChatId sender recipient in
  let key := pushKey (childrenNat chatId (messages st)).*1 in
  (friends st !! (sender, recipient) = None → sent = (Throw NotFriends, st))
  ∧ (is_Some (friends st !! (sender, recipient)) →
       messages st !! (chatId, key) = None
       ∧ messages sent.2 !! (chatId, key)
         = Some (mkMessage sender recipient body now false)
       ∧ ∀ i, i ≠ (chatId, key) → messages sent.2 !! i = messages st !! i).
Proof.
  intros Hsender. simpl. unfold sendMessage, sendMessageWith. async.
  rewrite (truthyId_Some _ Hsender). simpl.
  split.
  - intros ->. rewrite bool_decide_eq_false_2; [done|by intros [? ?]].
  - intros Hedge. rewrite bool_decide_eq_true_2; [|done]. simpl.
    split; [apply pushKey_childrenNat_fresh|].
    destruct (users st !! sender); simpl.
    + split; [by rewrite lookup_insert_eq|].
      intros i Hi. by rewrite lookup_insert_ne.
    + split; [by rewrite lookup_insert_eq|].
      intros i Hi. by rewrite lookup_insert_ne.
Qed.

Lemma sendMessage_preconditions_witness :
  sendMessage (Some "u1") "u3" "hi" 102 friendsMade
  = (Throw NotFriends, friendsMade)
  ∧ messages (sendMessage (Some "u1") "u2" "" 102 friendsMade).2 !! ("u1_u2", 1)
    = Some (mkMessage "u1" "u2" "" 102 false).
Proof.
  assert ("u1" ≠ "") as Hne by done.
  split.
  - apply (sendMessage_preconditions friendsMade "u1" "u3" "hi" 102 Hne).
    reflexivity.
  - apply (sendMessage_preconditions friendsMade "u1" "u2" "" 102 Hne).
    by eexists.
Defined.

(** C3 fails as stated: [u1] and [u2] are friends, and [sendMessage] with
    the empty text, or with spaces only, succeeds and stores the message. *)
Lemma blank_message_counterexample :
  trim "" = "" ∧ trim "   " = ""
  ∧ (sendMessage (Some "u1") "u2" "" 102 friendsMade).1 = Ok 1
  ∧ messages (sendMessage (Some "u1") "u2" "" 102 friendsMade).2 !! ("u1_u2", 1)
    = Some (mkMessage "u1" "u2" "" 102 false)
  ∧ (sendMessage (Some "u1") "u2" "   " 102 friendsMade).1 = Ok 1
  ∧ messages (sendMessage (Some "u1") "u2" "   " 102 friendsMade).2 !! ("u1_u2", 1)
    = Some (mkMessage "u1" "u2" "   " 102 false).
Proof. vm_compute. done. Qed.

(** C6.  After a successful [sendMessage] the unread count of the
    recipient's summary of the thread is one more than before, and the
    unread count of the sender's summary is unchanged; the sender's summary
    is another one than the recipient's, the two being different users. *)
Theorem sendMessage_unread (st : Store) (sender recipient body : string)
    (now : Z) (key : nat) :
  let sent := sendMessage (Some sender) recipient body now st in
  let chatId := generateChatId sender recipient in
  sent.1 = Ok key →
  unreadCountOf recipient chatId sent.2
  = (unreadCountOf recipient chatId st + 1)%Z
  ∧ (sender ≠ recipient →
       unreadCountOf sender chatId sent.2 = unreadCountOf sender chatId st).
Proof.
  simpl. unfold sendMessage, sendMessageWith. async.
  destruct (truthyId (Some sender)) as [u|] eqn:Hu; simpl; [|done].
  apply truthyId_inv in Hu as [[= <-] Hsender].
  destruct (bool_decide (is_Some (friends st !! (sender, recipient))));
    simpl; [|done].
  destruct (users st !! sender); simpl; [|done].
  intros _. unfold unreadCountOf. simpl.
  split.
  - rewrite lookup_insert_eq. simpl.
    rewrite lookup_insert. case_decide; simplify_eq; simpl.
    + by destruct (userChats st !! (recipient, generateChatId recipient recipient)).
    + done.
  - intros Hne. rewrite lookup_insert_ne; [|congruence].
    rewrite lookup_insert_eq. simpl.
    by destruct (userChats st !! (sender, generateChatId sender recipient)).
Qed.

Lemma sendMessage_unread_witness :
  unreadCountOf "u2" "u1_u2" hiSent = 1%Z
  ∧ unreadCountOf "u1" "u1_u2" hiSent = 0%Z.
Proof.
  destruct (sendMessage_unread friendsMade "u1" "u2" "hi" 102 1 eq_refl)
    as [Hrecipient Hsender].
  split; [exact Hrecipient|].
  apply Hsender. done.
Defined.

Lemma markRead_idemp m : markRead (markRead m) = markRead m.
Proof. done. Qed.

Lemma lookup_markRead_all (msgs : gmap (string * nat) Message) chatId ks c k :
  foldr (λ k m, alter markRead (chatId, k) m) msgs ks !! (c, k)
  = if decide (c = chatId ∧ k ∈ ks) then markRead <$> msgs !! (c, k)
    else msgs !! (c, k).
Proof.
  induction ks as [|k' ks IH]; simpl.
  - rewrite decide_False; [done|]. intros [_ Hin]. by apply elem_of_nil in Hin.
  - destruct (decide ((chatId, k') = (c, k))) as [Heq|Hne].
    + simplify_eq. rewrite lookup_alter_eq, IH.
      rewrite (decide_True (P := c = c ∧ k ∈ k :: ks)); [|by split; [|left]].
      case_decide; [|done].
      destruct (msgs !! (c, k)); simpl; by rewrite ?markRead_idemp.
    + rewrite lookup_alter_ne, IH; [|done].
      repeat case_decide; try done.
      * exfalso. destruct H as [-> Hin]. apply H0. split; [done|by right].
      * exfalso. destruct H0 as [-> Hin]. apply elem_of_cons in Hin as [->|Hin].
        -- by apply Hne.
        -- apply H. by split.
Qed.

Lemma filter_nil_Forall {A} (P : A → Prop) `{∀ x, Decision (P x)} (l : list A) :
  Forall (λ x, ¬ P x) l → filter P l = [].
Proof.
  induction 1 as [|x l Hx _ IH]; [done|].
  by rewrite filter_cons_False.
Qed.

Lemma elem_of_unreadKeys reader msgs k m :
  (k, m) ∈ msgs → recipientId m = reader → read m = false →
  k ∈ unreadKeys reader msgs.
Proof.
  intros Hin Hr Hread. unfold unreadKeys.
  apply list_elem_of_fmap. exists (k, m). split; [done|].
  apply list_elem_of_filter. by split.
Qed.

Lemma unreadKeys_inv reader msgs k :
  k ∈ unreadKeys reader msgs →
  ∃ m, (k, m) ∈ msgs ∧ recipientId m = reader ∧ read m = false.
Proof.
  unfold unreadKeys. intros [[k' m] [-> Hin]]%list_elem_of_fmap.
  apply list_elem_of_filter in Hin as [[Hr Hread] Hin]. by exists m.
Qed.

(** What [markMessagesAsRead] leaves in the message log. *)
Lemma markMessagesAsRead_messages st reader other c k :
  reader ≠ "" →
  messages (markMessagesAsRead (Some reader) other st).2 !! (c, k)
  = if decide (c = generateChatId reader other
               ∧ k ∈ unreadKeys reader
                       (childrenNat (generateChatId reader other) (messages st)))
    then markRead <$> messages st !! (c, k)
    else messages st !! (c, k).
Proof.
  intros Hreader. unfold markMessagesAsRead. async.
  rewrite (truthyId_Some _ Hreader). simpl.
  destruct (unreadKeys reader _) as [|k0 ks] eqn:Hks; simpl.
  - rewrite decide_False; [done|]. intros [_ Hin]. by apply elem_of_nil in Hin.
  - rewrite <- lookup_markRead_all. done.
Qed.

Lemma markMessagesAsRead_userChats st reader other :
  reader ≠ "" →
  userChats (markMessagesAsRead (Some reader) other st).2
  = <[(reader, generateChatId reader other) :=
        let c := default emptyUserChat
                   (userChats st !! (reader, generateChatId reader other)) in
        mkUserChat (lastMessage c) (lastMessageTime c) (otherUserId c) (Some 0%Z)]>
      (userChats st).
Proof.
  intros Hreader. unfold markMessagesAsRead. async.
  rewrite (truthyId_Some _ Hreader). simpl.
  by destruct (unreadKeys reader _).
Qed.

Lemma markMessagesAsRead_all_read st reader other k m :
  reader ≠ "" →
  messages (markMessagesAsRead (Some reader) other st).2
    !! (generateChatId reader other, k) = Some m →
  recipientId m = reader → read m = true.
Proof.
  intros Hreader Hm Hrec.
  rewrite markMessagesAsRead_messages in Hm by done.
  case_decide as Hdec.
  - destruct (messages st !! _) as [m0|]; simplify_eq/=. done.
  - destruct (read m) eqn:Hread; [done|]. exfalso. apply Hdec.
    split; [done|]. eapply elem_of_unreadKeys; [|done..].
    by apply elem_of_childrenNat.
Qed.

Lemma markMessagesAsRead_no_unread st reader other :
  reader ≠ "" →
  unreadKeys reader
    (childrenNat (generateChatId reader other)
       (messages (markMessagesAsRead (Some reader) other st).2)) = [].
Proof.
  intros Hreader. unfold unreadKeys.
  rewrite filter_nil_Forall; [done|].
  apply Forall_forall. intros [k m] Hin [Hrec Hread]. simpl in *.
  apply elem_of_childrenNat in Hin.
  apply markMessagesAsRead_all_read in Hin; [|done..]. congruence.
Qed.

(** C7.  For a signed-in reader, [markMessagesAsRead] leaves the unread
    count of the reader's summary of the thread at zero and every message
    of the thread addressed to the reader read, touching no other field of
    the stored messages; a second call right after changes nothing, and
    the unread count is zero after it too. *)
Theorem markMessagesAsRead_idempotent (st : Store) (reader other : string) :
  reader ≠ "" →
  let chatId := generateChatId reader other in
  let once := (markMessagesAsRead (Some reader) other st).2 in
  let twice := (markMessagesAsRead (Some reader) other once).2 in
  unreadCountOf reader chatId once = 0%Z
  ∧ (∀ k m, messages once !! (chatId, k) = Some m →
            recipientId m = reader → read m = true)
  ∧ (∀ k m, messages st !! (chatId, k) = Some m →
            messages once !! (chatId, k)
            = Some (if decide (recipientId m = reader) then markRead m else m))
  ∧ twice = once
  ∧ unreadCountOf reader chatId twice = 0%Z.
Proof.
  intros Hreader. simpl.
  assert (unreadCountOf reader (generateChatId reader other)
            (markMessagesAsRead (Some reader) other st).2 = 0%Z) as Hzero.
  { unfold unreadCountOf. rewrite markMessagesAsRead_userChats by done.
    by rewrite lookup_insert_eq. }
  assert ((markMessagesAsRead (Some reader) other
             (markMessagesAsRead (Some reader) other st).2).2
          = (markMessagesAsRead (Some reader) other st).2) as Hsame.
  { pose proof (markMessagesAsRead_no_unread st reader other Hreader) as Hnone.
    pose proof (markMessagesAsRead_userChats st reader other Hreader) as Huc.
    assert (∃ c, userChats (markMessagesAsRead (Some reader) other st).2
                   !! (reader, generateChatId reader other) = Some c
                 ∧ unreadCount c = Some 0%Z) as (c & Hc & Hcount).
    { rewrite Huc, lookup_insert_eq. by eexists. }
    clear Huc Hzero. revert Hnone Hc.
    generalize (markMessagesAsRead (Some reader) other st).2 as st1.
    intros st1 Hnone Hc.
    unfold markMessagesAsRead. async.
    rewrite (truthyId_Some _ Hreader). simpl. rewrite Hnone, Hc. simpl.
    rewrite insert_id; [by destruct st1|].
    rewrite Hc. destruct c; simpl in *. by subst. }
  split; [done|].
  split; [by intros k m; apply markMessagesAsRead_all_read|].
  split.
  { intros k m Hm. rewrite markMessagesAsRead_messages by done. rewrite Hm.
    destruct (decide (recipientId m = reader)) as [Hrec|Hrec].
    - destruct (read m) eqn:Hread.
      + case_decide; simpl; [done|]. destruct m; simpl in *. by subst.
      + rewrite decide_True; [done|]. split; [done|].
        eapply elem_of_unreadKeys; [|done..]. by apply elem_of_childrenNat.
    - rewrite decide_False; [done|].
      intros [_ (m' & Hin & Hrec' & _)%unreadKeys_inv].
      apply elem_of_childrenNat in Hin. congruence. }
  split; [done|]. by rewrite Hsame.
Qed.

Lemma markMessagesAsRead_idempotent_witness :
  unreadCountOf "u2" (generateChatId "u2" "u1") hiSent = 1%Z
  ∧ unreadCountOf "u2" (generateChatId "u2" "u1")
      (markMessagesAsRead (Some "u2") "u1" hiSent).2 = 0%Z
  ∧ (markMessagesAsRead (Some "u2") "u1"
       (markMessagesAsRead (Some "u2") "u1" hiSent).2).2
    = (markMessagesAsRead (Some "u2") "u1" hiSent).2.
Proof.
  assert ("u2" ≠ "") as Hne by done.
  destruct (markMessagesAsRead_idempotent hiSent "u2" "u1" Hne)
    as (Hzero & _ & _ & Hsame & _).
  split; [reflexivity|]. split; [exact Hzero|exact Hsame].
Defined.

(** *** The order of the message lists *)

Section SortFacts.
Context {A : Type} (key : A → Z).

Lemma elem_of_sortInsert x y (l : list A) :
  y ∈ sortInsert key x l ↔ y = x ∨ y ∈ l.
Proof.
  induction l as [|z l IH]; simpl.
  - rewrite list_elem_of_singleton. split; [by left|].
    intros [->|Hin]; [done|]. by apply elem_of_nil in Hin.
  - destruct (key x <=? key z)%Z.
    + by rewrite elem_of_cons.
    + rewrite !elem_of_cons, IH. tauto.
Qed.

Lemma elem_of_sortBy y (l : list A) : y ∈ sortBy key l ↔ y ∈ l.
Proof.
  induction l as [|x l IH]; simpl; [done|].
  rewrite elem_of_sortInsert, elem_of_cons, IH. tauto.
Qed.

Lemma length_sortInsert x (l : list A) :
  length (sortInsert key x l) = S (length l).
Proof.
  induction l as [|z l IH]; simpl; [done|].
  destruct (key x <=? key z)%Z; simpl; by rewrite ?IH.
Qed.

Lemma length_sortBy (l : list A) : length (sortBy key l) = length l.
Proof.
  induction l as [|x l IH]; simpl; [done|].
  by rewrite length_sortInsert, IH.
Qed.
End SortFacts.

Lemma messageBefore_intro (a b : nat * Message) :
  (messageTime a ≤ messageTime b)%Z → a.1 < b.1 → messageBefore a b.
Proof.
  unfold messageBefore, messageTime. simpl. intros Ht Hk.
  destruct (decide (timestamp a.2 = timestamp b.2)); [by right|left; lia].
Qed.

Lemma messageBefore_time (a b : nat * Message) :
  messageBefore a b → (messageTime a ≤ messageTime b)%Z.
Proof. unfold messageBefore, messageTime. simpl. lia. Qed.

Lemma sortInsert_ordered (x : nat * Message) (s : list (nat * Message)) :
  StronglySorted messageBefore s →
  (∀ y, y ∈ s → x.1 < y.1) →
  StronglySorted messageBefore (sortInsert messageTime x s).
Proof.
  induction 1 as [|y s Hs IH Hy]; intros Hkeys; simpl.
  - repeat constructor.
  - destruct (Z.leb_spec (messageTime x) (messageTime y)) as [Hle|Hgt].
    + constructor; [by constructor|].
      apply Forall_forall. intros z Hz.
      apply messageBefore_intro; [|by apply Hkeys].
      apply elem_of_cons in Hz as [->|Hz]; [done|].
      rewrite Forall_forall in Hy. apply Hy, messageBefore_time in Hz. lia.
    + constructor.
      * apply IH. intros z Hz. apply Hkeys. by right.
      * apply Forall_forall. intros z Hz.
        apply elem_of_sortInsert in Hz as [->|Hz].
        -- left. unfold messageTime in Hgt. simpl in Hgt. lia.
        -- rewrite Forall_forall in Hy. by apply Hy.
Qed.

Lemma sortBy_ordered (l : list (nat * Message)) :
  StronglySorted (λ a b, a.1 < b.1) l →
  StronglySorted messageBefore (sortBy messageTime l).
Proof.
  induction 1 as [|x l Hl IH Hx]; simpl; [constructor|].
  apply sortInsert_ordered; [done|].
  intros y Hy%elem_of_sortBy. rewrite Forall_forall in Hx. by apply Hx.
Qed.

Lemma StronglySorted_drop {A} (R : relation A) n (l : list A) :
  StronglySorted R l → StronglySorted R (drop n l).
Proof.
  intros Hl. revert n. induction Hl as [|x l Hl IH Hx]; intros [|n]; simpl.
  - constructor.
  - constructor.
  - by constructor.
  - apply IH.
Qed.

Lemma strictly_sorted_keys {V} (l : list (nat * V)) :
  StronglySorted byNatKey l → NoDup l.*1 →
  StronglySorted (λ a b, a.1 < b.1) l.
Proof.
  induction 1 as [|x l Hl IH Hx]; simpl; intros Hnd; [constructor|].
  apply NoDup_cons in Hnd as [Hnotin Hnd].
  constructor; [by apply IH|].
  apply Forall_forall. intros y Hy.
  rewrite Forall_forall in Hx. specialize (Hx y Hy). unfold byNatKey in Hx.
  destruct (decide (x.1 = y.1)) as [Heq|]; [|lia].
  exfalso. apply Hnotin. rewrite Heq. apply list_elem_of_fmap. by exists y.
Qed.

Lemma childrenNat_strictly_sorted `{Countable K1} {V} (p : K1)
    (m : gmap (K1 * nat) V) :
  StronglySorted (λ a b, a.1 < b.1) (childrenNat p m).
Proof.
  apply strictly_sorted_keys.
  - apply StronglySorted_merge_sort; apply _.
  - unfold childrenNat. rewrite merge_sort_Permutation.
    apply NoDup_childEntries_keys.
Qed.

Lemma messagesList_ordered chatId limit st l :
  messagesList chatId limit st = Some l →
  StronglySorted messageBefore l
  ∧ ∀ k m, (k, m) ∈ l → messages st !! (chatId, k) = Some m.
Proof.
  unfold messagesList, limitToLast.
  destruct (limit <=? 0)%Z; simpl; [done|]. intros [= <-]. split.
  - apply sortBy_ordered, StronglySorted_drop, childrenNat_strictly_sorted.
  - intros k m Hin%elem_of_sortBy.
    apply elem_of_childrenNat. eapply subseteq_drop, Hin.
Qed.

Lemma length_limitToLast {A} (l : list A) (limit : Z) :
  (0 < limit)%Z →
  limitToLast limit l = Some (drop (length l - Z.to_nat limit) l)
  ∧ Z.of_nat (length (drop (length l - Z.to_nat limit) l))
    = Z.min limit (Z.of_nat (length l)).
Proof.
  intros Hlimit. unfold limitToLast.
  destruct (Z.leb_spec limit 0); [lia|]. split; [done|].
  rewrite length_drop. lia.
Qed.

(** C8, as the code has it.  For a signed-in participant and a positive
    limit, the list that [getChatMessages] returns is the list the
    callback of [listenToChatMessages] receives.  It holds the [limit]
    messages of the thread with the greatest keys, all of them when the
    thread holds no more than [limit], in ascending order of creation
    time, messages of equal time in ascending order of their keys.  The
    key, which [push] made, is all that orders messages of equal time: a
    stored message carries no sequence number. *)
Theorem chat_messages_ordered (st : Store) (u other : string) (limit : Z) :
  u ≠ "" →
  (0 < limit)%Z →
  let chatId := generateChatId u other in
  let thread := childrenNat chatId (messages st) in
  let list := getChatMessages (Some u) other limit st in
  listenToChatMessages (Some u) other limit st = Some list
  ∧ StronglySorted messageBefore list
  ∧ (∀ k m, (k, m) ∈ list → messages st !! (chatId, k) = Some m)
  ∧ Z.of_nat (length list) = Z.min limit (Z.of_nat (length thread))
  ∧ (∀ k m k' m', messages st !! (chatId, k) = Some m → (k, m) ∉ list →
                  (k', m') ∈ list → k < k')
  ∧ ((Z.of_nat (length thread) ≤ limit)%Z →
     ∀ k m, messages st !! (chatId, k) = Some m → (k, m) ∈ list).
Proof.
  intros Hu Hlimit. simpl.
  unfold getChatMessages, listenToChatMessages, messagesList.
  rewrite (truthyId_Some _ Hu).
  set (thread := childrenNat (generateChatId u other) (messages st)).
  destruct (length_limitToLast thread limit Hlimit) as [-> Hlength]. simpl.
  assert (messagesList (generateChatId u other) limit st
          = Some (sortBy messageTime
                    (drop (length thread - Z.to_nat limit) thread))) as Hlist.
  { unfold messagesList. fold thread.
    by destruct (length_limitToLast thread limit Hlimit) as [-> _]. }
  apply messagesList_ordered in Hlist as [Hsorted Hstored].
  split; [done|]. split; [done|]. split; [done|].
  split; [by rewrite length_sortBy|]. split.
  - intros k m k' m' Hm Hout Hin.
    apply elem_of_childrenNat in Hm. fold thread in Hm.
    rewrite elem_of_sortBy in Hout, Hin.
    rewrite <- (take_drop (length thread - Z.to_nat limit) thread) in Hm.
    apply elem_of_app in Hm as [Hm|Hm]; [|done].
    pose proof (childrenNat_strictly_sorted (generateChatId u other)
                  (messages st)) as Hkeys.
    fold thread in Hkeys.
    rewrite <- (take_drop (length thread - Z.to_nat limit) thread) in Hkeys.
    exact (StronglySorted_app_1_elem_of _ _ _ _ _ Hkeys Hm Hin).
  - intros Hall k m Hm. apply elem_of_sortBy.
    replace (length thread - Z.to_nat limit) with 0 by lia.
    by apply elem_of_childrenNat.
Qed.

Lemma chat_messages_ordered_witness :
  listenToChatMessages (Some "u2") "u1" 50 tiedMessages
  = Some (getChatMessages (Some "u2") "u1" 50 tiedMessages)
  ∧ StronglySorted messageBefore (getChatMessages (Some "u2") "u1" 50 tiedMessages)
  ∧ (Z.of_nat (length (getChatMessages (Some "u2") "u1" 1 earlierMessage)) = 1)%Z
  ∧ (2, mkMessage "u2" "u1" "yo" 102 false)
    ∈ getChatMessages (Some "u2") "u1" 50 tiedMessages.
Proof.
  assert ("u2" ≠ "") as Hne by done.
  assert (0 < 50)%Z as H50 by lia.
  assert (0 < 1)%Z as H1 by lia.
  destruct (chat_messages_ordered tiedMessages "u2" "u1" 50 Hne H50)
    as (Hlisten & Hsorted & _ & _ & _ & Hall).
  destruct (chat_messages_ordered earlierMessage "u2" "u1" 1 Hne H1)
    as (_ & _ & _ & Hlength & _).
  split; [exact Hlisten|]. split; [exact Hsorted|]. split; [exact Hlength|].
  apply Hall; [vm_compute; discriminate|reflexivity].
Defined.

(** C8 fails as stated.  [u1] writes "hi" and then [u2], whose client
    makes the least key that is new, writes "yo"; the server gives both
    the time 102.  The message written second is listed first: among
    messages of equal time the list follows the keys, not the order of the
    writes. *)
Lemma later_message_first_counterexample :
  (sendMessageWith pushKey (Some "u1") "u2" "hi" 102 friendsMade).1 = Ok 1
  ∧ (sendMessageWith pushKeyLeast (Some "u2") "u1" "yo" 102 hiSent).1 = Ok 0
  ∧ getChatMessages (Some "u1") "u2" 50
      (sendMessageWith pushKeyLeast (Some "u2") "u1" "yo" 102 hiSent).2
    = [(0, mkMessage "u2" "u1" "yo" 102 false);
       (1, mkMessage "u1" "u2" "hi" 102 false)]
  ∧ listenToChatMessages (Some "u2") "u1" 50
      (sendMessageWith pushKeyLeast (Some "u2") "u1" "yo" 102 hiSent).2
    = Some [(0, mkMessage "u2" "u1" "yo" 102 false);
            (1, mkMessage "u1" "u2" "hi" 102 false)].
Proof. vm_compute. done. Qed.

(** ** The feed engine *)

Lemma postCounters_not_null p : postCounters p → postIsNull p = false.
Proof.
  intros [Hl _]. unfold postIsNull. apply bool_decide_eq_false_2.
  intros (_ & _ & _ & _ & _ & _ & _ & Hn & _). congruence.
Qed.

Lemma size_like (X : gset string) (u : string) :
  u ∉ X → Z.of_nat (size (X ∪ {[u]})) = (Z.of_nat (size X) + 1)%Z.
Proof.
  intros Hu. rewrite size_union by set_solver. rewrite size_singleton. lia.
Qed.

Lemma size_unlike (X : gset string) (u : string) :
  u ∈ X → Z.of_nat (size (X ∖ {[u]})) = (Z.of_nat (size X) - 1)%Z.
Proof.
  intros Hu. rewrite size_difference by set_solver. rewrite size_singleton.
  assert (size X ≠ 0) by (apply size_non_empty_iff; set_solver). lia.
Qed.

Lemma togglePostLike_counters st cur postId now i p :
  posts st !! i = Some p → postCounters p →
  ∃ p', posts (togglePostLike cur postId now st).2 !! i = Some p'
        ∧ postCounters p'.
Proof.
  intros Hp Hinv. unfold togglePostLike. async.
  destruct (truthyId cur) as [u|]; simpl; [|by eauto].
  destruct (posts st !! postId) as [q|] eqn:Hq; simpl; [|by eauto].
  destruct (postIsNull q) eqn:Hnull; simpl; [by eauto|].
  destruct (decide (i = postId)) as [->|Hne].
  - rewrite Hq in Hp. injection Hp as ->. destruct Hinv as [Hlikes Hcomments].
    destruct (bool_decide (u ∈ likes p)) eqn:Hliked; simpl.
    + apply bool_decide_eq_true in Hliked.
      rewrite lookup_insert_eq, Hq. eexists. split; [done|].
      split; simpl; [|done].
      rewrite Hlikes. simpl. by rewrite size_unlike.
    + apply bool_decide_eq_false in Hliked.
      rewrite Hq. simpl.
      assert (∃ p', <[postId := withLikes (likes p ∪ {[u]})
                                  (Some (orZero (likesCount p) + 1)%Z) p]>
                      (posts st) !! postId = Some p' ∧ postCounters p')
        as Hgoal.
      { rewrite lookup_insert_eq. eexists. split; [done|].
        split; simpl; [|done].
        rewrite Hlikes. simpl. by rewrite size_like. }
      destruct (decide (authorId p = Some u)); simpl; [done|].
      destruct (users st !! u); simpl; done.
  - assert (∀ f, ∃ p', <[postId := f]> (posts st) !! i = Some p'
                       ∧ postCounters p') as Hgoal.
    { intros f. rewrite lookup_insert_ne by done. eauto. }
    destruct (bool_decide (u ∈ likes q)); simpl; [done|].
    destruct (decide (authorId q = Some u)); simpl; [done|].
    destruct (users st !! u); simpl; done.
Qed.

Lemma addComment_counters st cur postId newText now i p :
  posts st !! i = Some p → postCounters p →
  ∃ p', posts (addComment cur postId newText now st).2 !! i = Some p'
        ∧ postCounters p'.
Proof.
  intros Hp Hinv. unfold addComment. async.
  destruct (truthyId cur) as [u|]; simpl; [|by eauto].
  destruct (decide (trim newText = "")); simpl; [by eauto|].
  destruct (users st !! u) as [prof|]; simpl; [|by eauto].
  destruct (displayName prof) as [name|]; simpl; [|by eauto].
  destruct (photoURL prof) as [photo|]; simpl; [|by eauto].
  rewrite lookup_insert_eq.
  destruct (decide (i = postId)) as [->|Hne].
  - rewrite Hp. simpl.
    set (key := pushKey (entriesNat (comments p)).*1).
    set (c := mkComment u name photo (trim newText) now now).
    destruct Hinv as [Hlikes Hcomments].
    assert (postIsNull (withComments (<[key := c]> (comments p)) p) = false)
      as ->.
    { apply bool_decide_eq_false_2.
      intros (_ & _ & _ & _ & _ & _ & _ & Hn & _). simpl in Hn. congruence. }
    simpl. rewrite ?lookup_insert_eq. simpl.
    assert (∃ p', <[postId := withCommentsCount
                                (Some (orZero (commentsCount p) + 1)%Z)
                                (withComments (<[key := c]> (comments p)) p)]>
                    (<[postId := withComments (<[key := c]> (comments p)) p]>
                       (posts st)) !! postId = Some p'
                  ∧ postCounters p') as Hgoal.
    { rewrite lookup_insert_eq. eexists. split; [done|].
      split; simpl; [done|].
      rewrite map_size_insert_None by apply pushKey_entriesNat_fresh.
      rewrite Hcomments. simpl. f_equal. lia. }
    destruct (decide (authorId p = Some u)); simpl; done.
  - set (q := withComments _ _).
    assert (∀ f, ∃ p', <[postId := f]> (<[postId := q]> (posts st)) !! i
                       = Some p' ∧ postCounters p') as Hgoal.
    { intros f. rewrite !lookup_insert_ne by done. eauto. }
    destruct (postIsNull q); simpl.
    + rewrite lookup_insert_ne by done. eauto.
    + rewrite ?lookup_insert_eq. simpl.
      destruct (decide (authorId _ = Some u)); simpl; apply Hgoal.
Qed.

Lemma createPost_counters st cur postContent imageFile now key :
  (createPost cur postContent imageFile now st).1 = Ok key →
  posts st !! key = None
  ∧ ∃ p, posts (createPost cur postContent imageFile now st).2 !! key = Some p
         ∧ postCounters p.
Proof.
  unfold createPost. async.
  destruct (truthyId cur) as [u|]; simpl; [|done].
  destruct (_ && _); simpl; [done|].
  destruct (users st !! u) as [prof|]; simpl; [|done].
  destruct (displayName prof) as [name|]; simpl; [|done].
  destruct (photoURL prof) as [photo|]; simpl; [|done].
  intros [= <-]. split; [apply pushKey_entriesNat_fresh|].
  rewrite lookup_insert_eq. eexists. split; [done|].
  split; simpl; f_equal.
Qed.

Lemma togglePostLike_posts st cur postId now :
  posts (togglePostLike cur postId now st).2 = posts st
  ∨ ∃ u q, posts st !! postId = Some q
           ∧ posts (togglePostLike cur postId now st).2
             = <[postId :=
                   if bool_decide (u ∈ likes q)
                   then withLikes (likes q ∖ {[u]})
                          (Some (orZero (likesCount q) - 1)%Z) q
                   else withLikes (likes q ∪ {[u]})
                          (Some (orZero (likesCount q) + 1)%Z) q]> (posts st).
Proof.
  unfold togglePostLike. async.
  destruct (truthyId cur) as [u|]; simpl; [|by left].
  destruct (posts st !! postId) as [q|] eqn:Hq; simpl; [|by left].
  destruct (postIsNull q); simpl; [by left|].
  right. exists u, q. split; [done|].
  destruct (bool_decide (u ∈ likes q)); simpl; rewrite Hq; simpl; [done|].
  destruct (decide (authorId q = Some u)); simpl; [done|].
  destruct (users st !! u); simpl; done.
Qed.

Lemma addComment_posts st cur postId newText now :
  posts (addComment cur postId newText now st).2 = posts st
  ∨ ∃ c, let q := default emptyPost (posts st !! postId) in
         let key := pushKey (entriesNat (comments q)).*1 in
         posts (addComment cur postId newText now st).2
         = <[postId := withCommentsCount (Some (orZero (commentsCount q) + 1)%Z)
                         (withComments (<[key := c]> (comments q)) q)]>
             (posts st).
Proof.
  unfold addComment. async.
  destruct (truthyId cur) as [u|]; simpl; [|by left].
  destruct (decide (trim newText = "")); simpl; [by left|].
  destruct (users st !! u) as [prof|]; simpl; [|by left].
  destruct (displayName prof) as [name|]; simpl; [|by left].
  destruct (photoURL prof) as [photo|]; simpl; [|by left].
  right. exists (mkComment u name photo (trim newText) now now). simpl.
  rewrite !lookup_insert_eq.
  set (q := default emptyPost (posts st !! postId)).
  set (c := mkComment u name photo (trim newText) now now).
  set (key := pushKey (entriesNat (comments q)).*1).
  assert (postIsNull (withComments (<[key := c]> (comments q)) q) = false)
    as ->.
  { apply bool_decide_eq_false_2.
    intros (_ & _ & _ & _ & _ & _ & _ & _ & Hn & _). simpl in Hn.
    by apply insert_non_empty in Hn. }
  simpl. rewrite !lookup_insert_eq. simpl.
  destruct (decide (authorId q = Some u)); simpl; by rewrite insert_insert_eq.
Qed.

Lemma runFeedOp_countersRead st op :
  (∀ i p, posts st !! i = Some p → postCountersRead p) →
  ∀ i p, posts (runFeedOp st op) !! i = Some p → postCountersRead p.
Proof.
  intros Hall i p. destruct op as [cur postId now|cur postId newText now]; simpl.
  - destruct (togglePostLike_posts st cur postId now)
      as [->|(u & q & Hq & ->)]; [by apply Hall|].
    rewrite lookup_insert. case_decide as Hi; [|by apply Hall].
    subst i. destruct (Hall _ _ Hq) as [Hlikes Hcomments].
    destruct (bool_decide (u ∈ likes q)) eqn:Hliked; intros [= <-].
    + apply bool_decide_eq_true in Hliked.
      split; simpl; [|done]. rewrite Hlikes. by rewrite size_unlike.
    + apply bool_decide_eq_false in Hliked.
      split; simpl; [|done]. rewrite Hlikes. by rewrite size_like.
  - destruct (addComment_posts st cur postId newText now)
      as [->|(c & Hposts)]; [by apply Hall|].
    simpl in Hposts. rewrite Hposts. clear Hposts.
    rewrite lookup_insert. case_decide as Hi; [|by apply Hall].
    subst i. intros [= <-].
    assert (postCountersRead (default emptyPost (posts st !! postId)))
      as [Hlikes Hcomments].
    { destruct (posts st !! postId) as [q|] eqn:Hq; simpl; [by eapply Hall|].
      by split. }
    split; simpl; [done|].
    rewrite map_size_insert_None by apply pushKey_entriesNat_fresh.
    rewrite Hcomments. lia.
Qed.

(** C2.  A post made by [createPost] has [likesCount] and [commentsCount]
    equal to the sizes of its like set and of its comment log; a post
    whose counters agree with these sizes still exists with agreeing
    counters after every sequence of [togglePostLike] and [addComment]
    calls, by whichever users and on whichever posts, so after each call
    of the sequence; and when the counters of every post node, read with
    [|| 0], agree with the sizes, they do so for every post node after the
    sequence, the nodes it made included. *)
Theorem post_counters_invariant (st : Store) (ops : list FeedOp) :
  (∀ cur postContent imageFile now key,
     (createPost cur postContent imageFile now st).1 = Ok key →
     ∃ p, posts (createPost cur postContent imageFile now st).2 !! key = Some p
          ∧ postCounters p)
  ∧ (∀ postId p,
       posts st !! postId = Some p → postCounters p →
       ∃ p', posts (runFeedOps ops st) !! postId = Some p' ∧ postCounters p')
  ∧ ((∀ i p, posts st !! i = Some p → postCountersRead p) →
     ∀ i p, posts (runFeedOps ops st) !! i = Some p → postCountersRead p).
Proof.
  split; [|split].
  - intros cur postContent imageFile now key Hok.
    by apply createPost_counters in Hok as [_ Hp].
  - intros postId. unfold runFeedOps. revert st.
    induction ops as [|op ops IH]; intros st p Hp Hinv; simpl; [by eauto|].
    assert (∃ p', posts (runFeedOp st op) !! postId = Some p' ∧ postCounters p')
      as (p' & Hp' & Hinv').
    { destruct op as [cur i now|cur i newText now]; simpl.
      - by eapply togglePostLike_counters.
      - by eapply addComment_counters. }
    by eapply IH.
  - unfold runFeedOps. revert st.
    induction ops as [|op ops IH]; intros st Hall; simpl; [done|].
    apply IH. by apply runFeedOp_countersRead.
Qed.

(** C10.  A completed [deleteComment] removes the comment and stores
    [max(c - 1, 0)] as [commentsCount], where [c] is the count the post
    held before the deletion, 0 when absent: the stored count is never
    negative, and it is 0 when the count before the deletion was 0 or
    absent. *)
Theorem deleteComment_count_clamped (st : Store) (cur : option string)
    (postId commentId : nat) :
  let deleted := deleteComment cur postId commentId st in
  deleted.1 = Ok true →
  ∃ p p', posts st !! postId = Some p
          ∧ posts deleted.2 !! postId = Some p'
          ∧ comments p' = delete commentId (comments p)
          ∧ commentsCount p' = Some (Z.max (orZero (commentsCount p) - 1) 0)
          ∧ (0 ≤ orZero (commentsCount p'))%Z
          ∧ (orZero (commentsCount p) = 0%Z → commentsCount p' = Some 0%Z).
Proof.
  simpl. unfold deleteComment. async.
  destruct (truthyId cur) as [u|]; simpl; [|done].
  destruct (posts st !! postId) as [p|] eqn:Hp; simpl; [|done].
  destruct (comments p !! commentId) as [c|]; simpl; [|done].
  destruct (decide (commentAuthorId c = u)); simpl; [|done].
  rewrite lookup_insert_eq.
  destruct (postIsNull _); simpl; [done|].
  intros _. exists p. eexists. rewrite !lookup_insert_eq, ?Hp.
  split; [done|]. split; [done|]. simpl.
  split; [done|]. split; [done|]. split; [lia|].
  intros ->. done.
Qed.

Lemma post_counters_invariant_witness :
  (∃ p', posts (runFeedOps [ToggleLike (Some "u2") 1 201;
                            AddComment (Some "u2") 1 " nice " 202;
                            ToggleLike (Some "u1") 1 203;
                            ToggleLike (Some "u2") 1 204] helloPosted) !! 1
         = Some p'
         ∧ postCounters p')
  ∧ ∀ i p, posts (runFeedOps [AddComment (Some "u2") 7 "nobody home" 205;
                              ToggleLike (Some "u1") 7 206] threeUsers) !! i
           = Some p → postCountersRead p.
Proof.
  destruct (post_counters_invariant friendsMade []) as (Hcreate & _ & _).
  destruct (Hcreate (Some "u1") "hello" None 200%Z 1 eq_refl) as (p & Hp & Hinv).
  destruct (post_counters_invariant helloPosted
              [ToggleLike (Some "u2") 1 201;
               AddComment (Some "u2") 1 " nice " 202;
               ToggleLike (Some "u1") 1 203;
               ToggleLike (Some "u2") 1 204]) as (_ & Hkeep & _).
  destruct (post_counters_invariant threeUsers
              [AddComment (Some "u2") 7 "nobody home" 205;
               ToggleLike (Some "u1") 7 206]) as (_ & _ & Hread).
  split; [exact (Hkeep 1 p Hp Hinv)|].
  apply Hread. intros i q Hq.
  change (posts threeUsers) with (∅ : gmap nat Post) in Hq.
  by rewrite lookup_empty in Hq.
Defined.

Lemma deleteComment_count_clamped_witness :
  ∃ p', posts (deleteComment (Some "u2") 1 1 staleCount).2 !! 1 = Some p'
        ∧ commentsCount p' = Some 0%Z.
Proof.
  destruct (deleteComment_count_clamped staleCount (Some "u2") 1 1 eq_refl)
    as (p & p' & Hp & Hp' & _ & _ & _ & Hzero).
  exists p'. split; [exact Hp'|]. apply Hzero.
  injection Hp as <-. reflexivity.
Defined.

(** * Further properties *)

(** ** Sorting and children, continued *)

Section SortOrder.
Context {A : Type} (key : A → Z).

Lemma sortInsert_sorted x (l : list A) :
  StronglySorted (λ a b, (key a ≤ key b)%Z) l →
  StronglySorted (λ a b, (key a ≤ key b)%Z) (sortInsert key x l).
Proof.
  induction 1 as [|y l Hl IH Hy]; simpl; [repeat constructor|].
  destruct (Z.leb_spec (key x) (key y)) as [Hle|Hgt].
  - constructor; [by constructor|].
    constructor; [done|]. eapply Forall_impl; [exact Hy|]. simpl. lia.
  - constructor; [done|].
    apply Forall_forall. intros z [->|Hz]%elem_of_sortInsert; [lia|].
    rewrite Forall_forall in Hy. by apply Hy.
Qed.

Lemma sortBy_sorted (l : list A) :
  StronglySorted (λ a b, (key a ≤ key b)%Z) (sortBy key l).
Proof.
  induction l as [|x l IH]; simpl; [constructor|]. by apply sortInsert_sorted.
Qed.

Lemma sortInsert_Permutation x (l : list A) : sortInsert key x l ≡ₚ x :: l.
Proof.
  induction l as [|y l IH]; simpl; [done|].
  destruct (key x <=? key y)%Z; [done|]. rewrite IH. apply Permutation_swap.
Qed.

Lemma sortBy_Permutation (l : list A) : sortBy key l ≡ₚ l.
Proof.
  induction l as [|x l IH]; simpl; [done|].
  by rewrite sortInsert_Permutation, IH.
Qed.
End SortOrder.

Lemma length_sliceFromZero {A} (l : list A) (limit : Z) :
  (0 ≤ limit)%Z → (Z.of_nat (length (sliceFromZero l limit)) ≤ limit)%Z.
Proof.
  intros Hlimit. unfold sliceFromZero.
  destruct (Z.ltb_spec limit 0); [lia|]. rewrite length_take. lia.
Qed.

Lemma sliceFromZero_sublist {A} (l : list A) (limit : Z) :
  sliceFromZero l limit `sublist_of` l.
Proof. unfold sliceFromZero. destruct (limit <? 0)%Z; apply sublist_take. Qed.

Lemma StronglySorted_sublist {A} (R : relation A) (l k : list A) :
  l `sublist_of` k → StronglySorted R k → StronglySorted R l.
Proof.
  induction 1 as [|x l k Hs IH|x l k Hs IH]; intros Hk; [done|..].
  - apply StronglySorted_inv in Hk as [Hk Hx].
    constructor; [by apply IH|].
    apply Forall_forall. intros y Hy. rewrite Forall_forall in Hx.
    apply Hx. by eapply elem_of_sublist.
  - apply StronglySorted_inv in Hk as [Hk _]. by apply IH.
Qed.

(** ** Thread identifiers *)

Lemma ltb_antisym (a b : string) :
  String.ltb a b = true → String.ltb b a = false.
Proof.
  unfold String.ltb. rewrite (String.compare_antisym b a).
  by destruct (String.compare a b).
Qed.

Lemma ltb_total (a b : string) :
  String.ltb a b = false → String.ltb b a = false → a = b.
Proof.
  unfold String.ltb. rewrite (String.compare_antisym b a).
  destruct (String.compare a b) eqn:Hc; simpl; try done.
  intros _ _. by apply String.compare_eq_iff.
Qed.

Lemma generateChatId_swap (a b : string) :
  generateChatId a b = generateChatId b a.
Proof.
  unfold generateChatId.
  destruct (String.ltb a b) eqn:H12.
  - by rewrite (ltb_antisym _ _ H12).
  - destruct (String.ltb b a) eqn:H21; [done|].
    by rewrite (ltb_total _ _ H12 H21).
Qed.

(** X1.  The thread identifier does not depend on the order of the two
    participants, and it is made of the two identifiers and the
    separator: both participants address the same thread. *)
Theorem generateChatId_comm (userId1 userId2 : string) :
  generateChatId userId1 userId2 = generateChatId userId2 userId1
  ∧ (generateChatId userId1 userId2 = userId1 +:+ "_" +:+ userId2
     ∨ generateChatId userId1 userId2 = userId2 +:+ "_" +:+ userId1).
Proof.
  split; [apply generateChatId_swap|].
  unfold generateChatId. destruct (String.ltb userId1 userId2); auto.
Qed.

Lemma append_separator_inj (a b c d : string) :
  hasUnderscore a = false → hasUnderscore c = false →
  a +:+ "_" +:+ b = c +:+ "_" +:+ d → a = c ∧ b = d.
Proof.
  assert (∀ s, "" +:+ s = s) as Hnil by done.
  assert (∀ x s t, String x s +:+ t = String x (s +:+ t)) as Hcons by done.
  revert c. induction a as [|x a IH]; intros [|y c]; simpl;
    repeat (rewrite Hnil || rewrite Hcons).
  - intros _ _ [= ->]. done.
  - intros _ Hc [= <- _]. done.
  - intros Ha _ [= -> _]. done.
  - intros [_ Ha]%orb_false_elim [_ Hc]%orb_false_elim [= -> Heq].
    destruct (IH c Ha Hc Heq) as [-> ->]. done.
Qed.

(** X2.  For identifiers without an underscore, two pairs of participants
    share a thread identifier only when they are the same pair. *)
Theorem generateChatId_inj (a b c d : string) :
  hasUnderscore a = false → hasUnderscore b = false →
  hasUnderscore c = false → hasUnderscore d = false →
  generateChatId a b = generateChatId c d →
  (a = c ∧ b = d) ∨ (a = d ∧ b = c).
Proof.
  intros Ha Hb Hc Hd. unfold generateChatId.
  destruct (String.ltb a b), (String.ltb c d); intros Heq;
    apply append_separator_inj in Heq as [-> ->]; auto.
Qed.

Lemma generateChatId_inj_witness :
  generateChatId "u1" "u2" = generateChatId "u2" "u1" ∧
  (("u1" = "u2" ∧ "u2" = "u1") ∨ ("u1" = "u1" ∧ "u2" = "u2")).
Proof.
  split; [reflexivity|].
  exact (generateChatId_inj "u1" "u2" "u2" "u1" eq_refl eq_refl eq_refl eq_refl
           eq_refl).
Defined.

(** ** The social graph engine, continued *)

Lemma elem_of_getFriendsListForUser st u x :
  x ∈ friendUid <$> getFriendsListForUser u st
  ↔ is_Some (users st !! x) ∧ is_Some (friends st !! (u, x)).
Proof.
  unfold getFriendsListForUser. rewrite list_elem_of_fmap. split.
  - intros (e & -> & He). apply list_elem_of_omap in He as ([k v] & Hin & Hf).
    simpl in Hf. destruct (users st !! k) as [p|] eqn:Hp; [|done].
    injection Hf as <-. simpl. apply elem_of_childrenStr in Hin.
    rewrite Hp, Hin. by split; eexists.
  - intros [[p Hp] [v Hv]]. exists (mkFriendEntry x p v). split; [done|].
    apply list_elem_of_omap. exists (x, v). split.
    + by apply elem_of_childrenStr.
    + simpl. by rewrite Hp.
Qed.

Lemma getFriendsList_signed_in st u :
  u ≠ "" → getFriendsList (Some u) st = getFriendsListForUser u st.
Proof. intros Hu. unfold getFriendsList. by rewrite truthyId_Some. Qed.

(** X3.  [getMutualFriends] lists exactly the users with a stored profile
    who have an edge from the caller and an edge from the target. *)
Theorem getMutualFriends_spec (st : Store) (caller target x : string) :
  caller ≠ "" →
  x ∈ uid <$> getMutualFriends (Some caller) target st
  ↔ is_Some (users st !! x)
    ∧ is_Some (friends st !! (caller, x))
    ∧ is_Some (friends st !! (target, x)).
Proof.
  intros Hcaller. unfold getMutualFriends.
  rewrite (truthyId_Some _ Hcaller), getFriendsList_signed_in by done.
  rewrite list_elem_of_fmap. split.
  - intros (e & -> & He). apply list_elem_of_omap in He as (k & Hin & Hf).
    destruct (users st !! k) as [p|] eqn:Hp; [|done]. injection Hf as <-.
    simpl. apply list_elem_of_filter in Hin as [Htarget Hcur].
    apply elem_of_getFriendsListForUser in Htarget as [_ Htarget].
    apply elem_of_getFriendsListForUser in Hcur as [_ Hcur].
    rewrite Hp. by split; [eexists|].
  - intros ([p Hp] & Hcur & Htarget). exists (mkUserEntry x p). split; [done|].
    apply list_elem_of_omap. exists x. split; [|by rewrite Hp].
    apply list_elem_of_filter.
    split; apply elem_of_getFriendsListForUser; by split; [eexists|].
Qed.

Lemma getMutualFriends_spec_witness :
  "u1" ∈ uid <$> getMutualFriends (Some "u2") "u1" selfFriend
  ↔ is_Some (users selfFriend !! "u1")
    ∧ is_Some (friends selfFriend !! ("u2", "u1"))
    ∧ is_Some (friends selfFriend !! ("u1", "u1")).
Proof.
  assert ("u2" ≠ "") as Hne by done.
  exact (getMutualFriends_spec selfFriend "u2" "u1" "u1" Hne).
Defined.

(** X4.  [rejectFriendRequest] by a signed-in owner succeeds whether or
    not the request exists, removes that request and nothing else, and a
    second call right after changes nothing. *)
Theorem rejectFriendRequest_idempotent (st : Store) (owner from : string) :
  owner ≠ "" →
  let rejected := rejectFriendRequest (Some owner) from st in
  rejected.1 = Ok true
  ∧ friendRequests rejected.2 !! (owner, from) = None
  ∧ (∀ i, i ≠ (owner, from) →
          friendRequests rejected.2 !! i = friendRequests st !! i)
  ∧ friends rejected.2 = friends st
  ∧ notifications rejected.2 = notifications st
  ∧ rejectFriendRequest (Some owner) from rejected.2 = (Ok true, rejected.2).
Proof.
  intros Howner. simpl. unfold rejectFriendRequest. async.
  rewrite (truthyId_Some _ Howner). simpl.
  split; [done|]. split; [apply lookup_delete_eq|].
  split; [by intros i Hi; apply lookup_delete_ne|].
  split; [done|]. split; [done|].
  unfold withFriendRequests. simpl. rewrite delete_delete_eq. done.
Qed.

Lemma rejectFriendRequest_idempotent_witness :
  (rejectFriendRequest (Some "u2") "u1" requestSent).1 = Ok true
  ∧ friendRequests (rejectFriendRequest (Some "u2") "u1" requestSent).2
      !! ("u2", "u1") = None.
Proof.
  assert ("u2" ≠ "") as Hne by done.
  destruct (rejectFriendRequest_idempotent requestSent "u2" "u1" Hne)
    as (H1 & H2 & _).
  exact (conj H1 H2).
Defined.

(** What a successful [sendFriendRequest] found and wrote. *)
Lemma sendFriendRequest_Ok_inv st cur name now b :
  (sendFriendRequest cur name now st).1 = Ok b →
  ∃ caller target,
    truthyId cur = Some caller
    ∧ resolveUsername st name = Some target
    ∧ target ≠ caller
    ∧ friends st !! (caller, target) = None
    ∧ users (sendFriendRequest cur name now st).2 = users st
    ∧ usernames (sendFriendRequest cur name now st).2 = usernames st
    ∧ friends (sendFriendRequest cur name now st).2 = friends st
    ∧ friendRequests (sendFriendRequest cur name now st).2
      = <[(target, caller) := mkFriendRequest caller target now "pending"]>
          (friendRequests st).
Proof.
  unfold sendFriendRequest, resolveUsername. async.
  destruct (truthyId cur) as [caller|]; simpl; [|done].
  destruct (usernames st !! name) as [indexed|]; simpl; [|done].
  destruct (users st !! indexed) as [q|]; simpl; [|done].
  destruct (findUidByUsername (users st) name) as [target|]; simpl; [|done].
  destruct (decide (target = caller)) as [->|Hne]; simpl; [done|].
  destruct (friends st !! (caller, target)) as [e|] eqn:He; simpl; [done|].
  destruct (friendRequests st !! (target, caller)); simpl; [done|].
  destruct (friendRequests st !! (caller, target)); simpl; [done|].
  destruct (users st !! caller); simpl; [|done].
  intros _. by exists caller, target.
Qed.

(** X5.  When [sendFriendRequest] has succeeded, the same call made again
    fails with 'Friend request already sent' and writes nothing. *)
Theorem sendFriendRequest_retry (st : Store) (cur : option string)
    (name : string) (now later : Z) :
  let sent := sendFriendRequest cur name now st in
  sent.1 = Ok true →
  sendFriendRequest cur name later sent.2 = (Throw RequestAlreadySent, sent.2).
Proof.
  simpl. intros Hok.
  destruct (sendFriendRequest_Ok_inv _ _ _ _ _ Hok)
    as (caller & target & Hcur & Hres & Hne & Hedge & Hu & Hn & Hf & Hr).
  revert Hu Hn Hf Hr.
  generalize (sendFriendRequest cur name now st).2 as st1.
  intros st1 Hu Hn Hf Hr.
  unfold resolveUsername in Hres.
  unfold sendFriendRequest. async. rewrite Hcur. simpl.
  rewrite Hn.
  destruct (usernames st !! name) as [indexed|]; simpl; [|done].
  rewrite Hu.
  destruct (users st !! indexed) as [q|]; simpl; [|done].
  rewrite Hu, Hres. simpl. rewrite decide_False by done. simpl.
  rewrite Hf, Hedge. simpl. rewrite Hr, lookup_insert_eq. done.
Qed.

Lemma sendFriendRequest_retry_witness :
  sendFriendRequest (Some "u1") "bob" 150 requestSent
  = (Throw RequestAlreadySent, requestSent).
Proof.
  exact (sendFriendRequest_retry threeUsers (Some "u1") "bob" 100 150 eq_refl).
Defined.

(** X6.  After [removeFriend] by a signed-in user neither direction is a
    friendship any more, the stored messages are as before, and
    [sendMessage] between the two fails in both directions with
    'Can only send messages to friends'. *)
Theorem removeFriend_unfriends (st : Store) (caller other body : string)
    (now : Z) :
  caller ≠ "" → other ≠ "" →
  let removed := removeFriend (Some caller) other st in
  removed.1 = Ok true
  ∧ (areFriends caller other removed.2).1 = Ok false
  ∧ (areFriends other caller removed.2).1 = Ok false
  ∧ messages removed.2 = messages st
  ∧ sendMessage (Some caller) other body now removed.2
    = (Throw NotFriends, removed.2)
  ∧ sendMessage (Some other) caller body now removed.2
    = (Throw NotFriends, removed.2).
Proof.
  intros Hcaller Hother. simpl.
  unfold removeFriend, sendMessage, sendMessageWith. async.
  rewrite !(truthyId_Some _ Hcaller), !(truthyId_Some _ Hother). simpl.
  assert (delete (other, caller) (delete (caller, other) (friends st))
            !! (caller, other) = None) as H1.
  { rewrite lookup_delete. case_decide; [done|]. apply lookup_delete_eq. }
  assert (delete (other, caller) (delete (caller, other) (friends st))
            !! (other, caller) = None) as H2 by apply lookup_delete_eq.
  rewrite H1, H2.
  rewrite !bool_decide_eq_false_2 by (by intros [? ?]). done.
Qed.

Lemma removeFriend_unfriends_witness :
  (areFriends "u1" "u2" (removeFriend (Some "u1") "u2" hiSent).2).1 = Ok false
  ∧ messages (removeFriend (Some "u1") "u2" hiSent).2 = messages hiSent
  ∧ sendMessage (Some "u2") "u1" "yo" 300 (removeFriend (Some "u1") "u2" hiSent).2
    = (Throw NotFriends, (removeFriend (Some "u1") "u2" hiSent).2).
Proof.
  assert ("u1" ≠ "") as H1 by done.
  assert ("u2" ≠ "") as H2 by done.
  destruct (removeFriend_unfriends hiSent "u1" "u2" "yo" 300 H1 H2)
    as (_ & Ha & _ & Hm & _ & Hs).
  exact (conj Ha (conj Hm Hs)).
Defined.

(** ** The messaging engine, continued *)

Ltac task :=
  unfold andThen, fromAsync, done_, fail_ in *; async.

(** X7.  [deleteMessage] by a signed-in caller fails with 'Message not
    found' when the thread holds no such message and with 'Can only delete
    your own messages' when the caller did not send it, writing nothing;
    otherwise it removes that message alone, and it leaves the thread
    summaries, their unread counts included, and the chat metadata as they
    were. *)
Theorem deleteMessage_outcome (st : Store) (caller other : string)
    (messageId : nat) :
  caller ≠ "" →
  let chatId := generateChatId caller other in
  let deleted := deleteMessage (Some caller) other messageId st in
  match messages st !! (chatId, messageId) with
  | None => deleted = (inl "Message not found", st)
  | Some m =>
      if decide (senderId m = caller)
      then deleted.1 = inr true
           ∧ messages deleted.2 = delete (chatId, messageId) (messages st)
           ∧ userChats deleted.2 = userChats st
           ∧ chats deleted.2 = chats st
      else deleted = (inl "Can only delete your own messages", st)
  end.
Proof.
  intros Hcaller. simpl. unfold deleteMessage. task.
  rewrite (truthyId_Some _ Hcaller). simpl.
  destruct (messages st !! _) as [m|]; simpl; [|done].
  destruct (decide (senderId m = caller)); simpl; done.
Qed.

Lemma deleteMessage_outcome_witness :
  (deleteMessage (Some "u1") "u2" 1 hiSent).1 = inr true
  ∧ messages (deleteMessage (Some "u1") "u2" 1 hiSent).2
    = delete ("u1_u2", 1) (messages hiSent)
  ∧ userChats (deleteMessage (Some "u1") "u2" 1 hiSent).2 = userChats hiSent
  ∧ chats (deleteMessage (Some "u1") "u2" 1 hiSent).2 = chats hiSent.
Proof.
  assert ("u1" ≠ "") as Hne by done.
  exact (deleteMessage_outcome hiSent "u1" "u2" 1 Hne).
Defined.

(** X8.  [startChatWithFriend] by a signed-in caller fails with 'Can only
    chat with friends', writing nothing, when there is no edge to the
    friend; otherwise it returns the thread identifier and leaves the
    unread count at 0 in the summaries of both participants, whatever
    they were, while the messages and already stored chat metadata stay
    as they were. *)
Theorem startChatWithFriend_resets (st : Store) (caller friend : string)
    (now : Z) :
  caller ≠ "" →
  let chatId := generateChatId caller friend in
  let started := startChatWithFriend (Some caller) friend now st in
  (friends st !! (caller, friend) = None →
     started = (inl "Can only chat with friends", st))
  ∧ (is_Some (friends st !! (caller, friend)) →
       started.1 = inr chatId
       ∧ unreadCountOf caller chatId started.2 = 0%Z
       ∧ unreadCountOf friend chatId started.2 = 0%Z
       ∧ messages started.2 = messages st
       ∧ ∀ c, chats st !! chatId = Some c → chats started.2 !! chatId = Some c).
Proof.
  intros Hcaller. simpl. unfold startChatWithFriend. task.
  rewrite (truthyId_Some _ Hcaller). simpl. split.
  - intros ->. rewrite bool_decide_eq_false_2; [done|by intros [? ?]].
  - intros Hedge. rewrite bool_decide_eq_true_2 by done. simpl.
    unfold unreadCountOf.
    destruct (chats st !! generateChatId caller friend) as [c|] eqn:Hc; simpl.
    + split; [done|]. split.
      { rewrite lookup_insert. case_decide; [done|].
        by rewrite lookup_insert_eq. }
      split; [by rewrite lookup_insert_eq|]. split; [done|].
      by intros ? [= <-].
    + split; [done|]. split.
      { rewrite lookup_insert. case_decide; [done|].
        by rewrite lookup_insert_eq. }
      split; [by rewrite lookup_insert_eq|]. done.
Qed.

Lemma startChatWithFriend_resets_witness :
  unreadCountOf "u2" "u1_u2" hiSent = 1%Z
  ∧ (startChatWithFriend (Some "u1") "u2" 300 hiSent).1 = inr "u1_u2"
  ∧ unreadCountOf "u2" "u1_u2"
      (startChatWithFriend (Some "u1") "u2" 300 hiSent).2 = 0%Z
  ∧ startChatWithFriend (Some "u1") "u3" 300 hiSent
    = (inl "Can only chat with friends", hiSent).
Proof.
  assert ("u1" ≠ "") as Hne by done.
  destruct (startChatWithFriend_resets hiSent "u1" "u2" 300 Hne) as [_ Hok].
  destruct (startChatWithFriend_resets hiSent "u1" "u3" 300 Hne) as [Hno _].
  destruct Hok as (H1 & _ & H2 & _); [by eexists|].
  split; [reflexivity|]. split; [exact H1|]. split; [exact H2|].
  apply Hno. reflexivity.
Defined.

Lemma last_in_limitToLast {A} (l : list A) (x : A) (n : nat) :
  last l = Some x → 0 < n → x ∈ drop (length l - n) l.
Proof.
  intros [l' ->]%last_Some Hn.
  rewrite length_app, drop_app_le by (simpl; lia).
  apply elem_of_app. right. apply list_elem_of_singleton. done.
Qed.

Lemma greatest_key_last {V} (l : list (nat * V)) (x : nat * V) :
  StronglySorted (λ a b, a.1 < b.1) l → x ∈ l →
  (∀ y, y ∈ l → y.1 ≤ x.1) → last l = Some x.
Proof.
  intros Hsorted Hin Hmax.
  apply list_elem_of_split in Hin as (l1 & l2 & ->).
  destruct l2 as [|y l2].
  - apply last_Some. by exists l1.
  - exfalso. apply StronglySorted_app_1_r, StronglySorted_inv in Hsorted
      as [_ Hx].
    apply Forall_cons in Hx as [Hx _].
    assert (y.1 ≤ x.1); [|lia].
    apply Hmax. apply elem_of_app. right. right. left.
Qed.

(** X9.  A message that [sendMessage] has stored, whatever key [push]
    made for it, is in the list that [getChatMessages] returns to the
    sender, and to the recipient, under its key and with its sender,
    recipient and text as sent: for every positive limit that the number
    of messages then in the thread does not exceed, and for every positive
    limit at all when the key sorts after the keys the thread held. *)
Theorem sendMessage_then_getChatMessages (push : list nat → nat) (st : Store)
    (sender recipient body : string) (now limit : Z) (key : nat) :
  let sent := sendMessageWith push (Some sender) recipient body now st in
  let chatId := generateChatId sender recipient in
  sent.1 = Ok key →
  (0 < limit)%Z →
  ((Z.of_nat (length (childrenNat chatId (messages sent.2))) ≤ limit)%Z
   ∨ (∀ k m, messages st !! (chatId, k) = Some m → k ≤ key)) →
  (key, mkMessage sender recipient body now false)
    ∈ getChatMessages (Some sender) recipient limit sent.2
  ∧ (recipient ≠ "" →
     (key, mkMessage sender recipient body now false)
       ∈ getChatMessages (Some recipient) sender limit sent.2).
Proof.
  simpl. intros Hok Hlimit.
  assert (∃ st1, (sendMessageWith push (Some sender) recipient body now st).2
                 = st1
                 ∧ sender ≠ ""
                 ∧ messages st1
                   = <[(generateChatId sender recipient, key) :=
                         mkMessage sender recipient body now false]>
                       (messages st))
    as (st1 & -> & Hsender & Hmsgs).
  { revert Hok. unfold sendMessageWith. async.
    destruct (truthyId (Some sender)) as [u|] eqn:Hu; simpl; [|done].
    apply truthyId_inv in Hu as [[= <-] Hsender].
    destruct (bool_decide _); simpl; [|done].
    destruct (users st !! sender); simpl; [|done].
    intros [= <-]. eexists. split; [done|]. done. }
  intros Hwindow.
  assert (∀ u o, generateChatId u o = generateChatId sender recipient →
            u ≠ "" →
            (key, mkMessage sender recipient body now false)
              ∈ getChatMessages (Some u) o limit st1) as Hget.
  { intros u o Hchat Hu. unfold getChatMessages, messagesList, limitToLast.
    rewrite (truthyId_Some _ Hu), Hchat.
    destruct (Z.leb_spec limit 0); [lia|]. simpl.
    apply elem_of_sortBy.
    assert ((key, mkMessage sender recipient body now false)
              ∈ childrenNat (generateChatId sender recipient) (messages st1))
      as Hin.
    { apply elem_of_childrenNat. by rewrite Hmsgs, lookup_insert_eq. }
    destruct Hwindow as [Hsize|Hmax].
    - by replace (length _ - Z.to_nat limit) with 0 by lia.
    - apply last_in_limitToLast; [|lia].
      apply greatest_key_last; [apply childrenNat_strictly_sorted|done|].
      intros [k m] Hin'. simpl. apply elem_of_childrenNat in Hin'.
      rewrite Hmsgs, lookup_insert in Hin'. case_decide as Hk.
      + injection Hk as <-. done.
      + by eapply Hmax. }
  split.
  - by apply Hget.
  - intros Hrecipient. apply Hget; [apply generateChatId_swap|done].
Qed.

Lemma sendMessage_then_getChatMessages_witness :
  (1, mkMessage "u1" "u2" "hi" 102 false)
    ∈ getChatMessages (Some "u1") "u2" 1 hiSent
  ∧ (0, mkMessage "u2" "u1" "yo" 102 false)
      ∈ getChatMessages (Some "u1") "u2" 50
          (sendMessageWith pushKeyLeast (Some "u2") "u1" "yo" 102 hiSent).2.
Proof.
  assert (0 < 1)%Z as H1 by lia.
  assert (0 < 50)%Z as H50 by lia.
  assert ("u1" ≠ "") as Hne by done.
  destruct (sendMessage_then_getChatMessages pushKey friendsMade "u1" "u2" "hi"
              102 1 1 eq_refl H1) as [Hsender _].
  { right. intros k m Hm. vm_compute in Hm. discriminate. }
  destruct (sendMessage_then_getChatMessages pushKeyLeast hiSent "u2" "u1" "yo"
              102 50 0 eq_refl H50) as [_ Hrecipient].
  { left. vm_compute. discriminate. }
  exact (conj Hsender (Hrecipient Hne)).
Defined.

(** *** Children of a node after a write *)

Section ChildrenWrites.
Context `{Countable K1} `{Countable K2} {V : Type}.
Implicit Types (m : gmap (K1 * K2) V).

Lemma childEntries_insert_fresh p q c v m :
  m !! (q, c) = None →
  childEntries p (<[(q, c) := v]> m)
  ≡ₚ (if decide (q = p) then [(c, v)] else []) ++ childEntries p m.
Proof.
  intros Hfresh. unfold childEntries.
  rewrite map_to_list_insert by done. simpl.
  by destruct (decide (q = p)).
Qed.

Lemma childEntries_delete p q c m :
  childEntries p m
  ≡ₚ match m !! (q, c) with
     | Some v => if decide (q = p) then [(c, v)] else []
     | None => []
     end ++ childEntries p (delete (q, c) m).
Proof.
  destruct (m !! (q, c)) as [v|] eqn:Hv.
  - rewrite <- (insert_delete_id m (q, c) v Hv) at 1.
    apply childEntries_insert_fresh, lookup_delete_eq.
  - by rewrite delete_id.
Qed.

Lemma childEntries_insert p q c v m :
  childEntries p (<[(q, c) := v]> m)
  ≡ₚ (if decide (q = p) then [(c, v)] else [])
     ++ childEntries p (delete (q, c) m).
Proof.
  rewrite <- insert_delete_eq.
  apply childEntries_insert_fresh, lookup_delete_eq.
Qed.

Lemma childEntries_insert_other p q c v m :
  q ≠ p → childEntries p (<[(q, c) := v]> m) ≡ₚ childEntries p m.
Proof.
  intros Hne. rewrite childEntries_insert, (childEntries_delete p q c m).
  rewrite decide_False by done.
  destruct (m !! (q, c)); by rewrite ?decide_False by done.
Qed.
End ChildrenWrites.

Lemma foldl_sumUnread (l : list (string * UserChat)) (a : Z) :
  foldl (λ acc kv, (acc + orZero (unreadCount kv.2))%Z) a l
  = (a + sumUnread l)%Z.
Proof.
  revert a. induction l as [|x l IH]; intros a; simpl; [lia|].
  rewrite IH. lia.
Qed.

#[global] Instance sumUnread_Permutation : Proper ((≡ₚ) ==> (=)) sumUnread.
Proof.
  intros l k Hp. induction Hp; simpl; [done|lia|lia|congruence].
Qed.

Lemma getTotalUnreadCount_sum st u :
  u ≠ "" →
  getTotalUnreadCount (Some u) st = sumUnread (childEntries u (userChats st)).
Proof.
  intros Hu. unfold getTotalUnreadCount. rewrite (truthyId_Some _ Hu).
  rewrite foldl_sumUnread. unfold childrenStr.
  by rewrite merge_sort_Permutation.
Qed.

Lemma sumUnread_insert (m : gmap (string * string) UserChat) u c v :
  sumUnread (childEntries u (<[(u, c) := v]> m))
  = (sumUnread (childEntries u m) + orZero (unreadCount v)
     - match m !! (u, c) with
       | Some v0 => orZero (unreadCount v0)
       | None => 0
       end)%Z.
Proof.
  rewrite childEntries_insert, (childEntries_delete u u c m).
  rewrite decide_True by done.
  destruct (m !! (u, c)); rewrite ?decide_True by done; simpl; lia.
Qed.

(** X10.  [getTotalUnreadCount] of a signed-in user is the sum of the
    unread counts of that user's thread summaries; a successful
    [sendMessage] to another user raises the recipient's total by exactly
    one and leaves the sender's total as it was. *)
Theorem sendMessage_total_unread (st : Store) (sender recipient body : string)
    (now : Z) (key : nat) :
  let sent := sendMessage (Some sender) recipient body now st in
  sent.1 = Ok key →
  sender ≠ recipient → recipient ≠ "" →
  getTotalUnreadCount (Some recipient) sent.2
  = (getTotalUnreadCount (Some recipient) st + 1)%Z
  ∧ getTotalUnreadCount (Some sender) sent.2
    = getTotalUnreadCount (Some sender) st.
Proof.
  simpl. intros Hok Hne Hrecipient.
  revert Hok. unfold sendMessage, sendMessageWith. async.
  destruct (truthyId (Some sender)) as [u|] eqn:Hu; simpl; [|done].
  apply truthyId_inv in Hu as [[= <-] Hsender].
  destruct (bool_decide _); simpl; [|done].
  destruct (users st !! sender); simpl; [|done].
  intros _. rewrite !getTotalUnreadCount_sum by done. simpl.
  unfold unreadCountOf. simpl.
  rewrite ?lookup_insert_ne by congruence.
  split.
  - rewrite sumUnread_insert. rewrite lookup_insert_ne by congruence.
    rewrite childEntries_insert_other by done. simpl.
    destruct (userChats st !! (recipient, generateChatId sender recipient));
      simpl; lia.
  - rewrite childEntries_insert_other by done.
    rewrite sumUnread_insert. simpl.
    destruct (userChats st !! (sender, generateChatId sender recipient));
      simpl; lia.
Qed.

Lemma sendMessage_total_unread_witness :
  getTotalUnreadCount (Some "u2") hiSent = 1%Z
  ∧ getTotalUnreadCount (Some "u1") hiSent = 0%Z.
Proof.
  assert ("u1" ≠ "u2") as Hne by done.
  assert ("u2" ≠ "") as Hrecipient by done.
  exact (sendMessage_total_unread friendsMade "u1" "u2" "hi" 102 1 eq_refl
           Hne Hrecipient).
Defined.

Lemma StronglySorted_impl {A} (R R' : relation A) (l : list A) :
  (∀ a b, R a b → R' a b) → StronglySorted R l → StronglySorted R' l.
Proof.
  intros HR. induction 1 as [|x l Hl IH Hx]; constructor; [done|].
  eapply Forall_impl; [exact Hx|]. auto.
Qed.

Lemma head_last_sorted {A} (R : relation A) (l : list A) (a b : A) :
  StronglySorted R l → head l = Some a → last l = Some b → a = b ∨ R a b.
Proof.
  intros Hsorted Hhead Hlast. destruct l as [|x l]; [done|].
  injection Hhead as ->.
  apply StronglySorted_inv in Hsorted as [_ Ha].
  apply last_Some in Hlast as [l' Hl'].
  assert (b ∈ a :: l) as [->|Hin]%elem_of_cons.
  { rewrite Hl'. apply elem_of_app. right. by apply list_elem_of_singleton. }
  - by left.
  - right. rewrite Forall_forall in Ha. by apply Ha.
Qed.

(** X11.  The list of [getUserChats] holds an entry for each thread
    summary of the signed-in user whose other participant has a stored
    profile, with the summary's unread count and last message time read
    with [|| 0], and no other entry; no two entries are of the same
    thread; and the list is in descending order of last message time. *)
Theorem getUserChats_sorted (st : Store) (u : string) :
  u ≠ "" →
  let chatsList := getUserChats (Some u) st in
  StronglySorted
    (λ a b, (entryLastMessageTime b ≤ entryLastMessageTime a)%Z) chatsList
  ∧ NoDup (entryChatId <$> chatsList)
  ∧ ∀ e, e ∈ chatsList
         ↔ ∃ c, userChats st !! (u, entryChatId e) = Some c
                ∧ users st !! interpolate (otherUserId c)
                  = Some (entryOtherProfile e)
                ∧ e = mkChatListEntry (entryChatId e) (otherUserId c)
                        (entryOtherProfile e) (default "" (lastMessage c))
                        (orZero (lastMessageTime c)) (orZero (unreadCount c)).
Proof.
  intros Hu. simpl. unfold getUserChats. rewrite (truthyId_Some _ Hu).
  split; [|split].
  - eapply StronglySorted_impl; [|apply sortBy_sorted]. simpl. lia.
  - rewrite sortBy_Permutation.
    pose proof (NoDup_childrenStr u (userChats st)) as Hkeys.
    induction (childrenStr u (userChats st)) as [|[k c] l IH]; simpl;
      [constructor|].
    apply NoDup_cons in Hkeys as [Hk Hkeys].
    destruct (users st !! interpolate (otherUserId c)) as [p|]; simpl;
      [|by apply IH].
    constructor; [|by apply IH].
    intros Hin. apply Hk.
    apply list_elem_of_fmap in Hin as (e & -> & He).
    apply list_elem_of_omap in He as ([k' c'] & Hin & Hf). simpl in Hf.
    destruct (users st !! interpolate (otherUserId c')); [|done].
    injection Hf as <-. simpl.
    apply list_elem_of_fmap. by exists (k', c').
  - intros e. rewrite elem_of_sortBy, list_elem_of_omap. split.
    + intros ([k c] & Hin & Hf). simpl in Hf.
      apply elem_of_childrenStr in Hin.
      destruct (users st !! interpolate (otherUserId c)) as [p|] eqn:Hp;
        [|done].
      injection Hf as <-. simpl. by exists c.
    + intros (c & Hc & Hp & He). exists (entryChatId e, c). split.
      * by apply elem_of_childrenStr.
      * simpl. rewrite Hp. by rewrite He at 3.
Qed.

Lemma getUserChats_sorted_witness :
  StronglySorted
    (λ a b, (entryLastMessageTime b ≤ entryLastMessageTime a)%Z)
    (getUserChats (Some "u2") hiSent)
  ∧ entryUnreadCount <$> getUserChats (Some "u2") hiSent = [1%Z].
Proof.
  assert ("u2" ≠ "") as Hne by done.
  destruct (getUserChats_sorted hiSent "u2" Hne) as (Hsorted & _ & _).
  split; [exact Hsorted|reflexivity].
Defined.

Lemma length_filter_disjoint {A} (P Q : A → Prop)
    `{∀ x, Decision (P x)} `{∀ x, Decision (Q x)} (l : list A) :
  (∀ x, P x → Q x → False) →
  length (filter P l) + length (filter Q l) ≤ length l.
Proof.
  intros Hdisjoint. induction l as [|x l IH]; simpl; [done|].
  rewrite !filter_cons.
  destruct (decide (P x)), (decide (Q x)); simpl; try lia.
  exfalso. eauto.
Qed.

Lemma getChatMessages_sorted st cur other limit :
  StronglySorted messageBefore (getChatMessages cur other limit st).
Proof.
  unfold getChatMessages. destruct (truthyId cur); [|constructor].
  destruct (messagesList _ limit st) as [l|] eqn:Hl; simpl; [|constructor].
  by apply messagesList_ordered in Hl as [Hsorted _].
Qed.

Lemma length_getChatMessages st cur other limit :
  (Z.of_nat (length (getChatMessages cur other limit st)) ≤ Z.max limit 0)%Z.
Proof.
  unfold getChatMessages, messagesList, limitToLast.
  destruct (truthyId cur); simpl; [|lia].
  destruct (Z.leb_spec limit 0); simpl; [lia|].
  rewrite length_sortBy, length_drop. lia.
Qed.

(** X12.  The statistics of a thread count at most 1000 messages; when
    the caller is not the other participant, the messages sent and the
    messages received together are at most the total; and the first
    message date is never after the last. *)
Theorem getChatStatistics_bounds (st : Store) (cur : option string)
    (other : string) :
  let stats := getChatStatistics cur other st in
  totalMessages stats ≤ 1000
  ∧ (cur ≠ Some other →
     messagesSent stats + messagesReceived stats ≤ totalMessages stats)
  ∧ (∀ a b, firstMessageDate stats = Some a → lastMessageDate stats = Some b →
            (a ≤ b)%Z).
Proof.
  simpl. unfold getChatStatistics. simpl. split; [|split].
  - pose proof (length_getChatMessages st cur other 1000). lia.
  - intros Hne. apply length_filter_disjoint.
    intros m Hsent Hreceived. apply Hne. by rewrite <- Hsent, Hreceived.
  - intros a b Hfirst Hlast.
    destruct (head _) as [x|] eqn:Hx; [|done].
    destruct (last _) as [y|] eqn:Hy; [|done].
    simpl in *. injection Hfirst as <-. injection Hlast as <-.
    destruct (head_last_sorted _ _ _ _ (getChatMessages_sorted st cur other 1000)
                Hx Hy) as [->|Hbefore]; [lia|].
    unfold messageBefore in Hbefore. lia.
Qed.

Lemma getChatStatistics_bounds_witness :
  messagesSent (getChatStatistics (Some "u1") "u2" tiedMessages)
  + messagesReceived (getChatStatistics (Some "u1") "u2" tiedMessages) ≤ 2
  ∧ (102 ≤ 102)%Z.
Proof.
  destruct (getChatStatistics_bounds tiedMessages (Some "u1") "u2")
    as (_ & Hsum & Hdates).
  split.
  - apply Hsum. done.
  - exact (Hdates 102%Z 102%Z eq_refl eq_refl).
Defined.

Lemma sendMessage_messages st cur recipient body now :
  messages (sendMessage cur recipient body now st).2 = messages st
  ∨ ∃ u key,
      truthyId cur = Some u
      ∧ messages (sendMessage cur recipient body now st).2
        = <[(generateChatId u recipient, key) :=
              mkMessage u recipient body now false]> (messages st).
Proof.
  unfold sendMessage, sendMessageWith. async.
  destruct (truthyId cur) as [u|]; simpl; [|by left].
  destruct (bool_decide _); simpl; [|by left].
  right. exists u. eexists. split; [done|].
  destruct (users st !! u); simpl; done.
Qed.

(** X13.  [handleSendMessage] shows no alert and writes nothing when the
    input is blank; every message it adds to the database carries the
    trimmed input as its text, which is not empty; and when it has sent
    a message the unread count of the sender's summary of that thread is
    0. *)
Theorem handleSendMessage_no_blank (st : Store) (cur chatUser : option string)
    (input : string) (now : Z) :
  let handled := handleSendMessage cur chatUser input now st in
  (trim input = "" → handled = (None, st))
  ∧ (∀ i m, messages handled.2 !! i = Some m → messages st !! i = None →
            text m = trim input ∧ text m ≠ "")
  ∧ (∀ u other, handled.1 = None → trim input ≠ "" →
                truthyId cur = Some u → chatUser = Some other →
                unreadCountOf u (generateChatId u other) handled.2 = 0%Z).
Proof.
  simpl. unfold handleSendMessage. split; [|split].
  - intros Hblank. destruct chatUser; [|done]. by rewrite decide_True.
  - intros i m. destruct chatUser as [other|]; simpl; [|congruence].
    destruct (decide (trim input = "")) as [|Hnonblank]; simpl; [congruence|].
    destruct (sendMessage_messages st cur other (trim input) now)
      as [Hsame|(u & key & Hu & Hnew)].
    + destruct (sendMessage cur other (trim input) now st) as [[k|e] st'];
        simpl in *; [|congruence].
      destruct (truthyId cur) as [u|] eqn:Hu.
      * apply truthyId_inv in Hu as [-> Hu]. destruct i as [c k'].
        rewrite markMessagesAsRead_messages by done. rewrite Hsame.
        intros Hm Hnone. rewrite Hnone in Hm. by case_decide.
      * unfold markMessagesAsRead. rewrite Hu. simpl. congruence.
    + apply truthyId_inv in Hu as [-> Hu].
      destruct (sendMessage (Some u) other (trim input) now st)
        as [[k|e] st']; simpl in *.
      * destruct i as [c k']. rewrite markMessagesAsRead_messages by done.
        rewrite Hnew. rewrite lookup_insert.
        destruct (decide ((generateChatId u other, key) = (c, k'))) as [Hi|Hi].
        -- intros Hm _. case_decide; simplify_eq/=; done.
        -- intros Hm Hnone. rewrite Hnone in Hm. by case_decide.
      * rewrite Hnew. rewrite lookup_insert.
        case_decide; [|congruence]. by intros [= <-].
  - intros u other Hnone Hnonblank Hu ->. revert Hnone.
    rewrite decide_False by done.
    apply truthyId_inv in Hu as [-> Hu].
    destruct (sendMessage (Some u) other (trim input) now st) as [[k|e] st'];
      simpl; [|done].
    intros _. unfold unreadCountOf.
    rewrite markMessagesAsRead_userChats by done.
    by rewrite lookup_insert_eq.
Qed.

Lemma handleSendMessage_no_blank_witness :
  handleSendMessage (Some "u1") (Some "u2") "   " 102 friendsMade
  = (None, friendsMade)
  ∧ unreadCountOf "u2" (generateChatId "u2" "u1")
      (handleSendMessage (Some "u2") (Some "u1") " yo " 103 hiSent).2 = 0%Z.
Proof.
  destruct (handleSendMessage_no_blank friendsMade (Some "u1") (Some "u2")
              "   " 102) as (Hblank & _ & _).
  destruct (handleSendMessage_no_blank hiSent (Some "u2") (Some "u1")
              " yo " 103) as (_ & _ & Hread).
  split; [exact (Hblank eq_refl)|].
  apply Hread; [reflexivity|done|reflexivity|reflexivity].
Defined.

(** X14.  Opening a chat with a user who is not a friend alerts and
    writes nothing; opening one with a friend shows no alert and leaves
    the unread count of both participants' summaries of the thread at 0
    and every message of the thread addressed to the caller read. *)
Theorem openChat_marks_read (st : Store) (caller friend : string) (now : Z) :
  caller ≠ "" →
  let chatId := generateChatId caller friend in
  let opened := openChat (Some caller) friend now st in
  (friends st !! (caller, friend) = None →
     opened = (Some "Failed to open chat", st))
  ∧ (is_Some (friends st !! (caller, friend)) →
       opened.1 = None
       ∧ unreadCountOf caller chatId opened.2 = 0%Z
       ∧ unreadCountOf friend chatId opened.2 = 0%Z
       ∧ ∀ k m, messages opened.2 !! (chatId, k) = Some m →
                recipientId m = caller → read m = true).
Proof.
  intros Hcaller. simpl. unfold openChat. split.
  - intros Hnone. unfold startChatWithFriend. task.
    rewrite (truthyId_Some _ Hcaller). simpl. rewrite Hnone.
    rewrite bool_decide_eq_false_2; [done|by intros [? ?]].
  - intros Hedge.
    assert (∃ st1, startChatWithFriend (Some caller) friend now st
                   = (inr (generateChatId caller friend), st1)
                   ∧ unreadCountOf friend (generateChatId caller friend) st1
                     = 0%Z) as (st1 & -> & Hfriend).
    { unfold startChatWithFriend. task.
      rewrite (truthyId_Some _ Hcaller). simpl.
      rewrite bool_decide_eq_true_2 by done. simpl.
      unfold unreadCountOf.
      destruct (chats st !! _); simpl; eexists; (split; [done|]); simpl;
        by rewrite lookup_insert_eq. }
    simpl. split; [done|]. unfold unreadCountOf in *.
    rewrite markMessagesAsRead_userChats by done.
    split; [by rewrite lookup_insert_eq|]. split.
    + rewrite lookup_insert. case_decide as Heq; [by simplify_eq|done].
    + intros k m. by apply markMessagesAsRead_all_read.
Qed.

Lemma openChat_marks_read_witness :
  openChat (Some "u2") "u3" 300 hiSent = (Some "Failed to open chat", hiSent)
  ∧ unreadCountOf "u1" (generateChatId "u2" "u1")
      (openChat (Some "u2") "u1" 300 hiSent).2 = 0%Z
  ∧ messages (openChat (Some "u2") "u1" 300 hiSent).2 !! ("u1_u2", 1)
    = Some (mkMessage "u1" "u2" "hi" 102 true).
Proof.
  assert ("u2" ≠ "") as Hne by done.
  destruct (openChat_marks_read hiSent "u2" "u3" 300 Hne) as [Hno _].
  destruct (openChat_marks_read hiSent "u2" "u1" 300 Hne) as [_ Hok].
  destruct Hok as (_ & _ & Hfriend & _); [by eexists|].
  split; [exact (Hno eq_refl)|]. split; [exact Hfriend|reflexivity].
Defined.

(** ** The notification engine *)

Lemma unread_notifications_insert st owner key n :
  owner ≠ "" →
  notifications st !! (owner, key) = None →
  ∀ other,
    getUnreadNotificationsCount (Some other)
      (withNotifications (<[(owner, key) := n]> (notifications st)) st)
    = (if decide (other = owner) then (if nread n then 0 else 1) else 0)
      + getUnreadNotificationsCount (Some other) st.
Proof.
  intros Howner Hfresh other. unfold getUnreadNotificationsCount.
  destruct (truthyId (Some other)) as [u|] eqn:Hu; simpl.
  - apply truthyId_inv in Hu as [[= <-] Hother].
    unfold childrenNat. rewrite !merge_sort_Permutation.
    rewrite childEntries_insert_fresh by done.
    rewrite filter_app, length_app. f_equal.
    destruct (decide (owner = other)) as [->|Hne].
    + rewrite decide_True by done. rewrite filter_cons. simpl.
      destruct (nread n); by simpl.
    + by rewrite decide_False by done.
  - unfold truthyId in Hu. destruct (decide (other = "")) as [->|]; [|done].
    by rewrite decide_False.
Qed.

(** X15.  [addNotification] is additive: it stores the notification
    unread under a new key of the owner, keeps every notification already
    stored, raises the owner's unread count by exactly one and leaves
    every other user's unread count as it was. *)
Theorem addNotification_additive (st : Store) (owner : string)
    (data : NotificationData) (now : Z) :
  owner ≠ "" →
  let added := addNotification owner data now st in
  ∃ key,
    added.1 = Ok key
    ∧ notifications st !! (owner, key) = None
    ∧ notifications added.2 !! (owner, key)
      = Some (mkNotification data key false now)
    ∧ (∀ i n, notifications st !! i = Some n →
              notifications added.2 !! i = Some n)
    ∧ getUnreadNotificationsCount (Some owner) added.2
      = S (getUnreadNotificationsCount (Some owner) st)
    ∧ ∀ other, other ≠ owner →
        getUnreadNotificationsCount (Some other) added.2
        = getUnreadNotificationsCount (Some other) st.
Proof.
  intros Howner. simpl. unfold addNotification, addNotificationWith.
  set (key := pushKey (childrenNat owner (notifications st)).*1).
  assert (notifications st !! (owner, key) = None) as Hfresh
    by apply pushKey_childrenNat_fresh.
  exists key. simpl. split; [done|]. split; [done|].
  split; [by rewrite lookup_insert_eq|]. split.
  { intros i n Hn. rewrite lookup_insert_ne; [done|]. congruence. }
  split.
  - rewrite unread_notifications_insert by done. by rewrite decide_True.
  - intros other Hother.
    rewrite unread_notifications_insert by done. by rewrite decide_False.
Qed.

Lemma addNotification_additive_witness :
  getUnreadNotificationsCount (Some "u2") requestSent
  = S (getUnreadNotificationsCount (Some "u2") threeUsers)
  ∧ getUnreadNotificationsCount (Some "u1") requestSent
    = getUnreadNotificationsCount (Some "u1") threeUsers.
Proof.
  assert ("u2" ≠ "") as Hne by done.
  destruct (addNotification_additive threeUsers "u2"
              (mkNotificationData FRIEND_REQUEST "u1"
                 "Alice sent you a friend request" 100 None None) 100 Hne)
    as (key & _ & _ & _ & _ & Howner & Hother).
  split; [exact Howner|]. apply (Hother "u1"). done.
Defined.

Lemma nil_no_elements {A} (l : list A) : (∀ x, x ∉ l) → l = [].
Proof.
  destruct l as [|x l]; [done|]. intros Hl. exfalso. apply (Hl x). left.
Qed.

Lemma childrenNat_cleared st owner :
  childrenNat owner (filter (λ kv, kv.1.1 ≠ owner) (notifications st)) = [].
Proof.
  apply nil_no_elements. intros [k n] Hin.
  apply elem_of_childrenNat, map_lookup_filter_Some in Hin as [_ Hne].
  by apply Hne.
Qed.

(** X16.  [clearAllNotifications] by a signed-in owner leaves the owner
    with no notification and an unread count of 0, keeps the notifications
    of every other user, and changes nothing when repeated;
    [deleteNotification] removes the one notification named and keeps
    every other. *)
Theorem clearAllNotifications_empties (st : Store) (owner : string) :
  owner ≠ "" →
  let cleared := clearAllNotifications (Some owner) st in
  (∀ limit, getUserNotifications (Some owner) limit cleared = [])
  ∧ getUnreadNotificationsCount (Some owner) cleared = 0
  ∧ (∀ other k, other ≠ owner →
       notifications cleared !! (other, k) = notifications st !! (other, k))
  ∧ clearAllNotifications (Some owner) cleared = cleared
  ∧ (∀ id, notifications (deleteNotification (Some owner) id st) !! (owner, id)
           = None
           ∧ ∀ i, i ≠ (owner, id) →
               notifications (deleteNotification (Some owner) id st) !! i
               = notifications st !! i).
Proof.
  intros Howner. simpl.
  unfold clearAllNotifications, deleteNotification,
    getUserNotifications, getUnreadNotificationsCount.
  rewrite !(truthyId_Some _ Howner). simpl.
  rewrite childrenNat_cleared. split.
  { intros limit. unfold limitToLast. by destruct (limit <=? 0)%Z. }
  split; [done|]. split.
  { intros other k Hother.
    destruct (notifications st !! (other, k)) as [n|] eqn:Hn.
    - by apply map_lookup_filter_Some.
    - apply map_lookup_filter_None. by left. }
  split.
  { unfold withNotifications. simpl. f_equal.
    apply map_filter_id. intros [o k] n Hin.
    by apply map_lookup_filter_Some in Hin as [_ Hne]. }
  intros id. split; [apply lookup_delete_eq|].
  intros i Hi. by apply lookup_delete_ne.
Qed.

Lemma clearAllNotifications_empties_witness :
  getUserNotifications (Some "u1") 50 (clearAllNotifications (Some "u1") hiSent)
  = []
  ∧ notifications (clearAllNotifications (Some "u1") hiSent) !! ("u2", 1)
    = notifications hiSent !! ("u2", 1).
Proof.
  assert ("u1" ≠ "") as Hne by done.
  destruct (clearAllNotifications_empties hiSent "u1" Hne)
    as (Hlist & _ & Hother & _).
  split; [exact (Hlist 50%Z)|]. apply Hother. done.
Defined.

(** X17.  The list of [getUserNotifications] holds stored notifications of
    the signed-in user, at most [limit] of them, newest first; each entry
    carries the profile of the notification's sender when one is
    stored. *)
Theorem getUserNotifications_sorted (st : Store) (cur : option string)
    (limit : Z) :
  let list := getUserNotifications cur limit st in
  StronglySorted
    (λ a b, (ncreatedAt (entryNotification b)
             ≤ ncreatedAt (entryNotification a))%Z) list
  ∧ (Z.of_nat (length list) ≤ Z.max limit 0)%Z
  ∧ ∀ e, e ∈ list →
      ∃ u, truthyId cur = Some u
           ∧ notifications st !! (u, entryId e) = Some (entryNotification e)
           ∧ senderProfile e
             = if decide (nfrom (ndata (entryNotification e)) = "") then None
               else users st !! nfrom (ndata (entryNotification e)).
Proof.
  simpl. unfold getUserNotifications, limitToLast.
  destruct (truthyId cur) as [u|]; simpl;
    [|split; [constructor|split; [lia|by intros ? ?%elem_of_nil]]].
  destruct (Z.leb_spec limit 0); simpl;
    [split; [constructor|split; [lia|by intros ? ?%elem_of_nil]]|].
  split; [|split].
  - eapply StronglySorted_impl; [|apply sortBy_sorted]. simpl. lia.
  - rewrite length_sortBy, length_fmap, length_drop. lia.
  - intros e Hin. apply elem_of_sortBy, list_elem_of_fmap in Hin
      as ([k n] & -> & Hin).
    apply subseteq_drop, elem_of_childrenNat in Hin. simpl. by exists u.
Qed.

Lemma getUserNotifications_sorted_witness :
  ∃ u, truthyId (Some "u2") = Some u
       ∧ notifications hiSent !! (u, 2)
         = Some (mkNotification
                   (mkNotificationData NEW_MESSAGE "u1" "Alice sent you a message"
                      102 (Some "u1_u2") None) 2 false 102).
Proof.
  destruct (getUserNotifications_sorted hiSent (Some "u2") 50) as (_ & _ & Hin).
  destruct (Hin (mkNotificationEntry 2
                   (mkNotification
                      (mkNotificationData NEW_MESSAGE "u1"
                         "Alice sent you a message" 102 (Some "u1_u2") None)
                      2 false 102) (Some alice)))
    as (u & Hu & Hn & _).
  - apply list_elem_of_here.
  - exists u. split; [exact Hu|exact Hn].
Defined.

Ltac steps :=
  unfold requireUser, nonNull, defined, getUserByUsername, getUserProfile,
    areFriends, getUnreadCount, updateUserChat, getPost, updatePost,
    bind, ret, throw, reads, writes in *;
  simpl in *.

Lemma unchanged_formatted st st' :
  notifications st' = notifications st → newMessagesFormatted st st'.
Proof. intros Heq owner k n Hn Hnone. congruence. Qed.

Lemma added_formatted st st' owner key data now p :
  notifications st'
  = <[(owner, key) := mkNotification data key false now]> (notifications st) →
  users st' = users st →
  nfrom data ≠ "" →
  users st !! nfrom data = Some p →
  (∀ k r c, nmessage data
            = formatNotificationMessage
                (mkNotificationEntry k (mkNotification data k r c) (Some p))) →
  newMessagesFormatted st st'.
Proof.
  intros Hn Hu Hfrom Hp Hformat owner' k n. rewrite Hn.
  rewrite lookup_insert. case_decide as Hk.
  - injection Hk as <- <-. intros [= <-] _. simpl.
    rewrite decide_False by done. rewrite Hu, Hp. apply Hformat.
  - congruence.
Qed.

Ltac formatted H :=
  eapply added_formatted; [done|done|done|eassumption|];
  intros ? ? ?; unfold formatNotificationMessage; simpl;
  rewrite H; simpl; by rewrite decide_False.

(** X18.  On a database where every profile has a display name that is
    not empty, the message that the engines store with a notification is
    the text that [formatNotificationMessage] renders for it: this holds
    of every notification that [sendFriendRequest], [acceptFriendRequest],
    [sendMessage], [togglePostLike] or [addComment] adds. *)
Theorem stored_messages_formatted (st : Store) (cur : option string)
    (other body : string) (postId : nat) (now : Z) :
  displayNamesSet st →
  newMessagesFormatted st (sendFriendRequest cur other now st).2
  ∧ newMessagesFormatted st (acceptFriendRequest cur other now st).2
  ∧ newMessagesFormatted st (sendMessage cur other body now st).2
  ∧ newMessagesFormatted st (togglePostLike cur postId now st).2
  ∧ newMessagesFormatted st (addComment cur postId body now st).2.
Proof.
  intros Hnamed.
  assert (∀ u, truthyId cur = Some u → u ≠ "") as Hne.
  { intros u Hu. by apply truthyId_inv in Hu as [_ ?]. }
  split; [|split; [|split; [|split]]].
  - unfold sendFriendRequest. steps.
    destruct (truthyId cur) as [u|] eqn:Hu; simpl;
      [|by apply unchanged_formatted].
    specialize (Hne u eq_refl).
    destruct (usernames st !! other) as [indexed|]; simpl;
      [|by apply unchanged_formatted].
    destruct (users st !! indexed) as [q0|]; simpl;
      [|by apply unchanged_formatted].
    destruct (findUidByUsername (users st) other) as [target|]; simpl;
      [|by apply unchanged_formatted].
    destruct (decide (target = u)); simpl; [by apply unchanged_formatted|].
    destruct (friends st !! (u, target)); simpl;
      [by apply unchanged_formatted|].
    destruct (friendRequests st !! (target, u)); simpl;
      [by apply unchanged_formatted|].
    destruct (friendRequests st !! (u, target)); simpl;
      [by apply unchanged_formatted|].
    destruct (users st !! u) as [p|] eqn:Hp; simpl;
      [|by apply unchanged_formatted].
    destruct (Hnamed u p Hp) as (d & Hd & Hdne).
    formatted Hd.
  - unfold acceptFriendRequest. steps.
    destruct (truthyId cur) as [u|] eqn:Hu; simpl;
      [|by apply unchanged_formatted].
    specialize (Hne u eq_refl).
    destruct (users st !! u) as [p|] eqn:Hp; simpl;
      [|by apply unchanged_formatted].
    destruct (Hnamed u p Hp) as (d & Hd & Hdne).
    formatted Hd.
  - unfold sendMessage, sendMessageWith. steps.
    destruct (truthyId cur) as [u|] eqn:Hu; simpl;
      [|by apply unchanged_formatted].
    specialize (Hne u eq_refl).
    destruct (bool_decide _); simpl; [|by apply unchanged_formatted].
    destruct (users st !! u) as [p|] eqn:Hp; simpl;
      [|by apply unchanged_formatted].
    destruct (Hnamed u p Hp) as (d & Hd & Hdne).
    formatted Hd.
  - unfold togglePostLike. steps.
    destruct (truthyId cur) as [u|] eqn:Hu; simpl;
      [|by apply unchanged_formatted].
    specialize (Hne u eq_refl).
    destruct (posts st !! postId) as [q|]; simpl;
      [|by apply unchanged_formatted].
    destruct (postIsNull q); simpl; [by apply unchanged_formatted|].
    destruct (bool_decide (u ∈ likes q)); simpl;
      [by apply unchanged_formatted|].
    destruct (decide (authorId q = Some u)); simpl;
      [by apply unchanged_formatted|].
    destruct (users st !! u) as [p|] eqn:Hp; simpl;
      [|by apply unchanged_formatted].
    destruct (Hnamed u p Hp) as (d & Hd & Hdne).
    formatted Hd.
  - unfold addComment. steps.
    destruct (truthyId cur) as [u|] eqn:Hu; simpl;
      [|by apply unchanged_formatted].
    specialize (Hne u eq_refl).
    destruct (decide (trim body = "")); simpl;
      [by apply unchanged_formatted|].
    destruct (users st !! u) as [p|] eqn:Hp; simpl;
      [|by apply unchanged_formatted].
    destruct (Hnamed u p Hp) as (d & Hd & Hdne).
    rewrite Hd. simpl.
    destruct (photoURL p) as [photo|]; simpl;
      [|by apply unchanged_formatted].
    rewrite !lookup_insert_eq. simpl.
    destruct (postIsNull _); simpl; [by apply unchanged_formatted|].
    destruct (decide (authorId _ = Some u)); simpl;
      [by apply unchanged_formatted|].
    formatted Hd.
Qed.

Lemma threeUsers_named : displayNamesSet threeUsers.
Proof.
  intros u p Hp. unfold threeUsers in Hp. simpl in Hp.
  rewrite !lookup_insert in Hp.
  repeat case_decide; simplify_eq; by eexists.
Qed.

Lemma stored_messages_formatted_witness :
  "Alice sent you a friend request"
  = formatNotificationMessage
      (mkNotificationEntry 1
         (mkNotification
            (mkNotificationData FRIEND_REQUEST "u1"
               "Alice sent you a friend request" 100 None None) 1 false 100)
         (Some alice)).
Proof.
  destruct (stored_messages_formatted threeUsers (Some "u1") "bob" "" 0 100
              threeUsers_named) as [Hsend _].
  exact (Hsend "u2" 1 _ eq_refl eq_refl).
Defined.

Lemma length_append (s t : string) :
  String.length (s +:+ t) = String.length s + String.length t.
Proof. induction s as [|c s IH]; simpl; [done|]. by rewrite IH. Qed.

Lemma append_not_just_now (s t : string) :
  8 ≤ String.length t → t ≠ "Just now" → s +:+ t ≠ "Just now".
Proof.
  intros Hlen Hne Heq.
  assert (String.length (s +:+ t) = 8) as Hl by (by rewrite Heq).
  rewrite length_append in Hl.
  destruct s as [|c s]; [done|]. simpl in Hl. lia.
Qed.

(** X19.  [formatTimeAgo] answers 'Just now' exactly when less than a
    minute has passed since the timestamp, a timestamp in the future
    included. *)
Theorem formatTimeAgo_just_now (timestamp now : Z) :
  formatTimeAgo timestamp now = "Just now" ↔ (now - timestamp < 60000)%Z.
Proof.
  unfold formatTimeAgo.
  set (diff := (now - timestamp)%Z).
  assert (∀ n unit, 3 ≤ String.length unit →
            pretty n +:+ " " +:+ unit +:+ (if (1 <? n)%Z then "s" else "")
              +:+ " ago" ≠ "Just now") as Hago.
  { intros n unit Hlen. apply append_not_just_now.
    - rewrite !length_append. simpl. destruct (1 <? n)%Z; simpl; lia.
    - assert (∀ x s t, String x s +:+ t = String x (s +:+ t)) as Hcons by done.
      rewrite Hcons. by intros [=]. }
  split.
  - intros Hjust.
    repeat match type of Hjust with
           | (if (0 <? ?x)%Z then _ else _) = _ =>
               destruct (Z.ltb_spec 0 x);
               [exfalso; revert Hjust; apply Hago; simpl; lia|]
           end.
    assert (diff `div` 1000 < 60)%Z; [|subst diff].
    { destruct (Z.lt_ge_cases (diff `div` 1000) 60) as [|Hge]; [done|].
      apply (Z.div_le_mono _ _ 60) in Hge; [|lia].
      change (60 `div` 60)%Z with 1%Z in Hge. lia. }
    destruct (Z.lt_ge_cases (now - timestamp) 60000) as [|Hge]; [done|].
    apply (Z.div_le_mono _ _ 1000) in Hge; [|lia].
    change (60000 `div` 1000)%Z with 60%Z in Hge. lia.
  - intros Hlt.
    assert (diff `div` 1000 < 60)%Z as Hs
      by (apply Z.div_lt_upper_bound; lia).
    assert ((diff `div` 1000) `div` 60 ≤ 0)%Z as Hm
      by (assert ((diff `div` 1000) `div` 60 < 1)%Z
            by (apply Z.div_lt_upper_bound; lia); lia).
    assert (((diff `div` 1000) `div` 60) `div` 60 ≤ 0)%Z as Hh
      by (apply Z.div_le_upper_bound; lia).
    assert ((((diff `div` 1000) `div` 60) `div` 60) `div` 24 ≤ 0)%Z as Hd
      by (apply Z.div_le_upper_bound; lia).
    assert (((((diff `div` 1000) `div` 60) `div` 60) `div` 24) `div` 7 ≤ 0)%Z
      by (apply Z.div_le_upper_bound; lia).
    assert (((((diff `div` 1000) `div` 60) `div` 60) `div` 24) `div` 30 ≤ 0)%Z
      by (apply Z.div_le_upper_bound; lia).
    assert (((((diff `div` 1000) `div` 60) `div` 60) `div` 24) `div` 365 ≤ 0)%Z
      by (apply Z.div_le_upper_bound; lia).
    repeat match goal with
           | |- (if (0 <? ?x)%Z then _ else _) = _ =>
               destruct (Z.ltb_spec 0 x); [lia|]
           end.
    done.
Qed.

Lemma formatTimeAgo_just_now_witness :
  formatTimeAgo 1000 60999 = "Just now" ∧ (61000 - 1000 < 60000 → False)%Z.
Proof.
  destruct (formatTimeAgo_just_now 1000 60999) as [_ Hnow].
  destruct (formatTimeAgo_just_now 1000 61000) as [_ _].
  split; [apply Hnow; lia|lia].
Defined.

(** ** Profiles and usernames *)

Lemma keptUsername_kept (existing : option Profile) d ph :
  keptUsername (Some (mkProfile d ph (keptUsername existing)))
  = keptUsername existing.
Proof.
  unfold keptUsername. destruct existing as [p|]; simpl; [|done].
  destruct (username p) as [n|]; simpl; [|done].
  destruct (decide (n = "")); simpl; [done|]. by rewrite decide_False.
Qed.






(** X22.  [storeUserProfile] stores the display name and photo it is
    given and keeps the username the user already has; it leaves the
    index and every other profile as they were, and storing the same data
    again changes nothing. *)
Theorem storeUserProfile_keeps_username (st : Store) (userData : UserData) :
  let stored := storeUserProfile userData st in
  let userUid := userDataUid userData in
  getCurrentUsername userUid stored.2 = getCurrentUsername userUid st
  ∧ (∃ p, stored.1 = Ok p
          ∧ users stored.2 !! userUid = Some p
          ∧ displayName p = userDataDisplayName userData
          ∧ photoURL p = userDataPhotoURL userData)
  ∧ usernames stored.2 = usernames st
  ∧ (∀ other, other ≠ userUid → users stored.2 !! other = users st !! other)
  ∧ storeUserProfile userData stored.2 = stored.
Proof.
  simpl. unfold storeUserProfile, getCurrentUsername. steps.
  rewrite !lookup_insert_eq, keptUsername_kept.
  split; [done|]. split; [by eexists|]. split; [done|].
  split; [by intros other Hother; rewrite lookup_insert_ne|].
  by rewrite insert_insert_eq.
Qed.

Lemma storeUserProfile_keeps_username_witness :
  getCurrentUsername "u1"
    (storeUserProfile (mkUserData "u1" (Some "Alice A.") None) threeUsers).2
  = Some "alice"
  ∧ storeUserProfile (mkUserData "u1" (Some "Alice A.") None)
      (storeUserProfile (mkUserData "u1" (Some "Alice A.") None) threeUsers).2
    = storeUserProfile (mkUserData "u1" (Some "Alice A.") None) threeUsers.
Proof.
  destruct (storeUserProfile_keeps_username threeUsers
              (mkUserData "u1" (Some "Alice A.") None))
    as (Hname & _ & _ & _ & Hagain).
  split; [exact Hname|exact Hagain].
Defined.



(** X23.  With nobody signed in, or a user whose identifier is a valid
    key, [handleSaveUsername] answers 'Username saved successfully!'
    exactly when the trimmed input has at least 3 characters, all of them
    letters, digits or underscores, and is not in the index.  Then the
    profile at [users/{uid}] carries the name and no other entry of the
    index changes; the index maps the name to the current user when one
    is signed in, and with nobody signed in the profile is the one at
    [users/null] and the index gets no entry, so the name stays available.
    In every other case the database is left as it was. *)
Theorem handleSaveUsername_valid (st : Store) (cur : option string)
    (input : string) :
  (∀ u, cur = Some u → validKey u = true) →
  let saved := handleSaveUsername cur input st in
  let name := trim input in
  (saved.1 = "Username saved successfully!"
   ↔ 3 ≤ utf16Length name
     ∧ isWord name = true
     ∧ usernames st !! name = None)
  ∧ (saved.1 = "Username saved successfully!" →
     usernames saved.2 !! name = cur
     ∧ getCurrentUsername (interpolateNull cur) saved.2 = Some name
     ∧ ∀ other, other ≠ name →
         usernames saved.2 !! other = usernames st !! other)
  ∧ (saved.1 ≠ "Username saved successfully!" → saved.2 = st).
Proof.
  intros _. simpl. unfold handleSaveUsername.
  destruct (decide (trim input = "")) as [Hblank|Hnonblank]; simpl.
  { rewrite Hblank. simpl. split; [|done]. split; [done|].
    intros [Hlen _]. vm_compute in Hlen. lia. }
  destruct (Nat.ltb_spec (utf16Length (trim input)) 3); simpl.
  { split; [|done]. split; [done|]. lia. }
  destruct (isWord (trim input)) eqn:Hword; simpl.
  2:{ split; [|done]. split; [done|]. by intros (_ & ? & _). }
  unfold setUsername, checkUsernameAvailability. task.
  destruct (usernames st !! trim input) as [v|] eqn:Hfree; simpl.
  { rewrite ?bool_decide_eq_false_2 by done. simpl.
    split; [|done]. split; [done|]. by intros (_ & _ & ?). }
  rewrite ?bool_decide_eq_true_2 by done. simpl.
  split; [done|]. split; [|done]. intros _.
  unfold getCurrentUsername, keptUsername. simpl.
  rewrite lookup_insert_eq. simpl. rewrite decide_False by done.
  destruct cur as [u|]; simpl.
  - rewrite lookup_insert_eq. split; [done|]. split; [done|].
    by intros other Hother; rewrite lookup_insert_ne.
  - rewrite lookup_delete_eq. split; [done|]. split; [done|].
    by intros other Hother; rewrite lookup_delete_ne.
Qed.

Lemma handleSaveUsername_valid_witness :
  usernames (handleSaveUsername (Some "u3") "  caz_3 " threeUsers).2 !! "caz_3"
  = Some "u3"
  ∧ usernames (handleSaveUsername None "neo" threeUsers).2 !! "neo" = None
  ∧ getCurrentUsername "null" (handleSaveUsername None "neo" threeUsers).2
    = Some "neo"
  ∧ (handleSaveUsername (Some "u3") "c z" threeUsers).2 = threeUsers
  ∧ (handleSaveUsername (Some "u3") "bob" threeUsers).2 = threeUsers.
Proof.
  assert (∀ u, Some "u3" = Some u → validKey u = true) as Hu3
    by (intros u [= <-]; reflexivity).
  assert (∀ u, None = Some u → validKey u = true) as Hnull
    by (intros u [=]).
  destruct (handleSaveUsername_valid threeUsers (Some "u3") "  caz_3 " Hu3)
    as (_ & Hsaved & _).
  destruct (handleSaveUsername_valid threeUsers None "neo" Hnull)
    as (_ & Hnobody & _).
  destruct (handleSaveUsername_valid threeUsers (Some "u3") "c z" Hu3)
    as (_ & _ & Hword).
  destruct (handleSaveUsername_valid threeUsers (Some "u3") "bob" Hu3)
    as (_ & _ & Htaken).
  destruct Hsaved as (Hindex & _); [vm_compute; reflexivity|].
  destruct Hnobody as (Hnone & Hprofile & _); [vm_compute; reflexivity|].
  split; [exact Hindex|]. split; [exact Hnone|]. split; [exact Hprofile|].
  split; [apply Hword|apply Htaken]; vm_compute; discriminate.
Defined.

(** ** The feed engine, continued *)

Lemma togglePostLike_existing st u postId now q :
  u ≠ "" → posts st !! postId = Some q → postIsNull q = false →
  posts (togglePostLike (Some u) postId now st).2
  = <[postId :=
        if bool_decide (u ∈ likes q)
        then withLikes (likes q ∖ {[u]}) (Some (orZero (likesCount q) - 1)%Z) q
        else withLikes (likes q ∪ {[u]}) (Some (orZero (likesCount q) + 1)%Z) q]>
      (posts st)
  ∧ ∀ b, (togglePostLike (Some u) postId now st).1 = Ok b →
         b = negb (bool_decide (u ∈ likes q)).
Proof.
  intros Hu Hq Hnull. unfold togglePostLike. async.
  rewrite (truthyId_Some _ Hu). simpl. rewrite Hq. simpl. rewrite Hnull. simpl.
  destruct (bool_decide (u ∈ likes q)); simpl; rewrite Hq; simpl.
  - split; [done|]. by intros b [= <-].
  - destruct (decide (authorId q = Some u)); simpl.
    + split; [done|]. by intros b [= <-].
    + destruct (users st !! u); simpl; (split; [done|]); [|done].
      by intros b [= <-].
Qed.

Lemma hasUserLikedPost_current st u postId :
  u ≠ "" →
  hasUserLikedPost (Some u) postId None st
  = bool_decide (u ∈ likes (default emptyPost (posts st !! postId))).
Proof.
  intros Hu. unfold hasUserLikedPost.
  replace (truthyId None) with (@None string) by done.
  by rewrite (truthyId_Some _ Hu).
Qed.

(** X24.  On an existing post [togglePostLike] flips whether
    [hasUserLikedPost] holds of the caller and returns the new state; a
    second call by the same user restores the like set and the count as
    read, and leaves the comments as they were. *)
Theorem togglePostLike_twice (st : Store) (u : string) (postId : nat)
    (now later : Z) (p : Post) :
  u ≠ "" →
  posts st !! postId = Some p →
  postIsNull p = false →
  let once := togglePostLike (Some u) postId now st in
  let twice := togglePostLike (Some u) postId later once.2 in
  hasUserLikedPost (Some u) postId None once.2
  = negb (hasUserLikedPost (Some u) postId None st)
  ∧ (∀ b, once.1 = Ok b → b = hasUserLikedPost (Some u) postId None once.2)
  ∧ ∃ p2, posts twice.2 !! postId = Some p2
          ∧ likes p2 = likes p
          ∧ orZero (likesCount p2) = orZero (likesCount p)
          ∧ comments p2 = comments p
          ∧ commentsCount p2 = commentsCount p.
Proof.
  intros Hu Hp Hnull. simpl.
  destruct (togglePostLike_existing st u postId now p Hu Hp Hnull)
    as [Hposts Hresult].
  set (p1 := if bool_decide (u ∈ likes p)
             then withLikes (likes p ∖ {[u]})
                    (Some (orZero (likesCount p) - 1)%Z) p
             else withLikes (likes p ∪ {[u]})
                    (Some (orZero (likesCount p) + 1)%Z) p) in *.
  assert (posts (togglePostLike (Some u) postId now st).2 !! postId = Some p1)
    as Hp1 by (by rewrite Hposts, lookup_insert_eq).
  assert (postIsNull p1 = false) as Hnull1.
  { apply bool_decide_eq_false_2.
    intros (_ & _ & _ & _ & _ & _ & _ & Hn & _).
    subst p1. by destruct (bool_decide (u ∈ likes p)). }
  assert (bool_decide (u ∈ likes p1) = negb (bool_decide (u ∈ likes p)))
    as Hflip.
  { subst p1. destruct (bool_decide (u ∈ likes p)) eqn:Hl; simpl.
    - apply bool_decide_eq_false_2.
      intros [_ Hn]%elem_of_difference. apply Hn. by apply elem_of_singleton.
    - apply bool_decide_eq_true_2.
      apply elem_of_union. right. by apply elem_of_singleton. }
  rewrite !hasUserLikedPost_current by done. rewrite Hp1, Hp. simpl.
  split; [done|]. split.
  { intros b Hb. rewrite Hflip. by apply Hresult. }
  destruct (togglePostLike_existing _ u postId later p1 Hu Hp1 Hnull1)
    as [Hposts2 _].
  rewrite Hposts2, lookup_insert_eq. eexists. split; [done|].
  rewrite Hflip. subst p1.
  destruct (bool_decide (u ∈ likes p)) eqn:Hl; simpl.
  - apply bool_decide_eq_true in Hl.
    split; [|split; [lia|done]].
    apply set_eq. intros x. rewrite elem_of_union, elem_of_difference,
      elem_of_singleton. destruct (decide (x = u)) as [->|]; tauto.
  - apply bool_decide_eq_false in Hl.
    split; [|split; [lia|done]].
    apply set_eq. intros x. rewrite elem_of_difference, elem_of_union,
      elem_of_singleton. destruct (decide (x = u)) as [->|]; tauto.
Qed.

Lemma togglePostLike_twice_witness :
  hasUserLikedPost (Some "u2") 1 None
    (togglePostLike (Some "u2") 1 201 helloPosted).2 = true
  ∧ ∃ p2, posts (togglePostLike (Some "u2") 1 202
                   (togglePostLike (Some "u2") 1 201 helloPosted).2).2 !! 1
          = Some p2
          ∧ likes p2 = ∅.
Proof.
  assert ("u2" ≠ "") as Hne by done.
  destruct (togglePostLike_twice helloPosted "u2" 1 201 202
              (mkPost (Some "u1") (Some "Alice") (Some "a.png") (Some "hello")
                 None (Some 200%Z) ∅ (Some 0%Z) ∅ (Some 0%Z) (Some 200%Z))
              Hne eq_refl eq_refl) as (Hflip & _ & p2 & Hp2 & Hlikes & _).
  split; [exact Hflip|]. exists p2. split; [exact Hp2|exact Hlikes].
Defined.

(** X25.  When [addComment] has succeeded, [deleteComment] of the new
    comment by the same user succeeds and restores the comment log of the
    post; the count it stores is the count before the comment was added,
    read with [|| 0], or 0 if that was negative; and the stored comment
    carries the trimmed text, which is not empty. *)
Theorem addComment_then_deleteComment (st : Store) (cur : option string)
    (postId : nat) (body : string) (now : Z) (key : nat) :
  let before := default emptyPost (posts st !! postId) in
  let added := addComment cur postId body now st in
  let deleted := deleteComment cur postId key added.2 in
  added.1 = Ok key →
  (∃ c q, posts added.2 !! postId = Some q
          ∧ comments q = <[key := c]> (comments before)
          ∧ comments before !! key = None
          ∧ commentText c = trim body ∧ commentText c ≠ "")
  ∧ deleted.1 = Ok true
  ∧ ∃ p', posts deleted.2 !! postId = Some p'
          ∧ comments p' = comments before
          ∧ commentsCount p'
            = Some (Z.max (orZero (commentsCount before)) 0)
          ∧ likes p' = likes before
          ∧ likesCount p' = likesCount before.
Proof.
  simpl. intros Hok.
  assert (∃ u prof name photo,
            truthyId cur = Some u ∧ trim body ≠ ""
            ∧ users st !! u = Some prof
            ∧ key = pushKey (entriesNat
                      (comments (default emptyPost (posts st !! postId)))).*1
            ∧ posts (addComment cur postId body now st).2
              = <[postId :=
                    withCommentsCount
                      (Some (orZero (commentsCount
                               (default emptyPost (posts st !! postId))) + 1)%Z)
                      (withComments
                         (<[key := mkComment u name photo (trim body) now now]>
                            (comments (default emptyPost (posts st !! postId))))
                         (default emptyPost (posts st !! postId)))]> (posts st))
    as (u & prof & name & photo & Hu & Hbody & Hprof & Hkey & Hposts).
  { revert Hok. unfold addComment. async.
    destruct (truthyId cur) as [u|]; simpl; [|done].
    destruct (decide (trim body = "")); simpl; [done|].
    destruct (users st !! u) as [prof|] eqn:Hprof; simpl; [|done].
    destruct (displayName prof) as [name|]; simpl; [|done].
    destruct (photoURL prof) as [photo|]; simpl; [|done].
    rewrite !lookup_insert_eq. simpl.
    destruct (postIsNull _); simpl; [done|].
    rewrite !lookup_insert_eq. simpl.
    destruct (decide (authorId _ = Some u)); simpl; intros [= <-];
      exists u, prof, name, photo; rewrite insert_insert_eq; done. }
  set (before := default emptyPost (posts st !! postId)) in *.
  assert (comments before !! key = None) as Hfresh
    by (rewrite Hkey; apply pushKey_entriesNat_fresh).
  split.
  { rewrite Hposts, lookup_insert_eq. eexists _, _. split; [done|].
    simpl. done. }
  revert Hposts.
  generalize (addComment cur postId body now st).2 as st1. intros st1 Hposts.
  unfold deleteComment. async. rewrite Hu. simpl.
  rewrite Hposts, lookup_insert_eq. simpl. rewrite lookup_insert_eq. simpl.
  rewrite decide_True by done. simpl.
  rewrite Hposts, !lookup_insert_eq. simpl.
  rewrite delete_insert_eq, delete_id by done.
  assert (postIsNull
            (withComments (comments before)
               (withCommentsCount (Some (orZero (commentsCount before) + 1)%Z)
                  (withComments
                     (<[key := mkComment u name photo (trim body) now now]>
                        (comments before)) before))) = false) as ->.
  { apply bool_decide_eq_false_2.
    by intros (_ & _ & _ & _ & _ & _ & _ & _ & _ & Hn & _). }
  simpl. rewrite !lookup_insert_eq. simpl.
  split; [done|]. eexists. split; [done|]. simpl.
  split; [done|]. split; [f_equal; lia|done].
Qed.

Lemma addComment_then_deleteComment_witness :
  (deleteComment (Some "u2") 1 1
     (addComment (Some "u2") 1 " nice " 201 helloPosted).2).1 = Ok true
  ∧ ∃ p', posts (deleteComment (Some "u2") 1 1
                   (addComment (Some "u2") 1 " nice " 201 helloPosted).2).2 !! 1
          = Some p'
          ∧ comments p' = ∅ ∧ commentsCount p' = Some 0%Z.
Proof.
  destruct (addComment_then_deleteComment helloPosted (Some "u2") 1 " nice "
              201 1 eq_refl) as (_ & Hok & p' & Hp' & Hcomments & Hcount & _).
  split; [exact Hok|]. exists p'.
  split; [exact Hp'|]. split; [exact Hcomments|exact Hcount].
Defined.

(** X26.  [deletePost] by a signed-in caller fails with 'Post not found'
    when the post does not exist and with 'Can only delete your own posts'
    when the caller is not its author, writing nothing; otherwise the
    post and its entry under [userPosts] are gone and every other post
    stays; and deleting a post that [createPost] has just made restores
    the posts as they were before. *)
Theorem deletePost_outcome (st : Store) (caller : string) (postId : nat) :
  caller ≠ "" →
  let deleted := deletePost (Some caller) postId st in
  match getPostById postId st with
  | None => deleted = (inl "Post not found", st)
  | Some (_, p) =>
      if decide (authorId p = Some caller)
      then deleted.1 = inr true
           ∧ getPostById postId deleted.2 = None
           ∧ userPosts deleted.2 !! (caller, postId) = None
           ∧ (∀ i, i ≠ postId → posts deleted.2 !! i = posts st !! i)
      else deleted = (inl "Can only delete your own posts", st)
  end
  ∧ ∀ body imageFile now key,
      (createPost (Some caller) body imageFile now st).1 = Ok key →
      (deletePost (Some caller) key
         (createPost (Some caller) body imageFile now st).2).1 = inr true
      ∧ posts (deletePost (Some caller) key
                 (createPost (Some caller) body imageFile now st).2).2
        = posts st.
Proof.
  intros Hcaller. simpl. split.
  - unfold deletePost, getPostById. task.
    rewrite (truthyId_Some _ Hcaller). simpl.
    destruct (posts st !! postId) as [p|]; simpl; [|done].
    destruct (postIsNull p); simpl; [done|].
    destruct (decide (authorId p = Some caller)); simpl; [|done].
    split; [done|]. rewrite !lookup_delete_eq.
    split; [done|]. split; [done|].
    by intros i Hi; rewrite lookup_delete_ne.
  - intros body imageFile now key.
    unfold createPost, deletePost. task.
    rewrite (truthyId_Some _ Hcaller). simpl.
    destruct (_ && _); simpl; [done|].
    destruct (users st !! caller) as [prof|]; simpl; [|done].
    destruct (displayName prof) as [name|]; simpl; [|done].
    destruct (photoURL prof) as [photo|]; simpl; [|done].
    intros [= <-]. rewrite lookup_insert_eq. simpl.
    rewrite decide_True by done. simpl.
    split; [done|]. rewrite delete_insert_eq.
    apply delete_id, pushKey_entriesNat_fresh.
Qed.

Lemma deletePost_outcome_witness :
  (deletePost (Some "u1") 1
     (createPost (Some "u1") "hello" None 200 friendsMade).2).1 = inr true
  ∧ posts (deletePost (Some "u1") 1
             (createPost (Some "u1") "hello" None 200 friendsMade).2).2
    = posts friendsMade.
Proof.
  assert ("u1" ≠ "") as Hne by done.
  destruct (deletePost_outcome friendsMade "u1" 1 Hne) as [_ Hround].
  apply (Hround "hello" None 200%Z 1). vm_compute. reflexivity.
Defined.

Lemma elem_of_allPostsOf st k p :
  (k, p) ∈ allPostsOf st ↔ posts st !! k = Some p ∧ postIsNull p = false.
Proof.
  unfold allPostsOf. rewrite list_elem_of_filter, elem_of_entriesNat. tauto.
Qed.

Lemma sliceFromZero_take {A} (l : list A) (limit : Z) :
  ∃ m, sliceFromZero l limit = take m l.
Proof. unfold sliceFromZero. destruct (limit <? 0)%Z; eauto. Qed.

Lemma sorted_take_first {A} (R : relation A) (l : list A) (m : nat) (x y : A) :
  StronglySorted R l → x ∈ take m l → y ∈ l → y ∉ take m l → R x y.
Proof.
  intros Hsorted Hx Hy Hout.
  rewrite <- (take_drop m l) in Hy, Hsorted.
  apply elem_of_app in Hy as [Hy|Hy]; [done|].
  exact (StronglySorted_app_1_elem_of _ _ _ _ _ Hsorted Hx Hy).
Qed.

(** X27.  In whatever order the snapshots list the posts and the
    identifiers under [userPosts/{userId}], what [getFeedPosts] and
    [getUserPosts] return holds existing posts, newest first, and at most
    [limit] of them when the limit is not negative.  Every post of the
    feed is by the caller or by a user with a stored profile to whom the
    caller has an edge, and no such post that the feed leaves out is newer
    than one it holds; every post of [getUserPosts] is indexed under the
    user. *)
Theorem getFeedPosts_spec (st : Store) (u : string) (limit : Z)
    (allPosts : list (nat * Post)) (userPostIds : list nat) :
  u ≠ "" →
  allPosts ≡ₚ allPostsOf st →
  userPostIds ≡ₚ (childrenNat u (userPosts st)).*1 →
  let userIds := u :: (friendUid <$> getFriendsList (Some u) st) in
  let feed := feedOf userIds allPosts limit in
  let own := userPostsOf userPostIds limit st in
  getFeedPosts (Some u) limit st = feedOf userIds (allPostsOf st) limit
  ∧ getUserPosts u limit st
    = userPostsOf (childrenNat u (userPosts st)).*1 limit st
  ∧ StronglySorted (λ a b, (postTime b ≤ postTime a)%Z) feed
  ∧ StronglySorted (λ a b, (postTime b ≤ postTime a)%Z) own
  ∧ ((0 ≤ limit)%Z →
     (Z.of_nat (length feed) ≤ limit)%Z ∧ (Z.of_nat (length own) ≤ limit)%Z)
  ∧ (∀ e, e ∈ feed →
       posts st !! e.1 = Some e.2
       ∧ ∃ a, authorId e.2 = Some a
              ∧ (a = u ∨ (is_Some (friends st !! (u, a))
                          ∧ is_Some (users st !! a))))
  ∧ (∀ e k p, e ∈ feed →
       posts st !! k = Some p → postIsNull p = false →
       includesAuthor userIds p = true → (k, p) ∉ feed →
       (postTime (k, p) ≤ postTime e)%Z)
  ∧ (∀ e, e ∈ own →
       posts st !! e.1 = Some e.2 ∧ is_Some (userPosts st !! (u, e.1))).
Proof.
  intros Hu Hall Hids. simpl.
  split; [by unfold getFeedPosts; rewrite (truthyId_Some _ Hu)|].
  split; [done|].
  unfold feedOf, userPostsOf. rewrite getFriendsList_signed_in by done.
  split; [|split; [|split; [|split; [|split]]]].
  - eapply StronglySorted_sublist; [apply sliceFromZero_sublist|].
    eapply StronglySorted_impl; [|apply sortBy_sorted]. simpl. lia.
  - eapply StronglySorted_sublist; [apply sliceFromZero_sublist|].
    eapply StronglySorted_impl; [|apply sortBy_sorted]. simpl. lia.
  - intros Hlimit. split; by apply length_sliceFromZero.
  - intros [k p] Hin. simpl.
    eapply elem_of_sublist in Hin; [|apply sliceFromZero_sublist].
    apply elem_of_sortBy, list_elem_of_filter in Hin as [Hauthor Hin].
    rewrite Hall in Hin.
    apply elem_of_allPostsOf in Hin as [Hp _]. split; [done|].
    unfold includesAuthor in Hauthor. simpl in Hauthor.
    destruct (authorId p) as [a|]; [|done]. exists a. split; [done|].
    apply bool_decide_eq_true in Hauthor.
    apply elem_of_cons in Hauthor as [->|Hfriend]; [by left|right].
    apply elem_of_getFriendsListForUser in Hfriend. tauto.
  - intros e k p Hin Hp Hnull Hauthor Hout.
    set (sorted := sortBy (λ e, (- postTime e)%Z)
                     (filter (λ kv : nat * Post,
                                includesAuthor
                                  (u :: (friendUid <$> getFriendsListForUser u st))
                                  kv.2 = true) allPosts)) in *.
    destruct (sliceFromZero_take sorted limit) as [m Hm].
    rewrite Hm in Hin, Hout.
    assert ((k, p) ∈ sorted) as Hkp.
    { apply elem_of_sortBy, list_elem_of_filter. split; [done|].
      rewrite Hall. by apply elem_of_allPostsOf. }
    pose proof (sorted_take_first _ sorted m e (k, p)
                  (sortBy_sorted _ _) Hin Hkp Hout) as Hle.
    simpl in Hle. lia.
  - intros [k p] Hin. simpl.
    eapply elem_of_sublist in Hin; [|apply sliceFromZero_sublist].
    apply elem_of_sortBy, list_elem_of_omap in Hin as (i & Hi & Hf).
    destruct (posts st !! i) as [q|] eqn:Hq; [|done].
    destruct (postIsNull q); [done|]. injection Hf as <- <-.
    split; [done|].
    rewrite Hids in Hi.
    apply list_elem_of_fmap in Hi as ([i' v] & -> & Hi).
    apply elem_of_childrenNat in Hi. by eexists.
Qed.

Lemma getFeedPosts_spec_witness :
  (Z.of_nat (length (getFeedPosts (Some "u2") 20 helloPosted)) ≤ 20)%Z
  ∧ (authorId ∘ snd) <$> getFeedPosts (Some "u2") 20 helloPosted
    = [Some "u1"]
  ∧ fst <$> getUserPosts "u1" 20 helloPosted = [1].
Proof.
  assert ("u2" ≠ "") as Hne by done.
  destruct (getFeedPosts_spec helloPosted "u2" 20 (allPostsOf helloPosted)
              (childrenNat "u2" (userPosts helloPosted)).*1 Hne
              (reflexivity _) (reflexivity _))
    as (Hfeed & _ & _ & _ & Hlen & _).
  destruct Hlen as [Hlength _]; [lia|].
  rewrite <- Hfeed in Hlength.
  split; [exact Hlength|]. split; vm_compute; reflexivity.
Defined.

(** X28.  [getPostComments] lists exactly the comments stored under the
    post, oldest first; after a successful [addComment] the new comment is
    in the list under the returned key, with the caller as author and the
    trimmed text. *)
Theorem getPostComments_spec (st : Store) (postId : nat) :
  StronglySorted
    (λ a b : nat * Comment, (commentCreatedAt a.2 ≤ commentCreatedAt b.2)%Z)
    (getPostComments postId st)
  ∧ (∀ k c, (k, c) ∈ getPostComments postId st
            ↔ comments (default emptyPost (posts st !! postId)) !! k = Some c)
  ∧ ∀ cur body now key,
      (addComment cur postId body now st).1 = Ok key →
      ∃ c, (key, c) ∈ getPostComments postId (addComment cur postId body now st).2
           ∧ Some (commentAuthorId c) = cur
           ∧ commentText c = trim body.
Proof.
  split; [|split].
  - unfold getPostComments. apply (sortBy_sorted (λ e : nat * Comment, _)).
  - intros k c. unfold getPostComments.
    by rewrite elem_of_sortBy, elem_of_entriesNat.
  - intros cur body now key. unfold getPostComments.
    setoid_rewrite elem_of_sortBy. setoid_rewrite elem_of_entriesNat.
    unfold addComment. async.
    destruct (truthyId cur) as [u|] eqn:Hu; simpl; [|done].
    apply truthyId_inv in Hu as [-> Hu].
    destruct (decide (trim body = "")); simpl; [done|].
    destruct (users st !! u) as [prof|]; simpl; [|done].
    destruct (displayName prof) as [name|]; simpl; [|done].
    destruct (photoURL prof) as [photo|]; simpl; [|done].
    rewrite !lookup_insert_eq. simpl.
    destruct (postIsNull _); simpl; [done|].
    rewrite !lookup_insert_eq. simpl.
    destruct (decide (authorId _ = Some u)); simpl; intros [= <-];
      rewrite lookup_insert_eq; simpl; rewrite lookup_insert_eq;
      by eexists.
Qed.

Lemma getPostComments_spec_witness :
  ∃ c, (1, c) ∈ getPostComments 1
                  (addComment (Some "u2") 1 " nice " 201 helloPosted).2
       ∧ Some (commentAuthorId c) = Some "u2"
       ∧ commentText c = "nice".
Proof.
  destruct (getPostComments_spec helloPosted 1) as (_ & _ & Hadded).
  exact (Hadded (Some "u2") " nice " 201%Z 1 eq_refl).
Defined.

Lemma elem_of_supported_prefix (t : string) :
  t ∈ supportedFormats → String.prefix "image/" t = true.
Proof.
  unfold supportedFormats. rewrite !elem_of_cons.
  intros [->|[->|[->|[->|[->|Hin]]]]]; try done.
  by apply elem_of_nil in Hin.
Qed.

(** X29.  [validateImageFile] accepts a file exactly when its type is one
    of the five supported formats and its size is at most 5 MB: the check
    that the type starts with [image/] never rejects a file the other two
    accept. *)
Theorem validateImageFile_spec (file : ImageFile) :
  isValid file = true
  ↔ fileType file ∈ supportedFormats ∧ (fileSize file ≤ 5242880)%Z.
Proof.
  unfold isValid, validateImageFile. rewrite bool_decide_eq_true.
  change maxSize with 5242880%Z.
  destruct (Z.ltb_spec 5242880 (fileSize file)); simpl.
  - split; [|lia]. destruct (String.prefix _ _); simpl; done.
  - destruct (decide (fileType file ∈ supportedFormats)) as [Hin|Hnotin].
    + rewrite (elem_of_supported_prefix _ Hin). simpl.
      rewrite bool_decide_eq_true_2 by done. done.
    + rewrite (bool_decide_eq_false_2 _ Hnotin).
      split; [|tauto]. destruct (String.prefix _ _); simpl; done.
Qed.

Lemma validateImageFile_spec_witness :
  isValid (mkImageFile "image/png" 5242880) = true
  ∧ validateImageFile (mkImageFile "image/svg+xml" 1)
    = ["Supported formats: JPEG, PNG, GIF, WebP"].
Proof.
  destruct (validateImageFile_spec (mkImageFile "image/png" 5242880))
    as [_ Hvalid].
  split; [|reflexivity]. apply Hvalid. split; [|simpl; lia].
  apply list_elem_of_further, list_elem_of_further, list_elem_of_here.
Defined.

(** X30.  [getPostLikes] lists exactly the users with a stored profile of
    whom [hasUserLikedPost] holds, each once. *)
Theorem getPostLikes_spec (st : Store) (cur : option string) (postId : nat)
    (x : string) :
  x ≠ "" →
  (x ∈ uid <$> getPostLikes postId st
   ↔ hasUserLikedPost cur postId (Some x) st = true ∧ is_Some (users st !! x))
  ∧ NoDup (uid <$> getPostLikes postId st).
Proof.
  intros Hx. unfold getPostLikes, hasUserLikedPost.
  rewrite !(truthyId_Some _ Hx). rewrite bool_decide_eq_true.
  set (L := likes (default emptyPost (posts st !! postId))).
  assert (∀ l : list string,
            uid <$> omap (λ userId, match users st !! userId with
                                    | Some p => Some (mkUserEntry userId p)
                                    | None => None
                                    end) l
            = filter (λ userId, is_Some (users st !! userId)) l) as Hmap.
  { induction l as [|y l IH]; simpl; [done|].
    rewrite filter_cons. destruct (users st !! y) as [p|] eqn:Hy; simpl.
    - f_equal. exact IH.
    - exact IH. }
  rewrite Hmap. split.
  - rewrite list_elem_of_filter, merge_sort_Permutation, elem_of_elements.
    tauto.
  - apply NoDup_filter. rewrite merge_sort_Permutation. apply NoDup_elements.
Qed.

Lemma getPostLikes_spec_witness :
  "u2" ∈ uid <$> getPostLikes 1 (togglePostLike (Some "u2") 1 201 helloPosted).2
  ↔ hasUserLikedPost None 1 (Some "u2")
      (togglePostLike (Some "u2") 1 201 helloPosted).2 = true
    ∧ is_Some (users (togglePostLike (Some "u2") 1 201 helloPosted).2 !! "u2").
Proof.
  assert ("u2" ≠ "") as Hne by done.
  exact (proj1 (getPostLikes_spec
                  (togglePostLike (Some "u2") 1 201 helloPosted).2 None 1 "u2"
                  Hne)).
Defined.
